(** * supabase-router-core: request dispatch pipeline

    A shallow embedding of the routing, sanitising, validating,
    authenticating and middleware-composing code of the router, and the
    properties its specification states about them.

    Layout: JavaScript strings and values first, then one module per
    source file (constants, sanitizer, params-validator, compiler, rbac,
    http-errors, authenticator, composer, dto-validator, router); all the
    definitions come first, the properties follow in the second half. *)

From Stdlib Require Import ZArith NArith Ascii String List Lia Bool.
From stdpp Require Import base option list gmap pretty.

Set Default Proof Using "Type".
Open Scope list_scope.

(** ** JavaScript strings

    A JavaScript string is a finite sequence of UTF-16 code units;
    [length], [includes], [startsWith] and [slice] all count code units. *)

Module JsString.

Definition jsstring : Type := list N.

(** A literal of the source: every character of an ASCII literal is one
    code unit. *)
Definition str (s : string) : jsstring :=
  map N_of_ascii (list_ascii_of_string s).

(** [s.startsWith(p)] *)
Fixpoint startsWith (s p : jsstring) {struct p} : bool :=
  match p, s with
  | [], _ => true
  | _ :: _, [] => false
  | c :: p', d :: s' => (c =? d)%N && startsWith s' p'
  end.

(** [s.includes(n)] *)
Fixpoint includes (s n : jsstring) : bool :=
  startsWith s n ||
  match s with
  | [] => false
  | _ :: t => includes t n
  end.

(** [s.toLowerCase()] on the letters A-Z.  The Unicode case tables of the
    host are not part of the repository; code units outside A-Z are kept.
    No character outside ASCII lower-cases to one of the characters the
    sanitizers search for ([%], digits, [e], [f], [c]). *)
Definition lower_unit (c : N) : N :=
  if ((65 <=? c) && (c <=? 90))%N then (c + 32)%N else c.

Definition toLowerCase (s : jsstring) : jsstring := map lower_unit s.

(** [s.toUpperCase()], on the letters a-z in the same way *)
Definition upper_unit (c : N) : N :=
  if ((97 <=? c) && (c <=? 122))%N then (c - 32)%N else c.

Definition toUpperCase (s : jsstring) : jsstring := map upper_unit s.

(** [parts.join(separator)] *)
Fixpoint join (separator : jsstring) (parts : list jsstring) : jsstring :=
  match parts with
  | [] => []
  | [p] => p
  | p :: rest => p ++ separator ++ join separator rest
  end.

(** [s.slice(0, n)] for a non-negative [n] *)
Definition slice0 (n : nat) (s : jsstring) : jsstring := firstn n s.

(** The reading of the specification: [n] occurs in [s] ... *)
Definition contains (s n : jsstring) : Prop :=
  exists a b, s = a ++ n ++ b.

(** ... and [n] occurs in [s] up to the case of its letters. *)
Definition contains_ci (s n : jsstring) : Prop :=
  exists a w b, s = a ++ w ++ b /\ toLowerCase w = toLowerCase n.

End JsString.

Export JsString.

(** ** JavaScript values, objects and completions *)

Module Js.

(** The values a parameter of type [unknown] can hold.  Numbers are
    represented by the integers among them and objects by a single
    constructor: of a value that is not a string only [typeof] is asked. *)
Inductive value : Type :=
  | VUndefined
  | VNull
  | VBoolean (b : bool)
  | VNumber (n : Z)
  | VString (s : jsstring)
  | VObject.

(** [new Error(message)] *)
Record Error : Type := mkError { message : jsstring }.

(** How a call ends: it returns, or it throws. *)
Inductive completion (E A : Type) : Type :=
  | Return (a : A)
  | Throw (e : E).
Arguments Return {E A} a.
Arguments Throw {E A} e.

Definition throws {E A : Type} (c : completion E A) : Prop :=
  exists e, c = Throw e.

(** Objects as the pipeline uses them: string-keyed own properties and a
    prototype that is either [Object.prototype] or [null]. *)
Inductive prototype : Type := NullPrototype | ObjectPrototype.

Record object (V : Type) : Type := mkObject {
  proto : prototype;
  own : gmap jsstring V
}.
Arguments mkObject {V} proto own.
Arguments proto {V} o.
Arguments own {V} o.

(** The property names every object inherits from [Object.prototype]. *)
Definition Object_prototype_keys : list jsstring :=
  map str [ "constructor"; "__proto__"; "hasOwnProperty"; "isPrototypeOf";
            "propertyIsEnumerable"; "toLocaleString"; "toString"; "valueOf";
            "__defineGetter__"; "__defineSetter__"; "__lookupGetter__";
            "__lookupSetter__" ]%string.

Definition inherited {V} (o : object V) (k : jsstring) : bool :=
  match proto o with
  | NullPrototype => false
  | ObjectPrototype => bool_decide (k ∈ Object_prototype_keys)
  end.

(** [k in o] *)
Definition has_property {V} (k : jsstring) (o : object V) : bool :=
  bool_decide (is_Some (own o !! k)) || inherited o k.

(** [Object.create(null)] *)
Definition Object_create_null {V} : object V := mkObject NullPrototype ∅.

(** [o[k] = v] on an object without accessors, which is every object
    created by [Object.create(null)]. *)
Definition set_property {V} (k : jsstring) (v : V) (o : object V) : object V :=
  mkObject (proto o) (<[k := v]> (own o)).

End Js.

Export Js.

(** ** core/constants.ts *)

Module Constants.

Definition DANGEROUS_QUERY_KEYS : list jsstring :=
  map str [ "__proto__"; "constructor"; "prototype" ]%string.

Definition MAX_PATH_PARAM_LENGTH : nat := 200.

Definition SAFE_PATH_PARAM_PATTERN : jsstring :=
  str "([a-zA-Z0-9_%.='\-]{1,200})".

(** The character classes [[a-zA-Z_]] and [[a-zA-Z0-9_]] *)
Definition PATH_PARAM_NAME_FIRST (c : N) : bool :=
  ((65 <=? c) && (c <=? 90) || (97 <=? c) && (c <=? 122) || (c =? 95))%N.

Definition PATH_PARAM_NAME_REST (c : N) : bool :=
  (PATH_PARAM_NAME_FIRST c || (48 <=? c) && (c <=? 57))%N.

(** [PATH_PARAM_NAME_REGEX.test(name)] for the regular expression
    [^[a-zA-Z_][a-zA-Z0-9_]*$] *)
Definition PATH_PARAM_NAME_REGEX_test (name : jsstring) : bool :=
  match name with
  | [] => false
  | c :: rest => PATH_PARAM_NAME_FIRST c && forallb PATH_PARAM_NAME_REST rest
  end.

Definition MAX_ERROR_MESSAGE_LENGTH : nat := 500.

Definition DEFAULT_MAX_FILE_SIZE : N := 10 * 1024 * 1024.

Module HTTP_STATUS.
Definition OK : N := 200.
Definition CREATED : N := 201.
Definition NO_CONTENT : N := 204.
Definition BAD_REQUEST : N := 400.
Definition UNAUTHORIZED : N := 401.
Definition FORBIDDEN : N := 403.
Definition NOT_FOUND : N := 404.
Definition METHOD_NOT_ALLOWED : N := 405.
Definition UNSUPPORTED_MEDIA_TYPE : N := 415.
Definition UNPROCESSABLE_ENTITY : N := 422.
Definition INTERNAL_SERVER_ERROR : N := 500.
End HTTP_STATUS.

End Constants.

(** ** Responses of the host

    The [Response] and [Headers] objects of the Fetch standard, as far as
    the pipeline builds and changes them.  Header names and values are
    taken to be well-formed. *)

Module Http.

(** A plain object with string values (a header initialiser, a
    [Record<string, string>]), as the list of its properties in order. *)
Definition record : Type := list (jsstring * jsstring).

Fixpoint record_get (key : jsstring) (o : record) : option jsstring :=
  match o with
  | [] => None
  | (k, v) :: rest => if bool_decide (k = key) then Some v else record_get key rest
  end.

(** [o[key] = value]: an existing property keeps its place. *)
Fixpoint record_set (key value : jsstring) (o : record) : record :=
  match o with
  | [] => [(key, value)]
  | (k, v) :: rest =>
      if bool_decide (k = key) then (k, value) :: rest
      else (k, v) :: record_set key value rest
  end.

(** The object literal that spreads [a] and then [b] *)
Definition spread (a b : record) : record :=
  fold_left (fun o '(k, v) => record_set k v o) b a.

(** A [Headers] object: its header list, names in lower case, one entry
    per name, values without leading or trailing HTTP whitespace. *)
Definition Headers : Type := list (jsstring * jsstring).

(** Tab, line feed, carriage return and space *)
Definition isHttpWhitespace (c : N) : bool :=
  ((c =? 9) || (c =? 10) || (c =? 13) || (c =? 32))%N.

Fixpoint stripLeading (value : jsstring) : jsstring :=
  match value with
  | [] => []
  | c :: rest => if isHttpWhitespace c then stripLeading rest else value
  end.

(** What [set] and [append] keep of a value: the value without its
    leading and trailing HTTP whitespace *)
Definition normalizeHeaderValue (value : jsstring) : jsstring :=
  rev (stripLeading (rev (stripLeading value))).

Definition headers_get (name : jsstring) (h : Headers) : option jsstring :=
  record_get (toLowerCase name) h.

Definition headers_has (name : jsstring) (h : Headers) : bool :=
  bool_decide (is_Some (headers_get name h)).

(** [h.set(name, value)] on headers that can be changed *)
Definition headers_set (name value : jsstring) (h : Headers) : Headers :=
  record_set (toLowerCase name) (normalizeHeaderValue value) h.

(** [h.append(name, value)]: a second value for a name is joined to the
    first with a comma and a space. *)
Definition headers_append (name value : jsstring) (h : Headers) : Headers :=
  match headers_get name h with
  | Some old =>
      record_set (toLowerCase name)
        (old ++ str ", " ++ normalizeHeaderValue value) h
  | None => record_set (toLowerCase name) (normalizeHeaderValue value) h
  end.

(** [new Headers(init)] *)
Definition newHeaders (init : record) : Headers :=
  fold_left (fun h '(k, v) => headers_append k v h) init [].

(** The argument of [JSON.stringify] in a response body: an object
    literal, property by property, or a value serialised as it is.  A
    property holds a string, an array of [{ path, message }] objects, or
    any other value. *)
Inductive field : Type :=
  | FString (s : jsstring)
  | FIssues (issues : list (list jsstring * jsstring))
  | FValue (v : value).

Inductive payload : Type :=
  | JsonObject (fields : list (jsstring * field))
  | JsonValue (v : value).

(** A response: its status, headers and body, and whether its headers
    are immutable, as those of the result of [fetch] and of
    [Response.redirect] are. *)
Record Response : Type := mkResponse {
  status : N;
  headers : Headers;
  body : option payload;
  immutableHeaders : bool
}.

(** [new Response(body, { status, headers })] with a string or [null]
    body, for a status and a body the constructor takes (a status from
    200 to 599, and no body with a status that admits none): a string
    body without a declared content type is labelled as plain text.  The
    headers of the response can be changed. *)
Definition newResponse (body : option payload) (status : N) (init : record)
    : Response :=
  let h := newHeaders init in
  mkResponse status
    (match body with
     | Some _ =>
         if headers_has (str "Content-Type") h then h
         else headers_append (str "Content-Type")
                (str "text/plain;charset=UTF-8") h
     | None => h
     end)
    body false.

(** The statuses of responses that have no body *)
Definition isNullBodyStatus (status : N) : bool :=
  bool_decide (status ∈ [101; 103; 204; 205; 304]%N).

(** [for (const [key, value] of Object.entries(corsHeaders))
       response.headers.set(key, value)]: the first [set] on immutable
    headers throws a [TypeError], here [immutable]; its message is the
    engine's. *)
Definition setHeaders (immutable : Error) (corsHeaders : record)
    (response : Response) : completion Error Response :=
  match corsHeaders with
  | [] => Return response
  | _ :: _ =>
      if immutableHeaders response then Throw immutable
      else
        Return
          (mkResponse (status response)
             (fold_left (fun h '(k, v) => headers_set k v h) corsHeaders
                (headers response))
             (body response) false)
  end.

(** What an [async] function can throw or reject with *)
Inductive thrown : Type :=
  | ThrownError (e : Error)
  | ThrownResponse (r : Response)
  | ThrownValue (v : value).

(** A [File] or [Blob] *)
Record File : Type := mkFile { file_size : N }.

Inductive FormDataEntryValue : Type :=
  | FormString (s : jsstring)
  | FormFile (f : File).

(** A [FormData] is the list of its entries. *)
Definition FormData : Type := list (jsstring * FormDataEntryValue).

(** A parsed request body: a value that is no object, or an object (a
    keyed structure) whose properties hold values or files. *)
Inductive datum : Type :=
  | DValue (v : value)
  | DFile (f : File).

Inductive data : Type :=
  | Primitive (v : value)
  | Structure (o : object datum).

(** A [Request]: its method, the parts of its URL, the header fields it
    came with, and what each of its body readers settles with when called
    (a reader throws an [Error] on a body it cannot read). *)
Record Request : Type := mkRequest {
  method : jsstring;
  pathname : jsstring;
  searchParams : list (jsstring * jsstring);
  headerList : record;
  json : completion Error data;
  text : completion Error jsstring;
  formData : completion Error FormData
}.

(** [req.headers]: the [Headers] object over the header fields *)
Definition requestHeaders (req : Request) : Headers :=
  newHeaders (headerList req).

End Http.

Export Http.


(** ** security/sanitizer.ts *)

Module Sanitizer.
Import Constants.

Definition DANGEROUS_QUERY_KEYS_SET : gset jsstring :=
  list_to_set DANGEROUS_QUERY_KEYS.

Definition isControlCharacter (code : N) : bool :=
  ((0 <=? code) && (code <=? 31) || (127 <=? code) && (code <=? 159))%N.

Definition isHighSurrogate (c : N) : bool := ((55296 <=? c) && (c <=? 56319))%N.
Definition isLowSurrogate (c : N) : bool := ((56320 <=? c) && (c <=? 57343))%N.

(** The strings [for (const char of value)] binds [char] to: a surrogate
    pair is one character, any other code unit is one character. *)
Fixpoint characters (value : jsstring) : list jsstring :=
  match value with
  | [] => []
  | c :: t =>
      match t with
      | d :: rest =>
          if isHighSurrogate c && isLowSurrogate d
          then [c; d] :: characters rest
          else [c] :: characters t
      | [] => [[c]]
      end
  end.

(** [char.charCodeAt(0)] of a non-empty [char] *)
Definition charCodeAt0 (char : jsstring) : N := hd 0%N char.

Definition stripControlCharacters (value : jsstring) : jsstring :=
  fold_left
    (fun result char =>
       if isControlCharacter (charCodeAt0 char) then result
       else result ++ char)
    (characters value) [].

Definition ERR_TOO_LONG : jsstring :=
  str "Invalid path parameter: exceeds maximum length of 200 characters".
Definition ERR_ENCODED_TRAVERSAL : jsstring :=
  str "Invalid path parameter: encoded traversal detected".
Definition ERR_URL_ENCODING : jsstring :=
  str "Invalid URL encoding in path parameter".
Definition ERR_DECODED_TOO_LONG : jsstring :=
  str "Invalid path parameter: decoded value exceeds maximum length of 200 characters".
Definition ERR_TRAVERSAL : jsstring :=
  str "Invalid path parameter: path traversal detected".
Definition ERR_NULL_BYTE : jsstring :=
  str "Invalid path parameter: null byte detected".

Definition BACKSLASH : jsstring := [92%N].
Definition NUL : jsstring := [0%N].

(** A [URLSearchParams] is the list of its (key, value) entries, in the
    order [forEach] visits them. *)
Definition URLSearchParams : Type := list (jsstring * jsstring).

(** The callback of [searchParams.forEach] *)
Definition parseQuerySafely_step
    (query : object jsstring) (entry : jsstring * jsstring) : object jsstring :=
  let '(key, value) := entry in
  if has_property key query then query
  else if bool_decide (key ∈ DANGEROUS_QUERY_KEYS_SET) then query
  else if includes key (str "[") || includes key (str "]") then query
  else if startsWith key (str "_") then query
  else set_property key value query.

Definition parseQuerySafely (searchParams : URLSearchParams) : object jsstring :=
  fold_left parseQuerySafely_step searchParams Object_create_null.

(** The class of the code units U+200B to U+200D and U+FEFF *)
Definition isZeroWidth (c : N) : bool :=
  ((8203 <=? c) && (c <=? 8205) || (c =? 65279))%N.

(** The global removal of that class *)
Definition stripZeroWidth (s : jsstring) : jsstring :=
  List.filter (fun c => negb (isZeroWidth c)) s.

(** A literal pattern under the [i] flag matches at the head of [s]:
    without the [u] flag a code unit outside ASCII never matches an ASCII
    one, so the comparison is on the letters A-Z only. *)
Fixpoint matchesAt_ci (pattern s : jsstring) {struct pattern} : bool :=
  match pattern, s with
  | [], _ => true
  | _ :: _, [] => false
  | p :: pattern', c :: s' =>
      (lower_unit p =? lower_unit c)%N && matchesAt_ci pattern' s'
  end.

(** The global, case-insensitive removal of a non-empty literal [pattern]
    ([replace] under the flags [gi] with the empty replacement): the
    matches are found left to right and do not overlap; [skip] counts the
    code units of a match still to be dropped. *)
Fixpoint removeAll_ci_from (pattern : jsstring) (skip : nat) (s : jsstring)
    : jsstring :=
  match s with
  | [] => []
  | c :: t =>
      match skip with
      | S k => removeAll_ci_from pattern k t
      | O =>
          if matchesAt_ci pattern s
          then removeAll_ci_from pattern (length pattern - 1) t
          else c :: removeAll_ci_from pattern 0 t
      end
  end.

Definition removeAll_ci (pattern s : jsstring) : jsstring :=
  removeAll_ci_from pattern 0 s.

(** The global replacement of the one character [c] by [replacement] *)
Definition replaceChar (c : N) (replacement : jsstring) (s : jsstring)
    : jsstring :=
  flat_map (fun d => if (d =? c)%N then replacement else [d]) s.

Definition AMP : N := 38.
Definition LT : N := 60.
Definition GT : N := 62.
Definition DQUOTE : N := 34.
Definition SQUOTE : N := 39.
Definition SLASH : N := 47.

(** Step 5 of [sanitizeErrorMessage]: the six replacements, in order *)
Definition escapeHtml (sanitized : jsstring) : jsstring :=
  replaceChar SLASH (str "&#x2F;")
    (replaceChar SQUOTE (str "&#x27;")
      (replaceChar DQUOTE (str "&quot;")
        (replaceChar GT (str "&gt;")
          (replaceChar LT (str "&lt;")
            (replaceChar AMP (str "&amp;") sanitized))))).

Definition GENERIC_ERROR : jsstring := str "Internal server error".

(** [String(n)] for a number that is a natural below 2^53, where every
    natural is a number of the host and prints as its decimal digits.
    The sizes of files and the ages of CORS configurations are such
    numbers; a larger [n] stands for no number of the host. *)
Definition numberToString (n : N) : jsstring := str (pretty n).

Definition ERR_DUPLICATE_FIELD (key : jsstring) : jsstring :=
  str "Duplicate form field: " ++ key.
Definition ERR_FILE_TOO_LARGE (key : jsstring) (size maxFileSize : N)
    : jsstring :=
  str "File too large: " ++ key ++ str " (" ++ numberToString size
  ++ str " bytes, max " ++ numberToString maxFileSize ++ str ")".

(** The [for ... of] loop of [parseFormDataSafely] over the entries still
    to visit *)
Fixpoint parseFormDataSafely_loop (entries : FormData) (maxFileSize : N)
    (seen : gset jsstring) (result : object FormDataEntryValue)
    : completion Error (object FormDataEntryValue) :=
  match entries with
  | [] => Return result
  | (key, value) :: rest =>
      if bool_decide (key ∈ seen) then
        Throw (mkError (ERR_DUPLICATE_FIELD key))
      else
        let seen := {[ key ]} ∪ seen in
        if bool_decide (key ∈ DANGEROUS_QUERY_KEYS_SET) then
          parseFormDataSafely_loop rest maxFileSize seen result
        else
          match value with
          | FormFile f =>
              if (maxFileSize <? file_size f)%N then
                Throw (mkError (ERR_FILE_TOO_LARGE key (file_size f) maxFileSize))
              else
                parseFormDataSafely_loop rest maxFileSize seen
                  (set_property key value result)
          | FormString _ =>
              parseFormDataSafely_loop rest maxFileSize seen
                (set_property key value result)
          end
  end.

Definition parseFormDataSafely (formData : FormData) (maxFileSize : N)
    : completion Error (object FormDataEntryValue) :=
  parseFormDataSafely_loop formData maxFileSize ∅ Object_create_null.

(** The global removal of carriage returns and line feeds *)
Definition sanitizeHeaderValue (value : jsstring) : jsstring :=
  List.filter (fun c => negb ((c =? 13) || (c =? 10))%N) value.

(** The class [[a-zA-Z0-9-]] *)
Definition isHeaderNameChar (c : N) : bool :=
  ((65 <=? c) && (c <=? 90) || (97 <=? c) && (c <=? 122)
   || (48 <=? c) && (c <=? 57) || (c =? 45))%N.

Definition isValidHeaderName (name : jsstring) : bool :=
  match name with
  | [] => false
  | _ :: _ => forallb isHeaderNameChar name
  end.

Definition sanitizeHeaderList (headers : list jsstring) : jsstring :=
  join (str ", ") (List.filter isValidHeaderName headers).

Section Host.

(** [decodeURIComponent] of the host; [None] when it throws [URIError]. *)
Variable decodeURIComponent : jsstring -> option jsstring.

(** [String.prototype.normalize] of the host, at the form NFKC. *)
Variable normalizeNFKC : jsstring -> jsstring.

Definition sanitizePathParam (value : jsstring) : completion Error jsstring :=
  if (MAX_PATH_PARAM_LENGTH <? length value)%nat then
    Throw (mkError ERR_TOO_LONG)
  else if includes (toLowerCase value) (str "%2e%2e")
          || includes (toLowerCase value) (str "%2f")
          || includes (toLowerCase value) (str "%5c") then
    Throw (mkError ERR_ENCODED_TRAVERSAL)
  else
    match decodeURIComponent value with
    | None => Throw (mkError ERR_URL_ENCODING)
    | Some decoded =>
        if (MAX_PATH_PARAM_LENGTH <? length decoded)%nat then
          Throw (mkError ERR_DECODED_TOO_LONG)
        else if includes decoded (str "..") || includes decoded (str "/")
                || includes decoded BACKSLASH then
          Throw (mkError ERR_TRAVERSAL)
        else if includes decoded NUL then
          Throw (mkError ERR_NULL_BYTE)
        else Return decoded
    end.

Definition sanitizeErrorMessage (message : value) : jsstring :=
  match message with
  | VString message =>
      let sanitized := normalizeNFKC message in
      let sanitized := stripControlCharacters sanitized in
      let sanitized := stripZeroWidth sanitized in
      let sanitized :=
        removeAll_ci (str "file:")
          (removeAll_ci (str "vbscript:")
            (removeAll_ci (str "data:")
              (removeAll_ci (str "javascript:") sanitized))) in
      let escaped := escapeHtml sanitized in
      slice0 MAX_ERROR_MESSAGE_LENGTH escaped
  | _ => GENERIC_ERROR
  end.

End Host.

End Sanitizer.

(** ** routing/params-validator.ts *)

Module ParamsValidator.
Import Constants.

Definition isValidParamName (name : jsstring) : bool :=
  PATH_PARAM_NAME_REGEX_test name.

Definition ERR_PATH_TRAVERSAL : jsstring :=
  str "Path traversal attempt detected in route path".
Definition ERR_ENCODED_PATH_TRAVERSAL : jsstring :=
  str "Encoded path traversal detected in route path".
Definition ERR_PATH_NULL_BYTE : jsstring :=
  str "Null byte detected in route path".

Definition validatePathSafety (path : jsstring) : completion Error unit :=
  if includes path (str "..") then
    Throw (mkError ERR_PATH_TRAVERSAL)
  else if includes (toLowerCase path) (str "%2e%2e") then
    Throw (mkError ERR_ENCODED_PATH_TRAVERSAL)
  else if includes path [0%N] then
    Throw (mkError ERR_PATH_NULL_BYTE)
  else Return tt.

Definition COLON : N := 58.

(** A path cut by the global regular expression of [extractParamNames]
    and [compileRoute] (a colon, then one of [a-zA-Z_], then as many of
    [a-zA-Z0-9_] as follow, the part after the colon being capture group
    1): its matches, left to right, each with its capture group, and the
    code units between them. *)
Inductive piece : Type :=
  | Text (c : N)
  | ParamMatch (name : jsstring).

(** Does a match start at the code unit [c], followed by [t]? *)
Definition opensParam (c : N) (t : jsstring) : bool :=
  (c =? COLON)%N &&
  match t with
  | d :: _ => PATH_PARAM_NAME_FIRST d
  | [] => false
  end.

(** [current] is the part of the capture group read so far when the scan
    is inside a match. *)
Fixpoint scanParams (current : option jsstring) (path : jsstring)
    : list piece :=
  match path with
  | [] =>
      match current with
      | Some name => [ParamMatch name]
      | None => []
      end
  | c :: t =>
      match current with
      | Some name =>
          if PATH_PARAM_NAME_REST c then scanParams (Some (name ++ [c])) t
          else
            ParamMatch name ::
            (if opensParam c t then scanParams (Some []) t
             else Text c :: scanParams None t)
      | None =>
          if opensParam c t then scanParams (Some []) t
          else Text c :: scanParams None t
      end
  end.

(** [match[1]] of every match of [path.matchAll(...)], in order *)
Definition paramMatches (path : jsstring) : list jsstring :=
  omap (fun p => match p with ParamMatch name => Some name | Text _ => None end)
       (scanParams None path).

Definition ERR_INVALID_PARAM (paramName : jsstring) : jsstring :=
  str "Invalid parameter name: " ++ paramName.
Definition ERR_DUPLICATE_PARAM (paramName : jsstring) : jsstring :=
  str "Duplicate parameter name: " ++ paramName.

(** The [for ... of] loop of [extractParamNames] over the matches still
    to visit, [params] being the array built so far *)
Fixpoint extractParamNames_loop (matches params : list jsstring)
    : completion Error (list jsstring) :=
  match matches with
  | [] => Return params
  | paramName :: rest =>
      if negb (isValidParamName paramName) then
        Throw (mkError (ERR_INVALID_PARAM paramName))
      else if bool_decide (paramName ∈ params) then
        Throw (mkError (ERR_DUPLICATE_PARAM paramName))
      else extractParamNames_loop rest (params ++ [paramName])
  end.

Definition extractParamNames (path : jsstring)
    : completion Error (list jsstring) :=
  extractParamNames_loop (paramMatches path) [].

End ParamsValidator.

(** ** routing/compiler.ts *)

Module Compiler.
Import Constants ParamsValidator.

(** [path.replace(..., () => SAFE_PATH_PARAM_PATTERN)] with the same
    regular expression *)
Definition safePattern (path : jsstring) : jsstring :=
  flat_map
    (fun p => match p with
              | Text c => [c]
              | ParamMatch _ => SAFE_PATH_PARAM_PATTERN
              end)
    (scanParams None path).

(** What [compileRoute] throws: an [Error] of the path validators, or the
    [SyntaxError] of the [RegExp] constructor. *)
Inductive CompileError : Type :=
  | PathError (e : Error)
  | RegExpSyntaxError.

Section Host.

(** The regular expressions of the host and their constructor from a
    source text; [None] when the constructor throws [SyntaxError]. *)
Variable RegExp : Type.
Variable newRegExp : jsstring -> option RegExp.

Definition compileRoute (path : jsstring)
    : completion CompileError (RegExp * list jsstring) :=
  match validatePathSafety path with
  | Throw e => Throw (PathError e)
  | Return _ =>
      match extractParamNames path with
      | Throw e => Throw (PathError e)
      | Return params =>
          match newRegExp (str "^" ++ safePattern path ++ str "$") with
          | None => Throw RegExpSyntaxError
          | Some regex => Return (regex, params)
          end
      end
  end.

End Host.

End Compiler.

(** ** errors/http-errors.ts *)

Module HttpErrors.
Import Constants.

Section Host.

Variable normalizeNFKC : jsstring -> jsstring.

(** [cause] is [VUndefined] when the argument is left out; so it is below,
    where [message] is [None] when left out and then takes its default. *)
Definition createErrorResponse (message : jsstring) (status : N) (cause : value)
    : Response :=
  let sanitized := Sanitizer.sanitizeErrorMessage normalizeNFKC (VString message) in
  let body :=
    (str "error", FString sanitized) ::
    match cause with
    | VUndefined => []
    | _ => [(str "cause", FValue cause)]
    end in
  newResponse (Some (JsonObject body)) status
    [ (str "Content-Type", str "application/json");
      (str "X-Content-Type-Options", str "nosniff") ].

Definition badRequest (message : option jsstring) (cause : value) : Response :=
  createErrorResponse (default (str "Bad Request") message)
    HTTP_STATUS.BAD_REQUEST cause.

Definition unauthorized (message : option jsstring) (cause : value) : Response :=
  createErrorResponse (default (str "Unauthorized") message)
    HTTP_STATUS.UNAUTHORIZED cause.

Definition forbidden (message : option jsstring) (cause : value) : Response :=
  createErrorResponse (default (str "Forbidden") message)
    HTTP_STATUS.FORBIDDEN cause.

Definition notFound (message : option jsstring) (cause : value) : Response :=
  createErrorResponse (default (str "Not Found") message)
    HTTP_STATUS.NOT_FOUND cause.

Definition methodNotAllowed (message : option jsstring) (cause : value) : Response :=
  createErrorResponse (default (str "Method Not Allowed") message)
    HTTP_STATUS.METHOD_NOT_ALLOWED cause.

Definition internalServerError (message : option jsstring) (cause : value) : Response :=
  createErrorResponse (default (str "Internal Server Error") message)
    HTTP_STATUS.INTERNAL_SERVER_ERROR cause.

End Host.

End HttpErrors.

(** ** authentication/rbac.ts *)

Module Rbac.

Section Roles.

Context {TRole : Type} `{EqDecision TRole}.

Definition checkRoles (userRole : TRole) (allowedRoles : list TRole) : bool :=
  if (length allowedRoles =? 0)%nat then false
  else bool_decide (userRole ∈ allowedRoles).

Definition hasAnyRole (userRoles requiredRoles : list TRole) : bool :=
  existsb (fun role => bool_decide (role ∈ userRoles)) requiredRoles.

Definition hasAllRoles (userRoles requiredRoles : list TRole) : bool :=
  forallb (fun role => bool_decide (role ∈ userRoles)) requiredRoles.

(** [String(role)] of the host *)
Variable roleToString : TRole -> jsstring.

(** The [TypeError] of calling [includes] on what is no array; its
    message is the engine's. *)
Definition ERR_NOT_A_FUNCTION : Error :=
  mkError (str "impliedRoles.includes is not a function").

(** The checker [createRoleHierarchy] returns, applied to two roles.
    [hierarchy[key]] reads an own property, else what the prototype has
    under the key, which is no array, else [undefined]. *)
Definition createRoleHierarchy (hierarchy : object (list TRole))
    (userRole requiredRole : TRole) : completion Error bool :=
  if bool_decide (userRole = requiredRole) then Return true
  else
    match own hierarchy !! roleToString userRole with
    | Some impliedRoles => Return (bool_decide (requiredRole ∈ impliedRoles))
    | None =>
        if inherited hierarchy (roleToString userRole)
        then Throw ERR_NOT_A_FUNCTION
        else Return false
    end.

End Roles.

End Rbac.

(** ** authentication/authenticator.ts *)

Module Authenticator.
Import HttpErrors Rbac.

(** An optional property that may also hold [null] *)
Inductive slot (A : Type) : Type :=
  | Undefined
  | Null
  | Defined (a : A).
Arguments Undefined {A}.
Arguments Null {A}.
Arguments Defined {A} a.

(** The truth value of an optional boolean property *)
Definition truthy (flag : option bool) : bool :=
  match flag with
  | Some true => true
  | _ => false
  end.

Section Auth.

Context {TRole : Type} `{EqDecision TRole}.

(** The user type of the application and the clients of the data service *)
Variable TUser : Type.
Variable Client : Type.

(** What reading [user.role] gives *)
Variable roleOf : TUser -> slot TRole.

Variable normalizeNFKC : jsstring -> jsstring.

Record AuthOptions : Type := mkAuthOptions {
  allowedMethods : option (list jsstring);
  requireServiceRole : option bool;
  bypassWithServiceRole : option bool;
  bypassWithAnonRole : option bool;
  requireUserAuth : option bool;
  requireRBAC : option bool;
  allowedRoles : option (list TRole)
}.

(** [user] is [None] when the property is absent (or holds a value that
    counts as false): the code only ever tests [result.user] for truth. *)
Record AuthResult : Type := mkAuthResult {
  response : option Response;
  supabaseClient : option Client;
  serviceRoleClient : option Client;
  user : option TUser;
  serviceBypassed : option bool
}.

(** The object literal [{ response }] *)
Definition errorResult (r : Response) : AuthResult :=
  mkAuthResult (Some r) None None None None.

Definition validateAuthResult (result : AuthResult) (options : AuthOptions)
    : AuthResult :=
  if bool_decide (is_Some (response result)) then result
  else if truthy (serviceBypassed result) then result
  else if truthy (requireUserAuth options)
          && negb (bool_decide (is_Some (user result))) then
    errorResult
      (unauthorized normalizeNFKC (Some (str "User authentication required"))
         VUndefined)
  else
    match truthy (requireRBAC options), user result with
    | true, Some u =>
        match roleOf u with
        | Undefined | Null =>
            errorResult
              (forbidden normalizeNFKC (Some (str "User role not found"))
                 VUndefined)
        | Defined userRole =>
            match allowedRoles options with
            | None =>
                errorResult
                  (forbidden normalizeNFKC
                     (Some (str "No roles configured for this route"))
                     VUndefined)
            | Some roles =>
                if (length roles =? 0)%nat then
                  errorResult
                    (forbidden normalizeNFKC
                       (Some (str "No roles configured for this route"))
                       VUndefined)
                else if negb (checkRoles userRole roles) then
                  errorResult
                    (forbidden normalizeNFKC
                       (Some (str "Insufficient permissions")) VUndefined)
                else result
            end
        end
    | _, _ => result
    end.

End Auth.

Arguments mkAuthResult {TUser Client} response supabaseClient
  serviceRoleClient user serviceBypassed.
Arguments response {TUser Client} a.
Arguments supabaseClient {TUser Client} a.
Arguments serviceRoleClient {TUser Client} a.
Arguments user {TUser Client} a.
Arguments serviceBypassed {TUser Client} a.
Arguments errorResult {TUser Client} r.
Arguments validateAuthResult {TRole _ TUser Client} roleOf normalizeNFKC
  result options.

End Authenticator.
(** ** authentication/default-auth.ts *)

Module DefaultAuth.
Import HttpErrors Rbac Authenticator.

(** [s.replace(pattern, replacement)] with a string pattern: the first
    occurrence only *)
Fixpoint replaceFirst (pattern replacement s : jsstring) : jsstring :=
  if startsWith s pattern then replacement ++ drop (length pattern) s
  else
    match s with
    | [] => []
    | c :: t => c :: replaceFirst pattern replacement t
    end.

(** The truth value of an optional string: [undefined] and the empty
    string count as false. *)
Definition present (s : option jsstring) : bool :=
  match s with
  | Some (_ :: _) => true
  | _ => false
  end.

Definition ERR_MISSING (variable : jsstring) : jsstring :=
  str "Supabase configuration missing. Provide " ++ variable
  ++ str " environment variable or custom authHandler.".

Definition SERVICE_ROLE_WARNING : jsstring :=
  str "Service role key used for authentication. This should only be used for internal operations.".

Section Handler.

Context {TRole : Type} `{EqDecision TRole}.
Variable TUser : Type.
Variable Client : Type.
Variable roleOf : TUser -> slot TRole.
Variable normalizeNFKC : jsstring -> jsstring.

(** The service container, as far as the default handler calls it: the
    environment, the client factory, the anonymous client, and the
    identity lookup of a service client.  A call that can throw is given
    by the way it ends.  [getUser] answers the user object the handler
    builds from the data of the lookup, or [None] when the lookup reports
    an error or no user. *)
Record AuthContainer : Type := mkAuthContainer {
  env : jsstring -> option jsstring;
  create : jsstring -> jsstring -> completion thrown Client;
  createWithToken :
    jsstring -> jsstring -> jsstring -> completion thrown Client;
  getOrCreateAnonClient : completion thrown Client;
  getUser : Client -> jsstring -> completion thrown (option TUser)
}.

(** The variables the closure of the handler keeps between requests *)
Record Cache : Type := mkCache {
  cachedServiceClient : option Client;
  cachedServiceUrl : option jsstring;
  cachedServiceKey : option jsstring
}.

Definition emptyCache : Cache := mkCache None None None.

(** What a call of the handler leaves: how its promise settles, the
    variables of the closure, and the warnings it logged *)
Record Outcome : Type := mkOutcome {
  settles : completion thrown (AuthResult TUser Client);
  cache : Cache;
  warnings : list jsstring
}.

Variable container : AuthContainer.

Section Configured.

Variable url serviceKey anonKey : jsstring.

Definition getServiceClient (cached : Cache)
    : completion thrown Client * Cache :=
  match cachedServiceClient cached with
  | Some client =>
      if bool_decide (cachedServiceUrl cached = Some url)
         && bool_decide (cachedServiceKey cached = Some serviceKey)
      then (Return client, cached)
      else
        match create container url serviceKey with
        | Return client' =>
            (Return client', mkCache (Some client') (Some url) (Some serviceKey))
        | Throw e => (Throw e, cached)
        end
  | None =>
      match create container url serviceKey with
      | Return client' =>
          (Return client', mkCache (Some client') (Some url) (Some serviceKey))
      | Throw e => (Throw e, cached)
      end
  end.

(** The RBAC enforcement of the handler: the response it answers with,
    if any *)
Definition enforceRBAC (options : @AuthOptions TRole) (user : TUser)
    : option Response :=
  match truthy (requireRBAC options), allowedRoles options with
  | true, Some roles =>
      match roleOf user with
      | Undefined | Null =>
          Some (forbidden normalizeNFKC (Some (str "User role not found"))
                  VUndefined)
      | Defined userRole =>
          if bool_decide (userRole ∈ roles) then None
          else Some (forbidden normalizeNFKC
                       (Some (str "Insufficient permissions")) VUndefined)
      end
  | _, _ => None
  end.

(** The result that holds the anonymous client of the container, and
    [serviceBypassed] when given *)
Definition withAnonClient (serviceBypassed : option bool)
    : completion thrown (AuthResult TUser Client) :=
  match getOrCreateAnonClient container with
  | Return client =>
      Return (mkAuthResult None (Some client) None None serviceBypassed)
  | Throw e => Throw e
  end.

(** The handler [createDefaultAuthHandler] returns *)
Definition handler (cached : Cache) (req : Request)
    (options : @AuthOptions TRole) : Outcome :=
  let authHeader := headers_get (str "Authorization") (requestHeaders req) in
  let token := replaceFirst (str "Bearer ") [] <$> authHeader in
  if negb (present authHeader) || negb (present token) then
    mkOutcome
      (Return (errorResult
                 (unauthorized normalizeNFKC
                    (Some (str "Authorization header required")) VUndefined)))
      cached []
  else
    let token := default [] token in
    match getServiceClient cached with
    | (Throw e, cached) => mkOutcome (Throw e) cached []
    | (Return serviceClient, cached) =>
        let serviceRole :=
          truthy (requireServiceRole options)
          || truthy (bypassWithServiceRole options) in
        if serviceRole && bool_decide (token = serviceKey) then
          mkOutcome
            (Return (mkAuthResult None (Some serviceClient)
                       (Some serviceClient) None (Some true)))
            cached
            (if truthy (requireServiceRole options)
             then [SERVICE_ROLE_WARNING] else [])
        else if serviceRole && truthy (requireServiceRole options) then
          mkOutcome
            (Return (errorResult
                       (unauthorized normalizeNFKC
                          (Some (str "Service role key required")) VUndefined)))
            cached []
        else if truthy (bypassWithAnonRole options)
                && bool_decide (token = anonKey) then
          mkOutcome (withAnonClient (Some true)) cached []
        else if bool_decide (requireUserAuth options = Some false) then
          mkOutcome (withAnonClient None) cached []
        else
          match getUser container serviceClient token with
          | Throw e => mkOutcome (Throw e) cached []
          | Return None =>
              mkOutcome
                (Return (errorResult
                           (unauthorized normalizeNFKC
                              (Some (str "Invalid or expired token"))
                              VUndefined)))
                cached []
          | Return (Some user) =>
              match enforceRBAC options user with
              | Some response => mkOutcome (Return (errorResult response)) cached []
              | None =>
                  match createWithToken container url anonKey token with
                  | Throw e => mkOutcome (Throw e) cached []
                  | Return userClient =>
                      mkOutcome
                        (Return (mkAuthResult None (Some userClient) None
                                   (Some user) (Some false)))
                        cached []
                  end
              end
          end
    end.

End Configured.

(** [createDefaultAuthHandler]: the handler over the three settings of
    the environment, or the error for the first one that is missing.  The
    closure of a handler it returns starts from [emptyCache]. *)
Definition createDefaultAuthHandler
    : completion Error
        (Cache -> Request -> @AuthOptions TRole -> Outcome) :=
  let url := env container (str "SUPABASE_URL") in
  let serviceKey := env container (str "SUPABASE_SERVICE_ROLE_KEY") in
  let anonKey := env container (str "SUPABASE_ANON_KEY") in
  if negb (present url) then
    Throw (mkError (ERR_MISSING (str "SUPABASE_URL")))
  else if negb (present serviceKey) then
    Throw (mkError (ERR_MISSING (str "SUPABASE_SERVICE_ROLE_KEY")))
  else if negb (present anonKey) then
    Throw (mkError (ERR_MISSING (str "SUPABASE_ANON_KEY")))
  else
    Return (handler (default [] url) (default [] serviceKey)
              (default [] anonKey)).

(** The advice [getOrCreateDefaultAuthHandler] appends to the message *)
Definition HOW_TO_FIX : jsstring :=
  [10; 10]%N ++ str "To fix this:" ++ [10%N]
  ++ str "1. Set SUPABASE_URL and SUPABASE_SERVICE_ROLE_KEY environment variables, OR"
  ++ [10%N]
  ++ str "2. Provide a custom authHandler in router configuration:"
  ++ [10; 10]%N
  ++ str "   const router = defineRouter({" ++ [10%N]
  ++ str "     authHandler: async (req: Request, options: AuthOptions) => {"
  ++ [10%N]
  ++ str "       // Your custom auth logic" ++ [10%N]
  ++ str "       return { user, supabaseClient };" ++ [10%N]
  ++ str "     }," ++ [10%N]
  ++ str "     routes: [...]" ++ [10%N]
  ++ str "   });".

Definition getOrCreateDefaultAuthHandler
    : completion Error
        (Cache -> Request -> @AuthOptions TRole -> Outcome) :=
  match createDefaultAuthHandler with
  | Return handler => Return handler
  | Throw error =>
      Throw (mkError (str "Authentication configuration error: "
                      ++ message error ++ HOW_TO_FIX))
  end.

End Handler.

Arguments mkAuthContainer {TUser Client} env create createWithToken
  getOrCreateAnonClient getUser.
Arguments env {TUser Client} a _.
Arguments create {TUser Client} a _ _.
Arguments createWithToken {TUser Client} a _ _ _.
Arguments getOrCreateAnonClient {TUser Client} a.
Arguments getUser {TUser Client} a _ _.
Arguments mkCache {Client} cachedServiceClient cachedServiceUrl
  cachedServiceKey.
Arguments cachedServiceClient {Client} c.
Arguments cachedServiceUrl {Client} c.
Arguments cachedServiceKey {Client} c.
Arguments emptyCache {Client}.
Arguments mkOutcome {TUser Client} settles cache warnings.
Arguments settles {TUser Client} o.
Arguments cache {TUser Client} o.
Arguments warnings {TUser Client} o.
Arguments getServiceClient {TUser Client} container url serviceKey cached.
Arguments enforceRBAC {TRole _ TUser} roleOf normalizeNFKC options user.
Arguments withAnonClient {TUser Client} container serviceBypassed.
Arguments handler {TRole _ TUser Client} roleOf normalizeNFKC container url
  serviceKey anonKey cached req options.
Arguments createDefaultAuthHandler {TRole _ TUser Client} roleOf
  normalizeNFKC container.
Arguments getOrCreateDefaultAuthHandler {TRole _ TUser Client} roleOf
  normalizeNFKC container.

End DefaultAuth.

(** ** middleware/composer.ts *)

Module Composer.

Section Middleware.

(** The middleware context, and the steps of a middleware that an
    observer can see *)
Variable Ctx : Type.
Variable Event : Type.

(** How a promise of a response settles *)
Inductive settled : Type :=
  | Fulfilled (r : Response)
  | Rejected (e : thrown).

(** The body of an [async] middleware, as the tree of what it does: it
    returns a response, throws, does something observable, or awaits
    [next()] and goes on from the way that promise settled (a [try] around
    the [await] sees the rejection, no [try] passes it on). *)
Inductive program : Type :=
  | Resolve (r : Response)
  | Reject (e : thrown)
  | Act (ev : Event) (k : program)
  | AwaitNext (k : settled -> program).

Definition Middleware : Type := Ctx -> program.

(** A function [() => Promise<Response>], the type of [next]: run from a
    trace of observable steps, it settles and extends the trace. *)
Definition continuation : Type := list Event -> settled * list Event.

(** One call of the composed middleware: the variable [index] of its
    closure, and the trace so far. *)
Record state : Type := mkState {
  index : Z;
  trace : list Event
}.

(** Running a middleware body, [next] being bound to [next_] *)
Fixpoint exec (next_ : state -> settled * state) (p : program) (st : state)
    : settled * state :=
  match p with
  | Resolve r => (Fulfilled r, st)
  | Reject e => (Rejected e, st)
  | Act ev k => exec next_ k (mkState (index st) (trace st ++ [ev]))
  | AwaitNext k =>
      let '(outcome, st') := next_ st in
      exec next_ (k outcome) st'
  end.

Definition NEXT_CALLED_TWICE : thrown :=
  ThrownError (mkError (str "next() called multiple times")).

(** [dispatch(i)], where [rest] holds the middlewares from position [i]
    on: [middlewares[i]] is its head, and past the end the terminal
    continuation [last] is called; [last] takes no parameter, so the two
    arguments passed to it are dropped. *)
Fixpoint dispatch (ctx : Ctx) (last : continuation) (rest : list Middleware)
    (i : Z) (st : state) : settled * state :=
  if (i <=? index st)%Z then (Rejected NEXT_CALLED_TWICE, st)
  else
    let st := mkState i (trace st) in
    match rest with
    | middleware :: rest' =>
        exec (dispatch ctx last rest' (i + 1)) (middleware ctx) st
    | [] =>
        let '(outcome, tr) := last (trace st) in
        (outcome, mkState (index st) tr)
    end.

Definition composeMiddlewares (middlewares : list Middleware)
    : Ctx -> continuation -> continuation :=
  match middlewares with
  | [] => fun _ctx next_ => next_
  | _ :: _ =>
      fun ctx last tr =>
        let '(outcome, st) := dispatch ctx last middlewares 0 (mkState (-1) tr) in
        (outcome, trace st)
  end.

(** [conditionalMiddleware(condition, middleware)] *)
Definition conditionalMiddleware (condition : Ctx -> bool)
    (middleware : Middleware) : Middleware :=
  fun ctx => if condition ctx then middleware ctx
             else AwaitNext (fun outcome =>
                    match outcome with
                    | Fulfilled r => Resolve r
                    | Rejected e => Reject e
                    end).

(** [catchErrors(errorHandler)]: the handler answers with a response or
    throws in its turn. *)
Definition catchErrors (errorHandler : thrown -> Ctx -> completion thrown Response)
    : Middleware :=
  fun ctx =>
    AwaitNext (fun outcome =>
      match outcome with
      | Fulfilled r => Resolve r
      | Rejected error =>
          match errorHandler error ctx with
          | Return r => Resolve r
          | Throw e => Reject e
          end
      end).

End Middleware.

Arguments Resolve {Event} r.
Arguments Reject {Event} e.
Arguments Act {Event} ev k.
Arguments AwaitNext {Event} k.
Arguments mkState {Event} index trace.
Arguments index {Event} s.
Arguments trace {Event} s.
Arguments exec {Event} next_ p st.
Arguments dispatch {Ctx Event} ctx last rest i st.
Arguments composeMiddlewares {Ctx Event} middlewares _ _ _.
Arguments conditionalMiddleware {Ctx Event} condition middleware _.
Arguments catchErrors {Ctx Event} errorHandler _.

End Composer.

(** ** validation/dto-validator.ts *)

Module DtoValidator.
Import Constants.

(** A step of the path of a validation issue: a property name or an
    array index *)
Inductive PathStep : Type :=
  | Key (k : jsstring)
  | Index (i : N).

(** [String(step)] *)
Definition String_ (step : PathStep) : jsstring :=
  match step with
  | Key k => k
  | Index i => Sanitizer.numberToString i
  end.

Record ZodIssue : Type := mkIssue {
  issue_path : list PathStep;
  issue_message : jsstring
}.

(** A schema is the capability to validate: [safeParse] answers the
    parsed data or the issues found. *)
Inductive SafeParseResult : Type :=
  | ParseSuccess (parsed : data)
  | ParseFailure (issues : list ZodIssue).

Definition ZodTypeAny : Type := data -> SafeParseResult.

(** A body schema: one schema, or a mapping from content type to schema,
    as the list of its properties in order. *)
Inductive BodySchema : Type :=
  | SingleSchema (schema : ZodTypeAny)
  | ContentTypeSchemas (contentTypeSchemas : list (jsstring * ZodTypeAny)).

Record ValidationResult : Type := mkValidationResult {
  success : bool;
  data_ : option data;
  errors : option (list (list jsstring * jsstring))
}.

Definition beautifyZodErrors (issues : list ZodIssue)
    : list (list jsstring * jsstring) :=
  map (fun err => (map String_ (issue_path err), issue_message err)) issues.

(** The file-valued properties of a keyed structure *)
Definition extractFileFields (d : data) : gmap jsstring File :=
  match d with
  | Structure o =>
      omap (fun v => match v with DFile f => Some f | DValue _ => None end)
           (own o)
  | Primitive _ => ∅
  end.

(** The files of the input are put back by assignments
    [validatedData[key] = fileValue], each of which writes an own
    property.  The one assignment that does not is outside this model:
    that of the key [__proto__] on an object that inherits from
    [Object.prototype], which calls the accessor and makes the file the
    prototype of the object.  The form data parser drops that key, so the
    pipeline never comes there. *)
Definition validateDTO (d : data) (schema : ZodTypeAny) : ValidationResult :=
  let fileFields := extractFileFields d in
  match schema d with
  | ParseSuccess validatedData =>
      let validatedData :=
        match validatedData with
        | Structure o =>
            if bool_decide (0 < size fileFields)%nat then
              Structure (mkObject (proto o) ((DFile <$> fileFields) ∪ own o))
            else validatedData
        | Primitive _ => validatedData
        end in
      mkValidationResult true (Some validatedData) None
  | ParseFailure issues =>
      mkValidationResult false None (Some (beautifyZodErrors issues))
  end.

Definition ERR_UNSUPPORTED_CONTENT_TYPE (contentType : jsstring) : jsstring :=
  str "Unsupported content type: " ++ contentType.

Section Host.

(** The entries [new URLSearchParams(text)] parses a text to *)
Variable parseUrlEncoded : jsstring -> list (jsstring * jsstring).

(** [result[key] = value] on an object literal: the key [__proto__] is an
    accessor of [Object.prototype], and assigning it a string changes
    nothing. *)
Definition urlencoded_step (result : object datum)
    (entry : jsstring * jsstring) : object datum :=
  let '(key, value) := entry in
  if bool_decide (key = str "__proto__") then result
  else set_property key (DValue (VString value)) result.

Definition parseBodyByContentType (req : Request) (contentType : jsstring)
    : completion Error data :=
  if includes contentType (str "application/json") then json req
  else if includes contentType (str "application/x-www-form-urlencoded") then
    match text req with
    | Throw e => Throw e
    | Return t =>
        Return (Structure
                  (fold_left urlencoded_step (parseUrlEncoded t)
                     (mkObject ObjectPrototype ∅)))
    end
  else if includes contentType (str "multipart/form-data") then
    match formData req with
    | Throw e => Throw e
    | Return fd =>
        match Sanitizer.parseFormDataSafely fd DEFAULT_MAX_FILE_SIZE with
        | Throw e => Throw e
        | Return o =>
            Return (Structure
                      (mkObject (proto o)
                         ((fun v => match v with
                                    | FormString s => DValue (VString s)
                                    | FormFile f => DFile f
                                    end) <$> own o)))
        end
    end
  else if includes contentType (str "text/plain") then
    match text req with
    | Throw e => Throw e
    | Return t => Return (Primitive (VString t))
    end
  else Throw (mkError (ERR_UNSUPPORTED_CONTENT_TYPE contentType)).

Definition JSON_HEADERS : record :=
  [ (str "Content-Type", str "application/json") ].

Definition validationFailed (errors : option (list (list jsstring * jsstring)))
    : Response :=
  newResponse
    (Some (JsonObject
             ((str "error", FString (str "Validation failed")) ::
              match errors with
              | Some issues => [(str "details", FIssues issues)]
              | None => []
              end)))
    HTTP_STATUS.BAD_REQUEST JSON_HEADERS.

Definition unsupportedMediaType : Response :=
  newResponse
    (Some (JsonObject [(str "error", FString (str "Unsupported Media Type"))]))
    HTTP_STATUS.UNSUPPORTED_MEDIA_TYPE JSON_HEADERS.

(** Parsing the body and validating it against [schema] *)
Definition parseThenValidate (req : Request) (contentType : jsstring)
    (schema : ZodTypeAny) : completion thrown data :=
  match parseBodyByContentType req contentType with
  | Throw e => Throw (ThrownError e)
  | Return rawBody =>
      let result := validateDTO rawBody schema in
      if negb (success result) then
        Throw (ThrownResponse (validationFailed (errors result)))
      else
        match data_ result with
        | Some d => Return d
        | None => Return (Primitive VUndefined)
        end
  end.

(** The loop over [Object.entries(contentTypeSchemas)] and the throw that
    follows it *)
Fixpoint parseAndValidateBody_find (req : Request) (contentType : jsstring)
    (entries : list (jsstring * ZodTypeAny)) : completion thrown data :=
  match entries with
  | [] => Throw (ThrownResponse unsupportedMediaType)
  | (supportedType, typeSchema) :: rest =>
      if includes contentType supportedType
      then parseThenValidate req contentType typeSchema
      else parseAndValidateBody_find req contentType rest
  end.

Definition parseAndValidateBody (req : Request) (bodySchema : BodySchema)
    (contentType : jsstring) (supportedContentTypes : option (list jsstring))
    : completion thrown data :=
  match bodySchema with
  | ContentTypeSchemas contentTypeSchemas =>
      parseAndValidateBody_find req contentType contentTypeSchemas
  | SingleSchema schema =>
      let unsupported :=
        match supportedContentTypes with
        | Some types =>
            (0 <? length types)%nat
            && negb (existsb (fun supportedType =>
                                includes contentType supportedType) types)
        | None => false
        end in
      if unsupported then Throw (ThrownResponse unsupportedMediaType)
      else parseThenValidate req contentType schema
  end.

End Host.

End DtoValidator.

(** ** security/cors.ts *)

Module Cors.

Inductive AllowedOrigins : Type :=
  | AnyOrigin
  | Origins (origins : list jsstring).

Record CorsConfig : Type := mkCorsConfig {
  allowedOrigins : AllowedOrigins;
  allowedMethods : option (list jsstring);
  allowedHeaders : option (list jsstring);
  exposedHeaders : option (list jsstring);
  credentials : option bool;
  maxAge : option N
}.

(** A CORS setting is a plain record of headers or a configuration; the
    code tells them apart by the property [allowedOrigins]. *)
Inductive CorsSetting : Type :=
  | PlainHeaders (headers : record)
  | Configured (config : CorsConfig).

Definition flag (b : option bool) : bool :=
  match b with Some true => true | _ => false end.

Definition setWhen {A} (o : option A) (key : jsstring) (f : A -> jsstring)
    (headers : record) : record :=
  match o with
  | Some a => record_set key (f a) headers
  | None => headers
  end.

Definition buildCorsHeaders (origin : option jsstring) (config : CorsSetting)
    : completion Error record :=
  match config with
  | PlainHeaders headers => Return headers
  | Configured config =>
      let originHeaders : completion Error record :=
        match allowedOrigins config with
        | AnyOrigin =>
            if flag (credentials config) then
              Throw (mkError (str "Cannot use wildcard origin with credentials"))
            else Return [(str "Access-Control-Allow-Origin", str "*")]
        | Origins origins =>
            match origin with
            | Some o =>
                if negb (bool_decide (o = [])) && bool_decide (o ∈ origins) then
                  Return
                    ((str "Access-Control-Allow-Origin", o) ::
                     if flag (credentials config)
                     then [(str "Access-Control-Allow-Credentials", str "true")]
                     else [])
                else Return []
            | None => Return []
            end
        end in
      match originHeaders with
      | Throw e => Throw e
      | Return headers =>
          let headers :=
            setWhen (allowedMethods config) (str "Access-Control-Allow-Methods")
              Sanitizer.sanitizeHeaderList headers in
          let headers :=
            setWhen (allowedHeaders config) (str "Access-Control-Allow-Headers")
              Sanitizer.sanitizeHeaderList headers in
          let headers :=
            setWhen (exposedHeaders config) (str "Access-Control-Expose-Headers")
              Sanitizer.sanitizeHeaderList headers in
          let headers :=
            match maxAge config with
            | Some 0%N | None => headers
            | Some age =>
                record_set (str "Access-Control-Max-Age")
                  (Sanitizer.numberToString age) headers
            end in
          Return headers
      end
  end.

(** The loop of [mergeCorsConfigs] over the configurations still to
    merge; [None] is a configuration left out. *)
Fixpoint mergeCorsConfigs_loop (configs : list (option CorsSetting))
    (result : record) : completion Error record :=
  match configs with
  | [] => Return result
  | None :: rest => mergeCorsConfigs_loop rest result
  | Some (PlainHeaders headers) :: rest =>
      mergeCorsConfigs_loop rest (spread result headers)
  | Some (Configured config) :: rest =>
      match buildCorsHeaders None (Configured config) with
      | Throw e => Throw e
      | Return headers => mergeCorsConfigs_loop rest (spread result headers)
      end
  end.

Definition mergeCorsConfigs (configs : list (option CorsSetting))
    : completion Error record :=
  mergeCorsConfigs_loop configs [].

End Cors.

(** ** routing/matcher.ts and the request handler of router.ts *)

Module Router.
Import Constants Cors Authenticator DtoValidator Composer.

Section Router.

Context {TRole : Type} `{EqDecision TRole}.

(** The types of the application: users, clients of the data service,
    database clients, and the observable steps of its middlewares *)
Variable TUser : Type.
Variable Client : Type.
Variable Db : Type.
Variable Event : Type.
Variable roleOf : TUser -> slot TRole.

(** The host: NFKC normalisation, [decodeURIComponent], the parser of
    [URLSearchParams], [String(value)], the error [JSON.stringify] throws
    for a value it cannot serialise (a cyclic object, say), if any, the
    error [new Response(body, { status })] throws for a body and a status
    it does not take (a [RangeError] for the status, a [TypeError] for a
    body with a status that admits none), if any, the [TypeError] that
    [set] throws on immutable headers, and regular expressions with
    [exec], which answers the capture groups of a match. *)
Variable normalizeNFKC : jsstring -> jsstring.
Variable decodeURIComponent : jsstring -> option jsstring.
Variable parseUrlEncoded : jsstring -> list (jsstring * jsstring).
Variable valueToString : value -> jsstring.
Variable stringifyError : value -> option Error.
Variable responseError : option payload -> N -> option Error.
Variable headersImmutable : Error.
Variable RegExp : Type.
Variable regexExec : RegExp -> jsstring -> option (list jsstring).

(** [schema.parse(input)]; [None] when it throws a validation error. *)
Definition ZodParser (A B : Type) : Type := A -> option B.

Record RequestSchema : Type := mkRequestSchema {
  schema_params : option (ZodParser record unit);
  schema_query : option (ZodParser (object jsstring) (object value));
  schema_body : option BodySchema
}.

(** The context a handler and the middlewares receive.  The service
    container and the error throwers that a handler also receives are
    left out: the handler is given by what it answers. *)
Record Context : Type := mkContext {
  ctx_req : Request;
  ctx_requestId : jsstring;
  ctx_params : record;
  ctx_query : object value;
  ctx_body : option data;
  ctx_db : option Db;
  ctx_user : option TUser;
  ctx_supabaseClient : option Client;
  ctx_serviceRoleClient : option Client
}.

(** What a route handler returns: a response, or a value to serialise *)
Inductive HandlerResult : Type :=
  | ResultResponse (r : Response)
  | ResultValue (v : value).

Record CompiledRoute : Type := mkRoute {
  method : jsstring;
  regex : RegExp;
  params : list jsstring;
  corsHeaders : option CorsSetting;
  requestSchema : option RequestSchema;
  disableDTOValidation : option bool;
  supportedContentTypes : option (list jsstring);
  useDatabase : option bool;
  authRequired : option bool;
  authentication : option (@AuthOptions TRole);
  allowedRoles : option (list TRole);
  middlewares : option (list (Middleware Context Event));
  successResponseCode : option N;
  handler : Context -> completion thrown HandlerResult
}.

Record CompiledRoutesData : Type := mkRoutes {
  routes : list CompiledRoute;
  routesByMethod : gmap jsstring (list CompiledRoute)
}.

(** The two shapes [matchRoute] and [findMatchingRoutes] accept *)
Inductive RoutesInput : Type :=
  | LegacyArray (routes : list CompiledRoute)
  | Indexed (data : CompiledRoutesData).

Definition OPTIONS : jsstring := str "OPTIONS".

Definition findMatchingRoutes (pathname : jsstring) (data : RoutesInput)
    : list CompiledRoute :=
  let routes := match data with
                | LegacyArray routes => routes
                | Indexed data => routes data
                end in
  List.filter (fun route => bool_decide (is_Some (regexExec (regex route) pathname)))
    routes.

(** [Array.from(new Set(items))]: the items without repetition, in the
    order of their first occurrence *)
Definition distinct (items : list jsstring) : list jsstring :=
  fold_left (fun seen item => if bool_decide (item ∈ seen) then seen
                              else seen ++ [item]) items [].

Definition getAllowedMethods (pathname : jsstring) (data : RoutesInput)
    : list jsstring :=
  let methods := distinct (map method (findMatchingRoutes pathname data)) in
  if (0 <? length methods)%nat then distinct (methods ++ [OPTIONS])
  else methods.

(** [params[name] = value] on an object literal: the name [__proto__] is
    an accessor, and assigning it a string changes nothing. *)
Definition setParam (name value : jsstring) (params : record) : record :=
  if bool_decide (name = str "__proto__") then params
  else record_set name value params.

(** The parameters of a match: capture [index + 1] decoded, or raw when
    decoding throws; a capture that is missing reads as [undefined]. *)
Definition extractParams (names : list jsstring) (captures : list jsstring)
    : record :=
  fold_left
    (fun params '(index, name) =>
       let raw := default (str "undefined") (captures !! index) in
       match decodeURIComponent raw with
       | Some decoded => setParam name decoded params
       | None => setParam name raw params
       end)
    (imap (fun index name => (index, name)) names) [].

Fixpoint matchRoute_loop (requestMethod pathname : jsstring)
    (routesToSearch : list CompiledRoute) : option (CompiledRoute * record) :=
  match routesToSearch with
  | [] => None
  | route :: rest =>
      if negb (bool_decide (method route = requestMethod))
         && negb (bool_decide (requestMethod = OPTIONS))
      then matchRoute_loop requestMethod pathname rest
      else
        match regexExec (regex route) pathname with
        | None => matchRoute_loop requestMethod pathname rest
        | Some captures => Some (route, extractParams (params route) captures)
        end
  end.

Definition matchRoute (requestMethod pathname : jsstring) (data : RoutesInput)
    : option (CompiledRoute * record) :=
  let routesToSearch :=
    match data with
    | LegacyArray routes => routes
    | Indexed data =>
        if bool_decide (requestMethod = OPTIONS) then routes data
        else default [] (routesByMethod data !! requestMethod)
    end in
  matchRoute_loop requestMethod pathname routesToSearch.

(** The service container, as far as the handler calls it.  A call that
    can throw is given by the way it ends: [generateId] is the call
    [idGenerator.generate()], [logError] a call of [logger.error];
    [getOrCreateDbClient] is [None] when the container has no such
    function. *)
Record ServiceContainer : Type := mkContainer {
  generateId : completion thrown jsstring;
  logError : completion thrown unit;
  getOrCreateAnonClient : completion thrown Client;
  getOrCreateDbClient : option (completion thrown Db)
}.

Definition AuthHandler : Type :=
  Request -> @AuthOptions TRole -> completion thrown (AuthResult TUser Client).

(** The router configuration, as far as the handler reads it;
    [getAuthHandler] is the configured or the default handler, or the
    error its construction throws. *)
Record RouterConfig : Type := mkConfig {
  globalMiddlewares : option (list (Middleware Context Event));
  getAuthHandler : completion thrown AuthHandler;
  container : ServiceContainer
}.

Variable config : RouterConfig.
Variable compiledRoutes : CompiledRoutesData.

(** Leaving the handler early with a response *)
Definition early (A : Type) : Type := completion Response A.

(** How a stage of the handler ends: the handler goes on, it returns a
    response, or something is thrown outside every [try], and the promise
    of the handler rejects. *)
Inductive stage (A : Type) : Type :=
  | Continue (a : A)
  | Answer (r : Response)
  | Fail (e : thrown).
Arguments Continue {A} a.
Arguments Answer {A} r.
Arguments Fail {A} e.

Definition defaultCorsOf (allowedMethods : list jsstring) : record :=
  [ (str "Access-Control-Allow-Origin", str "*");
    (str "Access-Control-Allow-Methods", join (str ", ") allowedMethods);
    (str "Access-Control-Allow-Headers",
     str "authorization, x-client-info, apikey, content-type");
    (str "Access-Control-Max-Age", str "86400") ].

(** The header initialiser that spreads the CORS headers and then names
    the JSON content type *)
Definition jsonHeaders (corsHeaders : record) : record :=
  record_set (str "Content-Type") (str "application/json") corsHeaders.

(** An inline error response: the object literal [fields] serialised,
    with [status] and the JSON headers *)
Definition errorResponse (fields : list (jsstring * field)) (status : N)
    (corsHeaders : record) : Response :=
  newResponse (Some (JsonObject fields)) status (jsonHeaders corsHeaders).

Definition notFoundResponse (defaultCors : record) : Response :=
  newResponse (Some (JsonObject [(str "error", FString (str "Not Found"))]))
    HTTP_STATUS.NOT_FOUND defaultCors.

(** [error instanceof Error ? error.message : fallback] *)
Definition messageOr (fallback : thrown -> jsstring) (error : thrown) : jsstring :=
  match error with
  | ThrownError e => message e
  | _ => fallback error
  end.

(** [String(error)] of a thrown value that is no [Error] *)
Definition thrownToString (error : thrown) : jsstring :=
  match error with
  | ThrownError e => str "Error: " ++ message e
  | ThrownResponse _ => str "[object Response]"
  | ThrownValue v => valueToString v
  end.

(** Sanitize path parameters *)
Fixpoint sanitizeParams_loop (entries : record) (sanitizedParams : record)
    : completion Error record :=
  match entries with
  | [] => Return sanitizedParams
  | (key, value) :: rest =>
      match Sanitizer.sanitizePathParam decodeURIComponent value with
      | Throw e => Throw e
      | Return sanitized =>
          sanitizeParams_loop rest (setParam key sanitized sanitizedParams)
      end
  end.

Definition sanitizeParams (corsHeaders : record) (params : record)
    : early record :=
  match sanitizeParams_loop params [] with
  | Return sanitizedParams => Return sanitizedParams
  | Throw e =>
      Throw (errorResponse
               [(str "error",
                 FString (Sanitizer.sanitizeErrorMessage normalizeNFKC
                            (VString (message e))))]
               HTTP_STATUS.BAD_REQUEST corsHeaders)
  end.

Definition validationOn (route : CompiledRoute) : bool :=
  negb (Cors.flag (disableDTOValidation route)).

(** Parse query parameters safely, and validate them *)
Definition validateQuery (route : CompiledRoute) (corsHeaders : record)
    (req : Request) : early (object value) :=
  let query := Sanitizer.parseQuerySafely (searchParams req) in
  let spreadQuery := mkObject ObjectPrototype (VString <$> own query) in
  match validationOn route, requestSchema route ≫= schema_query with
  | true, Some schema =>
      match schema query with
      | Some parsed => Return (mkObject NullPrototype (own parsed))
      | None =>
          Throw (errorResponse
                   [(str "error", FString (str "Query validation failed"));
                    (str "details", FValue VObject)]
                   HTTP_STATUS.BAD_REQUEST corsHeaders)
      end
  | _, _ => Return spreadQuery
  end.

(** Validate params schema *)
Definition validateParams (route : CompiledRoute) (corsHeaders : record)
    (sanitizedParams : record) : early unit :=
  match validationOn route, requestSchema route ≫= schema_params with
  | true, Some schema =>
      match schema sanitizedParams with
      | Some _ => Return tt
      | None =>
          Throw (errorResponse
                   [(str "error", FString (str "Path parameter validation failed"));
                    (str "details", FValue VObject)]
                   HTTP_STATUS.BAD_REQUEST corsHeaders)
      end
  | _, _ => Return tt
  end.

(** Parse and validate body; [None] is the body left [undefined].  The
    CORS headers are set on a thrown response inside the [catch] block:
    what that throws rejects the promise of the handler. *)
Definition parseBody (route : CompiledRoute) (corsHeaders : record)
    (req : Request) : stage (option data) :=
  let contentType :=
    default (str "application/json")
      (headers_get (str "content-type") (requestHeaders req)) in
  match requestSchema route ≫= schema_body, validationOn route with
  | Some bodySchema, true =>
      match parseAndValidateBody parseUrlEncoded req bodySchema contentType
              (supportedContentTypes route) with
      | Return body => Continue (Some body)
      | Throw (ThrownResponse error) =>
          match setHeaders headersImmutable corsHeaders error with
          | Return r => Answer r
          | Throw e => Fail (ThrownError e)
          end
      | Throw _ =>
          Answer (errorResponse
                    [(str "error", FString (str "Body validation failed"))]
                    HTTP_STATUS.BAD_REQUEST corsHeaders)
      end
  | _, _ => Continue None
  end.

(** The database client of a route that asks for one.  A failure is
    logged inside the [catch] block before the response is built: what
    the logger throws rejects the promise of the handler. *)
Definition acquireDb (route : CompiledRoute) (corsHeaders : record)
    : stage (option Db) :=
  if Cors.flag (useDatabase route) then
    match getOrCreateDbClient (container config) with
    | None =>
        Answer (errorResponse
                  [(str "error", FString (str "Database configuration error"));
                   (str "message",
                    FString (str "Route requires database access but no transaction pooler client is configured."))]
                  HTTP_STATUS.INTERNAL_SERVER_ERROR corsHeaders)
    | Some (Return dbClient) => Continue (Some dbClient)
    | Some (Throw error) =>
        match logError (container config) with
        | Throw e => Fail e
        | Return _ =>
            Answer (errorResponse
                      [(str "error", FString (str "Database connection error"));
                       (str "message",
                        FString (Sanitizer.sanitizeErrorMessage normalizeNFKC
                                   (VString (messageOr thrownToString error))))]
                      HTTP_STATUS.INTERNAL_SERVER_ERROR corsHeaders)
        end
    end
  else Continue None.

(** The identity and clients a request is handled with *)
Record AuthContext : Type := mkAuthContext {
  auth_user : option TUser;
  auth_supabaseClient : option Client;
  auth_serviceRoleClient : option Client
}.

(** The authentication options of a route: its own, the allowed methods
    defaulting to the method of the route, and the shorthand
    [allowedRoles] of the route turning RBAC on. *)
Definition authOptionsOf (route : CompiledRoute) : @AuthOptions TRole :=
  let own := default (mkAuthOptions None None None None None None None)
               (authentication route) in
  let methods :=
    match Authenticator.allowedMethods own with
    | Some methods => methods
    | None => [method route]
    end in
  match allowedRoles route with
  | Some roles =>
      mkAuthOptions (Some methods) (requireServiceRole own)
        (bypassWithServiceRole own) (bypassWithAnonRole own)
        (requireUserAuth own) (Some true) (Some roles)
  | None =>
      mkAuthOptions (Some methods) (requireServiceRole own)
        (bypassWithServiceRole own) (bypassWithAnonRole own)
        (requireUserAuth own) (requireRBAC own) (Authenticator.allowedRoles own)
  end.

Definition authConfigurationError (corsHeaders : record) (error : thrown)
    : Response :=
  errorResponse
    [(str "error", FString (str "Authentication configuration error"));
     (str "message", FString (messageOr thrownToString error))]
    HTTP_STATUS.INTERNAL_SERVER_ERROR corsHeaders.

Definition methodNotAllowedResponse (corsHeaders : record)
    (normalizedAllowedMethods : list jsstring) : Response :=
  newResponse
    (Some (JsonObject [(str "error", FString (str "Method Not Allowed"))]))
    HTTP_STATUS.METHOD_NOT_ALLOWED
    (record_set (str "Content-Type") (str "application/json")
       (record_set (str "Allow") (join (str ", ") normalizedAllowedMethods)
          corsHeaders)).

(** Authentication.  All of it runs inside one [try]: whatever is thrown
    there, by the construction of the handler, by the handler, or by
    setting the CORS headers on the response of the result, is answered
    as a configuration error. *)
Definition authenticate (route : CompiledRoute) (corsHeaders : record)
    (req : Request) : early AuthContext :=
  if negb (Cors.flag (authRequired route)) then
    match getOrCreateAnonClient (container config) with
    | Return client => Return (mkAuthContext None (Some client) None)
    | Throw _ => Return (mkAuthContext None None None)
    end
  else
    match getAuthHandler config with
    | Throw error => Throw (authConfigurationError corsHeaders error)
    | Return authHandler =>
        let authOptions := authOptionsOf route in
        let normalizedAllowedMethods :=
          map toUpperCase
            (default [] (Authenticator.allowedMethods authOptions)) in
        if negb (bool_decide (Http.method req = OPTIONS))
           && (0 <? length normalizedAllowedMethods)%nat
           && negb (bool_decide (toUpperCase (Http.method req)
                                 ∈ normalizedAllowedMethods))
        then
          Throw (methodNotAllowedResponse corsHeaders normalizedAllowedMethods)
        else
          match authHandler req authOptions with
          | Throw error => Throw (authConfigurationError corsHeaders error)
          | Return authResult =>
              let validated :=
                validateAuthResult roleOf normalizeNFKC authResult authOptions in
              match response validated with
              | Some r =>
                  match setHeaders headersImmutable corsHeaders r with
                  | Return r' => Throw r'
                  | Throw e =>
                      Throw (authConfigurationError corsHeaders (ThrownError e))
                  end
              | None =>
                  Return (mkAuthContext (user validated)
                            (supabaseClient validated)
                            (serviceRoleClient validated))
              end
          end
    end.

(** The [catch] block of the core handler execution: a thrown response
    is returned with the CORS headers set, and what setting them throws
    is thrown on; anything else is answered with status 500. *)
Definition handlerError (corsHeaders : record) (error : thrown)
    : completion thrown Response :=
  match error with
  | ThrownResponse error =>
      match setHeaders headersImmutable corsHeaders error with
      | Return r => Return r
      | Throw e => Throw (ThrownError e)
      end
  | _ =>
      Return
        (errorResponse
           [(str "error",
             FString (Sanitizer.sanitizeErrorMessage normalizeNFKC
                        (VString (messageOr (fun _ => str "Internal server error")
                                    error))))]
           HTTP_STATUS.INTERNAL_SERVER_ERROR corsHeaders)
  end.

(** Core handler execution.  What the [try] block throws, the route
    handler, setting the CORS headers on the response it returned,
    [JSON.stringify] or the [Response] constructor, goes to the [catch]
    block. *)
Definition executeHandler (route : CompiledRoute) (corsHeaders : record)
    (context : Context) : completion thrown Response :=
  match handler route context with
  | Return (ResultResponse result) =>
      match setHeaders headersImmutable corsHeaders result with
      | Return r => Return r
      | Throw e => handlerError corsHeaders (ThrownError e)
      end
  | Return (ResultValue result) =>
      match stringifyError result with
      | Some e => handlerError corsHeaders (ThrownError e)
      | None =>
          let body := match result with
                      | VUndefined => None
                      | _ => Some (JsonValue result)
                      end in
          let status := default 200%N (successResponseCode route) in
          match responseError body status with
          | Some e => handlerError corsHeaders (ThrownError e)
          | None => Return (newResponse body status (jsonHeaders corsHeaders))
          end
      end
  | Throw error => handlerError corsHeaders error
  end.

(** The CORS headers of a matched route *)
Definition corsHeadersOf (route : CompiledRoute) (req : Request)
    (defaultCors : record) : completion Error record :=
  match corsHeaders route with
  | Some setting =>
      buildCorsHeaders (headers_get (str "origin") (requestHeaders req)) setting
  | None => Return defaultCors
  end.

(** The stages of a matched request up to the context.  The request
    identifier is generated outside every [try]. *)
Definition buildContext (route : CompiledRoute) (params : record)
    (corsHeaders : record) (req : Request) : stage Context :=
  match generateId (container config) with
  | Throw e => Fail e
  | Return requestId =>
  match sanitizeParams corsHeaders params with
  | Throw r => Answer r
  | Return sanitizedParams =>
  match validateQuery route corsHeaders req with
  | Throw r => Answer r
  | Return validatedQuery =>
  match validateParams route corsHeaders sanitizedParams with
  | Throw r => Answer r
  | Return _ =>
  match parseBody route corsHeaders req with
  | Fail e => Fail e
  | Answer r => Answer r
  | Continue body =>
  match acquireDb route corsHeaders with
  | Fail e => Fail e
  | Answer r => Answer r
  | Continue dbClient =>
  match authenticate route corsHeaders req with
  | Throw r => Answer r
  | Return authContext =>
      Continue (mkContext req requestId sanitizedParams validatedQuery body
                  dbClient (auth_user authContext)
                  (auth_supabaseClient authContext)
                  (auth_serviceRoleClient authContext))
  end end end end end end end.

(** How a promise of a response settles when the function returns or
    throws *)
Definition settle (outcome : completion thrown Response) : settled :=
  match outcome with
  | Return r => Fulfilled r
  | Throw e => Rejected e
  end.

(** The main request handler, [handler] in [defineRouter]: how its
    promise settles, and the trace of the middlewares it ran *)
Definition requestHandler (req : Request) : settled * list Event :=
  let matchResult :=
    matchRoute (Http.method req) (pathname req) (Indexed compiledRoutes) in
  let allowedMethods :=
    getAllowedMethods (pathname req) (Indexed compiledRoutes) in
  let defaultCors := defaultCorsOf allowedMethods in
  if bool_decide (Http.method req = OPTIONS) then
    if (length allowedMethods =? 0)%nat then
      (Fulfilled (notFoundResponse defaultCors), [])
    else
      let built :=
        match matchResult with
        | Some (route, _) => corsHeadersOf route req defaultCors
        | None => Return defaultCors
        end in
      match built with
      | Throw e => (Rejected (ThrownError e), [])
      | Return corsHeaders =>
          match mergeCorsConfigs [ Some (PlainHeaders defaultCors);
                                   Some (PlainHeaders corsHeaders) ] with
          | Throw e => (Rejected (ThrownError e), [])
          | Return merged =>
              (Fulfilled (newResponse None HTTP_STATUS.NO_CONTENT merged), [])
          end
      end
  else
    match matchResult with
    | None => (Fulfilled (notFoundResponse defaultCors), [])
    | Some (route, params) =>
        match corsHeadersOf route req defaultCors with
        | Throw e => (Rejected (ThrownError e), [])
        | Return corsHeaders =>
            match buildContext route params corsHeaders req with
            | Fail e => (Rejected e, [])
            | Answer r => (Fulfilled r, [])
            | Continue context =>
                let routeMiddlewares :=
                  composeMiddlewares (default [] (middlewares route)) in
                let globalMiddlewares :=
                  composeMiddlewares (default [] (globalMiddlewares config)) in
                globalMiddlewares context
                  (routeMiddlewares context
                     (fun tr =>
                        (settle (executeHandler route corsHeaders context),
                         tr)))
                  []
            end
        end
    end.

End Router.

Arguments mkContext {TUser Client Db} ctx_req ctx_requestId ctx_params
  ctx_query ctx_body ctx_db ctx_user ctx_supabaseClient ctx_serviceRoleClient.
Arguments mkRoute {TRole TUser Client Db Event RegExp} method regex params
  corsHeaders requestSchema disableDTOValidation supportedContentTypes
  useDatabase authRequired authentication allowedRoles middlewares
  successResponseCode handler.
Arguments method {TRole TUser Client Db Event RegExp} c.
Arguments regex {TRole TUser Client Db Event RegExp} c.
Arguments params {TRole TUser Client Db Event RegExp} c.
Arguments corsHeaders {TRole TUser Client Db Event RegExp} c.
Arguments requestSchema {TRole TUser Client Db Event RegExp} c.
Arguments disableDTOValidation {TRole TUser Client Db Event RegExp} c.
Arguments supportedContentTypes {TRole TUser Client Db Event RegExp} c.
Arguments useDatabase {TRole TUser Client Db Event RegExp} c.
Arguments authRequired {TRole TUser Client Db Event RegExp} c.
Arguments authentication {TRole TUser Client Db Event RegExp} c.
Arguments allowedRoles {TRole TUser Client Db Event RegExp} c.
Arguments middlewares {TRole TUser Client Db Event RegExp} c.
Arguments successResponseCode {TRole TUser Client Db Event RegExp} c.
Arguments handler {TRole TUser Client Db Event RegExp} c _.
Arguments mkRoutes {TRole TUser Client Db Event RegExp} routes routesByMethod.
Arguments routes {TRole TUser Client Db Event RegExp} c.
Arguments routesByMethod {TRole TUser Client Db Event RegExp} c.
Arguments LegacyArray {TRole TUser Client Db Event RegExp} routes.
Arguments Indexed {TRole TUser Client Db Event RegExp} data.
Arguments mkContainer {Client Db} generateId logError getOrCreateAnonClient
  getOrCreateDbClient.
Arguments generateId {Client Db} s.
Arguments logError {Client Db} s.
Arguments getOrCreateAnonClient {Client Db} s.
Arguments getOrCreateDbClient {Client Db} s.
Arguments mkConfig {TRole TUser Client Db Event} globalMiddlewares
  getAuthHandler container.
Arguments globalMiddlewares {TRole TUser Client Db Event} r.
Arguments getAuthHandler {TRole TUser Client Db Event} r.
Arguments container {TRole TUser Client Db Event} r.
Arguments Continue {A} a.
Arguments Answer {A} r.
Arguments Fail {A} e.
Arguments mkAuthContext {TUser Client} auth_user auth_supabaseClient
  auth_serviceRoleClient.
Arguments findMatchingRoutes {TRole TUser Client Db Event RegExp} regexExec
  pathname data.
Arguments getAllowedMethods {TRole TUser Client Db Event RegExp} regexExec
  pathname data.
Arguments matchRoute_loop {TRole TUser Client Db Event} decodeURIComponent
  {RegExp} regexExec requestMethod pathname routesToSearch.
Arguments matchRoute {TRole TUser Client Db Event} decodeURIComponent {RegExp}
  regexExec requestMethod pathname data.
Arguments validationOn {TRole TUser Client Db Event RegExp} route.
Arguments validateQuery {TRole TUser Client Db Event RegExp} route corsHeaders
  req.
Arguments validateParams {TRole TUser Client Db Event RegExp} route
  corsHeaders sanitizedParams.
Arguments parseBody {TRole TUser Client Db Event} parseUrlEncoded
  headersImmutable {RegExp} route corsHeaders req.
Arguments acquireDb {TRole TUser Client Db Event} normalizeNFKC valueToString
  {RegExp} config route corsHeaders.
Arguments authOptionsOf {TRole TUser Client Db Event RegExp} route.
Arguments authenticate {TRole _ TUser Client Db Event} roleOf normalizeNFKC
  valueToString headersImmutable {RegExp} config route corsHeaders req.
Arguments executeHandler {TRole TUser Client Db Event} normalizeNFKC
  stringifyError responseError headersImmutable {RegExp} route corsHeaders
  context.
Arguments corsHeadersOf {TRole TUser Client Db Event RegExp} route req
  defaultCors.
Arguments buildContext {TRole _ TUser Client Db Event} roleOf normalizeNFKC
  decodeURIComponent parseUrlEncoded valueToString headersImmutable {RegExp}
  config route params corsHeaders req.
Arguments requestHandler {TRole _ TUser Client Db Event} roleOf normalizeNFKC
  decodeURIComponent parseUrlEncoded valueToString stringifyError
  responseError headersImmutable {RegExp} regexExec config compiledRoutes req.

End Router.
(** ** routing/compiler.ts: compileRoutes *)

Module RouteCompiler.
Import Constants ParamsValidator Compiler Composer Cors Authenticator
  Sanitizer Router.

Section RouteCompiler.

Context {TRole TUser Client Db Event RegExp : Type}.

Variable newRegExp : jsstring -> option RegExp.

(** A route definition: what a compiled route holds apart from [regex]
    and [params], with the path of the route *)
Record RouteDef : Type := mkRouteDef {
  def_method : jsstring;
  def_fullPath : jsstring;
  def_corsHeaders : option CorsSetting;
  def_requestSchema : option RequestSchema;
  def_disableDTOValidation : option bool;
  def_supportedContentTypes : option (list jsstring);
  def_useDatabase : option bool;
  def_authRequired : option bool;
  def_authentication : option (@AuthOptions TRole);
  def_allowedRoles : option (list TRole);
  def_middlewares :
    option (list (Middleware (Context TUser Client Db) Event));
  def_successResponseCode : option N;
  def_handler : Context TUser Client Db -> completion thrown HandlerResult
}.

(** [basePath.replace(/\/$/, '')]: without its last code unit when that
    is a slash *)
Fixpoint removeTrailingSlash (basePath : jsstring) : jsstring :=
  match basePath with
  | [] => []
  | c :: t =>
      match t with
      | [] => if (c =? SLASH)%N then [] else [c]
      | _ :: _ => c :: removeTrailingSlash t
      end
  end.

Definition fullPathOf (basePath : jsstring) (route : RouteDef) : jsstring :=
  removeTrailingSlash basePath ++ def_fullPath route.

(** The object literal that spreads the definition and sets [fullPath],
    [regex] and [params] *)
Definition compiled (route : RouteDef) (regex : RegExp)
    (params : list jsstring)
    : @CompiledRoute TRole TUser Client Db Event RegExp :=
  mkRoute (def_method route) regex params (def_corsHeaders route)
    (def_requestSchema route) (def_disableDTOValidation route)
    (def_supportedContentTypes route) (def_useDatabase route)
    (def_authRequired route) (def_authentication route)
    (def_allowedRoles route) (def_middlewares route)
    (def_successResponseCode route) (def_handler route).

(** [routes.map(...)]: the routes compiled in order, up to the first one
    whose compilation throws *)
Fixpoint compileRoutes_map (basePath : jsstring) (routes : list RouteDef)
    : completion CompileError
        (list (@CompiledRoute TRole TUser Client Db Event RegExp)) :=
  match routes with
  | [] => Return []
  | route :: rest =>
      match compileRoute RegExp newRegExp (fullPathOf basePath route) with
      | Throw e => Throw e
      | Return (regex, params) =>
          match compileRoutes_map basePath rest with
          | Throw e => Throw e
          | Return compiledRoutes =>
              Return (compiled route regex params :: compiledRoutes)
          end
      end
  end.

(** The loop that fills the [Map] from methods to routes *)
Definition indexByMethod_step
    (routesByMethod : gmap jsstring
                        (list (@CompiledRoute TRole TUser Client Db Event RegExp)))
    (route : CompiledRoute TUser Client Db Event RegExp)
    : gmap jsstring (list (@CompiledRoute TRole TUser Client Db Event RegExp)) :=
  let routesByMethod :=
    if bool_decide (is_Some (routesByMethod !! method route))
    then routesByMethod
    else <[ method route := [] ]> routesByMethod in
  <[ method route :=
       default [] (routesByMethod !! method route) ++ [route] ]>
    routesByMethod.

Definition indexByMethod
    (compiledRoutes : list (@CompiledRoute TRole TUser Client Db Event RegExp))
    : gmap jsstring (list (@CompiledRoute TRole TUser Client Db Event RegExp)) :=
  fold_left indexByMethod_step compiledRoutes ∅.

Definition compileRoutes (basePath : jsstring) (routes : list RouteDef)
    : completion CompileError
        (@CompiledRoutesData TRole TUser Client Db Event RegExp) :=
  match compileRoutes_map basePath routes with
  | Throw e => Throw e
  | Return compiledRoutes =>
      Return (mkRoutes compiledRoutes (indexByMethod compiledRoutes))
  end.

End RouteCompiler.

Arguments RouteDef : clear implicits.
Arguments mkRouteDef {TRole TUser Client Db Event} def_method def_fullPath
  def_corsHeaders def_requestSchema def_disableDTOValidation
  def_supportedContentTypes def_useDatabase def_authRequired
  def_authentication def_allowedRoles def_middlewares
  def_successResponseCode def_handler.

End RouteCompiler.

(** * The vocabulary of the specification

    The conditions and shapes the specification names, written once so
    that the properties below can state them, and the sample requests and
    routers the properties are tried on. *)

Module SanitizerSpec.
Import Constants Sanitizer.

(** What the decoded value of a path parameter must not be *)
Definition unsafe_decoded (decoded : jsstring) : Prop :=
  (MAX_PATH_PARAM_LENGTH < length decoded)%nat
  \/ contains decoded (str "..")
  \/ contains decoded (str "/")
  \/ contains decoded BACKSLASH
  \/ contains decoded NUL.

(** What makes [sanitizePathParam] fail, in the words of the
    specification *)
Definition unsafe_path_param
    (decodeURIComponent : jsstring -> option jsstring) (value : jsstring)
    : Prop :=
  (MAX_PATH_PARAM_LENGTH < length value)%nat
  \/ contains_ci value (str "%2e%2e")
  \/ contains_ci value (str "%2f")
  \/ contains_ci value (str "%5c")
  \/ decodeURIComponent value = None
  \/ exists decoded,
       decodeURIComponent value = Some decoded /\ unsafe_decoded decoded.

(** The query keys the specification excludes *)
Definition excluded_key (key : jsstring) : Prop :=
  key ∈ DANGEROUS_QUERY_KEYS
  \/ contains key (str "[")
  \/ contains key (str "]")
  \/ exists rest, key = str "_" ++ rest.

(** The value of the first entry whose key is [key] *)
Definition first_value (searchParams : URLSearchParams) (key : jsstring)
    : option jsstring :=
  snd <$> List.find (fun entry => bool_decide (fst entry = key)) searchParams.

(** The three tests of the callback of [parseQuerySafely], together *)
Definition blocked (key : jsstring) : bool :=
  bool_decide (key ∈ DANGEROUS_QUERY_KEYS_SET)
  || (includes key (str "[") || includes key (str "]"))
  || startsWith key (str "_").

(** The entries of the query string [__proto__=x&a=1&a=2] *)
Definition example_query : URLSearchParams :=
  [ (str "__proto__", str "x"); (str "a", str "1"); (str "a", str "2") ].

(** Neither [<] nor [>], nor a double or single quote *)
Definition html_inert (c : N) : Prop :=
  c <> LT /\ c <> GT /\ c <> DQUOTE /\ c <> SQUOTE.

(** [typeof v === "string"] *)
Definition is_string (v : value) : bool :=
  match v with VString _ => true | _ => false end.

End SanitizerSpec.

Module RoutingSpec.
Import Constants ParamsValidator.

(** What makes a path pattern unsafe, in the words of the specification *)
Definition unsafe_pattern (path : jsstring) : Prop :=
  contains path (str "..")
  \/ contains_ci path (str "%2e%2e")
  \/ contains path [0%N].

(** The capture groups among the pieces of a scanned path *)
Definition names (pieces : list piece) : list jsstring :=
  omap (fun p => match p with ParamMatch name => Some name | Text _ => None end)
       pieces.

(** Inside a match the scan holds either nothing yet, in front of a first
    character of a name, or a well-formed name. *)
Definition scan_state_ok (current : option jsstring) (path : jsstring) : Prop :=
  match current with
  | None => True
  | Some name =>
      (name = [] /\ exists d t, path = d :: t /\ PATH_PARAM_NAME_FIRST d = true)
      \/ isValidParamName name = true
  end.

End RoutingSpec.

Module AuthSpec.
Import Authenticator.

(** A role is missing when the property is absent or [null]. *)
Definition role_missing {TRole TUser : Type} (roleOf : TUser -> slot TRole)
    (u : TUser) : bool :=
  match roleOf u with
  | Defined _ => false
  | _ => true
  end.

(** An application whose users are pairs of a name and a role slot, and
    whose roles are strings *)
Definition sample_user : Type := jsstring * slot jsstring.

(** The options [{ requireRBAC: true, allowedRoles: [] }] *)
Definition rbac_only : @AuthOptions jsstring :=
  mkAuthOptions None None None None None (Some true) (Some []).

End AuthSpec.

Module ComposerSpec.
Import Composer.

Section Middleware.

Variable Ctx : Type.
Variable Event : Type.

(** A run of observable steps *)
Fixpoint acts (evs : list Event) (k : program Event) : program Event :=
  match evs with
  | [] => k
  | ev :: rest => Act ev (acts rest k)
  end.

(** [return await next()] and its like: pass the outcome on *)
Definition settle (outcome : settled) : program Event :=
  match outcome with
  | Fulfilled r => Resolve r
  | Rejected e => Reject e
  end.

(** A middleware that does [before], awaits [next()] once, does [after]
    and returns the response it got *)
Definition around (before after : list Event) : Middleware Ctx Event :=
  fun _ =>
    acts before
      (AwaitNext (fun outcome =>
         match outcome with
         | Fulfilled r => acts after (Resolve r)
         | Rejected e => Reject e
         end)).

(** A middleware that awaits [next()], does [between], and awaits
    [next()] again *)
Definition twice (between : list Event) : Middleware Ctx Event :=
  fun _ => AwaitNext (fun _ => acts between (AwaitNext settle)).

(** A terminal handler that does [steps] and answers [r] *)
Definition terminal (steps : list Event) (r : Response) : continuation Event :=
  fun tr => (Fulfilled r, tr ++ steps).

End Middleware.

Arguments acts {Event} evs k.
Arguments settle {Event} outcome.
Arguments around {Ctx Event} before after _.
Arguments twice {Ctx Event} between _.
Arguments terminal {Event} steps r _.

Definition no_content : Response := newResponse None 204 [].

End ComposerSpec.

Module ValidatorSpec.
Import Constants DtoValidator.

(** The call ends by throwing a response of status 415. *)
Definition throws_415 (outcome : completion thrown data) : Prop :=
  exists r, outcome = Throw (ThrownResponse r)
            /\ status r = HTTP_STATUS.UNSUPPORTED_MEDIA_TYPE.

(** No entry of [types] occurs in the content type. *)
Definition none_contained (contentType : jsstring) (types : list jsstring)
    : Prop :=
  Forall (fun supportedType => ~ contains contentType supportedType) types.

(** When the specification has the call answer 415 *)
Definition unsupported (bodySchema : BodySchema) (contentType : jsstring)
    (supportedContentTypes : option (list jsstring)) : Prop :=
  match bodySchema with
  | ContentTypeSchemas contentTypeSchemas =>
      none_contained contentType (map fst contentTypeSchemas)
  | SingleSchema _ =>
      exists types, supportedContentTypes = Some types
                    /\ types <> []
                    /\ none_contained contentType types
  end.

(** A request with a JSON body and the Content-Type [text/plain] *)
Definition plain_request : Request :=
  mkRequest (str "POST") (str "/users") []
    [(str "Content-Type", str "text/plain")]
    (Return (Structure Object_create_null))
    (Return (str "{}"))
    (Throw (mkError (str "Body is not form data"))).

Definition accept_all : ZodTypeAny := fun d => ParseSuccess d.

End ValidatorSpec.

Module RouterSpec.
Import Constants Cors Authenticator DtoValidator Composer Router.

(** The shape the specification gives: [error], and at most [details] *)
Definition error_details_body (r : Response) : Prop :=
  exists e rest,
    body r = Some (JsonObject ((str "error", FString e) :: rest))
    /\ Forall (fun property => fst property = str "details") rest.

Definition CONTENT_TYPE : jsstring := str "content-type".
Definition X_CONTENT_TYPE_OPTIONS : jsstring := str "x-content-type-options".

Definition json_typed (r : Response) : Prop :=
  headers_get (str "Content-Type") (headers r) = Some (str "application/json").

Definition nosniff (r : Response) : Prop :=
  headers_get (str "X-Content-Type-Options") (headers r) = Some (str "nosniff").

Definition no_sniff_header (r : Response) : Prop :=
  headers_get (str "X-Content-Type-Options") (headers r) = None.

(** What the specification says of every error response *)
Definition specified_error_response (r : Response) : Prop :=
  error_details_body r /\ json_typed r /\ nosniff r.

(** An error response the dispatcher builds inline: the status, a JSON
    object with exactly the properties [fields],
    [Content-Type: application/json], and no [X-Content-Type-Options] *)
Definition inline_response (code : N) (fields : list (jsstring * field))
    (r : Response) : Prop :=
  status r = code
  /\ body r = Some (JsonObject fields)
  /\ json_typed r
  /\ no_sniff_header r.

(** An error response as [createErrorResponse] builds it: the same, with
    [X-Content-Type-Options: nosniff] *)
Definition helper_response (code : N) (fields : list (jsstring * field))
    (r : Response) : Prop :=
  status r = code
  /\ body r = Some (JsonObject fields)
  /\ json_typed r
  /\ nosniff r.

(** The property [error] or [message] holding a sanitized message *)
Definition sanitized (normalizeNFKC : jsstring -> jsstring)
    (name message : jsstring) : jsstring * field :=
  (name, FString (Sanitizer.sanitizeErrorMessage normalizeNFKC (VString message))).

(** CORS headers that name neither the content type nor the sniffing
    option, in any letter case *)
Definition neutral (corsHeaders : record) : Prop :=
  Forall (fun header => toLowerCase (fst header) <> CONTENT_TYPE
                        /\ toLowerCase (fst header) <> X_CONTENT_TYPE_OPTIONS)
         corsHeaders.

(** The request may go on to the authentication handler of the route:
    its method is OPTIONS, or the route allows every method, or the
    method is among the allowed ones. *)
Definition method_allowed {TRole TUser Client Db Event RegExp : Type}
    (route : @CompiledRoute TRole TUser Client Db Event RegExp)
    (req : Request) : Prop :=
  let allowed :=
    map toUpperCase
      (default [] (Authenticator.allowedMethods (authOptionsOf route))) in
  Http.method req = OPTIONS \/ allowed = []
  \/ toUpperCase (Http.method req) ∈ allowed.

(** The denials [validateAuthResult] adds to a result that carries no
    response: the status and the message *)
Definition denials : list (N * jsstring) :=
  [ (401%N, str "User authentication required");
    (403%N, str "User role not found");
    (403%N, str "No roles configured for this route");
    (403%N, str "Insufficient permissions") ].

Section Exits.

Context {TRole : Type} `{EqDecision TRole}.
Variable TUser : Type.
Variable Client : Type.
Variable Db : Type.
Variable Event : Type.
Variable normalizeNFKC : jsstring -> jsstring.
Variable decodeURIComponent : jsstring -> option jsstring.
Variable parseUrlEncoded : jsstring -> list (jsstring * jsstring).
Variable valueToString : value -> jsstring.
Variable headersImmutable : Error.
Variable RegExp : Type.
Variable config : @RouterConfig TRole TUser Client Db Event.

(** The body [parseAndValidateBody] is called with for a route and a
    request: what it settles with, if the route has a body schema and
    validates *)
Definition bodyOutcome
    (route : @CompiledRoute TRole TUser Client Db Event RegExp)
    (req : Request) : option (completion thrown data) :=
  match requestSchema route ≫= schema_body, validationOn route with
  | Some bodySchema, true =>
      Some (parseAndValidateBody parseUrlEncoded req bodySchema
              (default (str "application/json")
                 (headers_get (str "content-type") (requestHeaders req)))
              (supportedContentTypes route))
  | _, _ => None
  end.

(** The ways a matched request is answered before the middlewares run:
    the stage that answers, what made it answer, and the response. *)
Inductive early_exit
    (route : @CompiledRoute TRole TUser Client Db Event RegExp)
    (params : record) (corsHeaders : record) (req : Request) (r : Response)
    : Prop :=
  | sanitization_failed (e : Error) :
      sanitizeParams_loop decodeURIComponent params [] = Throw e ->
      inline_response 400 [sanitized normalizeNFKC (str "error") (message e)] r ->
      early_exit route params corsHeaders req r
  | query_rejected schema :
      validationOn route = true ->
      requestSchema route ≫= schema_query = Some schema ->
      schema (Sanitizer.parseQuerySafely (searchParams req)) = None ->
      inline_response 400
        [ (str "error", FString (str "Query validation failed"));
          (str "details", FValue VObject) ] r ->
      early_exit route params corsHeaders req r
  | params_rejected schema sanitizedParams :
      validationOn route = true ->
      sanitizeParams_loop decodeURIComponent params [] = Return sanitizedParams ->
      requestSchema route ≫= schema_params = Some schema ->
      schema sanitizedParams = None ->
      inline_response 400
        [ (str "error", FString (str "Path parameter validation failed"));
          (str "details", FValue VObject) ] r ->
      early_exit route params corsHeaders req r
  | media_type_unsupported :
      bodyOutcome route req = Some (Throw (ThrownResponse unsupportedMediaType)) ->
      inline_response 415
        [(str "error", FString (str "Unsupported Media Type"))] r ->
      early_exit route params corsHeaders req r
  | body_invalid :
      bodyOutcome route req
      = Some (Throw (ThrownResponse (validationFailed None))) ->
      inline_response 400 [(str "error", FString (str "Validation failed"))] r ->
      early_exit route params corsHeaders req r
  | body_invalid_with_details issues :
      bodyOutcome route req
      = Some (Throw (ThrownResponse (validationFailed (Some issues)))) ->
      inline_response 400
        [ (str "error", FString (str "Validation failed"));
          (str "details", FIssues issues) ] r ->
      early_exit route params corsHeaders req r
  | body_unreadable error :
      bodyOutcome route req = Some (Throw error) ->
      (forall thrownResponse, error <> ThrownResponse thrownResponse) ->
      inline_response 400
        [(str "error", FString (str "Body validation failed"))] r ->
      early_exit route params corsHeaders req r
  | database_missing :
      Cors.flag (useDatabase route) = true ->
      getOrCreateDbClient (container config) = None ->
      inline_response 500
        [ (str "error", FString (str "Database configuration error"));
          (str "message",
           FString (str "Route requires database access but no transaction pooler client is configured.")) ]
        r ->
      early_exit route params corsHeaders req r
  | database_failed error :
      Cors.flag (useDatabase route) = true ->
      getOrCreateDbClient (container config) = Some (Throw error) ->
      inline_response 500
        [ (str "error", FString (str "Database connection error"));
          sanitized normalizeNFKC (str "message")
            (messageOr (thrownToString valueToString) error) ] r ->
      early_exit route params corsHeaders req r
  | auth_handler_missing error :
      Cors.flag (authRequired route) = true ->
      getAuthHandler config = Throw error ->
      inline_response 500
        [ (str "error", FString (str "Authentication configuration error"));
          (str "message", FString (messageOr (thrownToString valueToString) error)) ]
        r ->
      early_exit route params corsHeaders req r
  | method_refused authHandler :
      Cors.flag (authRequired route) = true ->
      getAuthHandler config = Return authHandler ->
      ~ method_allowed route req ->
      inline_response 405 [(str "error", FString (str "Method Not Allowed"))] r ->
      early_exit route params corsHeaders req r
  | auth_handler_failed authHandler error :
      Cors.flag (authRequired route) = true ->
      getAuthHandler config = Return authHandler ->
      method_allowed route req ->
      authHandler req (authOptionsOf route) = Throw error ->
      inline_response 500
        [ (str "error", FString (str "Authentication configuration error"));
          (str "message", FString (messageOr (thrownToString valueToString) error)) ]
        r ->
      early_exit route params corsHeaders req r
  | auth_response_supplied authHandler authResult supplied :
      Cors.flag (authRequired route) = true ->
      getAuthHandler config = Return authHandler ->
      method_allowed route req ->
      authHandler req (authOptionsOf route) = Return authResult ->
      response authResult = Some supplied ->
      setHeaders headersImmutable corsHeaders supplied = Return r ->
      status r = status supplied ->
      body r = body supplied ->
      early_exit route params corsHeaders req r
  | auth_response_immutable authHandler authResult supplied :
      Cors.flag (authRequired route) = true ->
      getAuthHandler config = Return authHandler ->
      method_allowed route req ->
      authHandler req (authOptionsOf route) = Return authResult ->
      response authResult = Some supplied ->
      immutableHeaders supplied = true ->
      corsHeaders <> [] ->
      inline_response 500
        [ (str "error", FString (str "Authentication configuration error"));
          (str "message", FString (message headersImmutable)) ] r ->
      early_exit route params corsHeaders req r
  | auth_denied authHandler authResult code message :
      Cors.flag (authRequired route) = true ->
      getAuthHandler config = Return authHandler ->
      method_allowed route req ->
      authHandler req (authOptionsOf route) = Return authResult ->
      response authResult = None ->
      (code, message) ∈ denials ->
      helper_response code [sanitized normalizeNFKC (str "error") message] r ->
      early_exit route params corsHeaders req r.

End Exits.

Arguments bodyOutcome {TRole TUser Client Db Event} parseUrlEncoded {RegExp}
  route req.
Arguments early_exit {TRole TUser Client Db Event} normalizeNFKC
  decodeURIComponent parseUrlEncoded valueToString headersImmutable {RegExp}
  config route params corsHeaders req r.

(** A router with the one route GET /users.  Its regular expression,
    [^/users$], is given by what [exec] answers. *)
Definition users_regex : jsstring -> option (list jsstring) :=
  fun pathname => if bool_decide (pathname = str "/users") then Some [] else None.

Definition users_route
    : @CompiledRoute jsstring AuthSpec.sample_user unit unit nat
        (jsstring -> option (list jsstring)) :=
  mkRoute (str "GET") users_regex [] None None None None None (Some true)
    None None None None (fun _ => Return (ResultValue VNull)).

Definition sample_routes
    : @CompiledRoutesData jsstring AuthSpec.sample_user unit unit nat
        (jsstring -> option (list jsstring)) :=
  mkRoutes [users_route] {[ str "GET" := [users_route] ]}.

Definition sample_config
    : @RouterConfig jsstring AuthSpec.sample_user unit unit nat :=
  mkConfig None
    (Throw (ThrownError (mkError (str "SUPABASE_URL is not set"))))
    (mkContainer (Return (str "req-1")) (Return tt) (Return tt) None).

(** A host after the Fetch standard: what its [Response] constructor and
    its [Headers] throw.  The messages are examples; every engine words
    its own. *)
Definition ERR_STATUS_RANGE : Error :=
  mkError (str "The status provided is outside the range [200, 599]").
Definition ERR_NULL_BODY_STATUS : Error :=
  mkError (str "Response with null body status cannot have body").
Definition ERR_HEADERS_IMMUTABLE : Error :=
  mkError (str "Headers are immutable").

Definition sample_responseError (body : option payload) (status : N)
    : option Error :=
  if negb ((200 <=? status) && (status <=? 599))%N then Some ERR_STATUS_RANGE
  else if bool_decide (is_Some body) && isNullBodyStatus status
  then Some ERR_NULL_BODY_STATUS
  else None.

Definition sample_handler (req : Request) : settled * list nat :=
  requestHandler snd (fun s => s) Some (fun _ => []) (fun _ => str "value")
    (fun _ => None) sample_responseError ERR_HEADERS_IMMUTABLE
    (fun re pathname => re pathname) sample_config sample_routes req.

Definition missing_request : Request :=
  mkRequest (str "GET") (str "/missing") [] []
    (Throw (mkError (str "Unexpected end of JSON input")))
    (Return [])
    (Throw (mkError (str "Body is not form data"))).

End RouterSpec.

(** ** Further vocabulary: the sanitizers *)

Module SanitizerWords.
Import Constants Sanitizer.

(** Neither a control character nor a zero-width character *)
Definition visible (c : N) : Prop :=
  isControlCharacter c = false /\ isZeroWidth c = false.

(** A character that no step of [sanitizeErrorMessage] touches: visible,
    none of the six characters that are escaped, and not the colon that
    ends a scheme name *)
Definition isPlainChar (c : N) : bool :=
  negb (isControlCharacter c) && negb (isZeroWidth c)
  && negb (bool_decide (c ∈ [AMP; LT; GT; DQUOTE; SQUOTE; SLASH; 58%N])).

(** Neither a carriage return nor a line feed *)
Definition no_line_break (c : N) : Prop := c <> 13%N /\ c <> 10%N.

(** The characters of a sanitized header list: those of header names,
    the comma and the space *)
Definition isHeaderListChar (c : N) : bool :=
  isHeaderNameChar c || (c =? 44)%N || (c =? 32)%N.

(** A form entry that [parseFormDataSafely] refuses for its size: a file
    larger than the bound under a key that is not dropped *)
Definition oversized (maxFileSize : N) (entry : jsstring * FormDataEntryValue)
    : Prop :=
  (fst entry ∉ DANGEROUS_QUERY_KEYS)
  /\ exists f, snd entry = FormFile f /\ (maxFileSize < file_size f)%N.

(** The value of the entry of a form under [key] *)
Definition form_value (formData : FormData) (key : jsstring)
    : option FormDataEntryValue :=
  snd <$> List.find (fun entry => bool_decide (fst entry = key)) formData.

(** A form with a text field, a field under a dropped key and a small
    file *)
Definition example_form : FormData :=
  [ (str "name", FormString (str "a"));
    (str "__proto__", FormString (str "x"));
    (str "avatar", FormFile (mkFile 10)) ].

End SanitizerWords.
(** ** Further vocabulary: routing *)

Module RoutingWords.
Import Constants ParamsValidator Compiler Router RouteCompiler.

(** The text a scan came from: a code unit as it is, a match as the colon
    and the name it captured *)
Definition render (pieces : list piece) : jsstring :=
  flat_map
    (fun p => match p with
              | Text c => [c]
              | ParamMatch name => COLON :: name
              end)
    pieces.

(** [decodeURIComponent(raw)], or [raw] when that throws *)
Definition decodeOrRaw (decodeURIComponent : jsstring -> option jsstring)
    (raw : jsstring) : jsstring :=
  default raw (decodeURIComponent raw).

Section Routes.

Context {TRole TUser Client Db Event RegExp : Type}.
Variable regexExec : RegExp -> jsstring -> option (list jsstring).

(** The array of routes in either shape of the routing table *)
Definition routesOf (data : @RoutesInput TRole TUser Client Db Event RegExp)
    : list (@CompiledRoute TRole TUser Client Db Event RegExp) :=
  match data with
  | LegacyArray routes => routes
  | Indexed data => routes data
  end.

(** The route's pattern matches the pathname. *)
Definition matches (pathname : jsstring)
    (route : @CompiledRoute TRole TUser Client Db Event RegExp) : Prop :=
  is_Some (regexExec (regex route) pathname).

(** The route answers requests of the method for the pathname: its
    pattern matches, and its method is the requested one unless that is
    [OPTIONS]. *)
Definition answers (requestMethod pathname : jsstring)
    (route : @CompiledRoute TRole TUser Client Db Event RegExp) : Prop :=
  (method route = requestMethod \/ requestMethod = OPTIONS)
  /\ matches pathname route.

End Routes.

(** A regular-expression host for examples: an expression is its source,
    and matches the one pathname between its anchors, without captures. *)
Definition literal_exec (regex pathname : jsstring)
    : option (list jsstring) :=
  if bool_decide (regex = str "^" ++ pathname ++ str "$") then Some []
  else None.

Definition users_def
    : RouteDef jsstring AuthSpec.sample_user unit unit nat :=
  mkRouteDef (str "GET") (str "/users") None None None None None (Some true)
    None None None None (fun _ => Return (ResultValue VNull)).

Definition posts_def
    : RouteDef jsstring AuthSpec.sample_user unit unit nat :=
  mkRouteDef (str "POST") (str "/posts") None None None None None (Some true)
    None None None None (fun _ => Return (ResultValue VNull)).

(** The two definitions compiled under the base path [/api/] *)
Definition api_routes
    : list (@CompiledRoute jsstring AuthSpec.sample_user unit unit nat
              jsstring) :=
  [ compiled users_def (str "^/api/users$") [];
    compiled posts_def (str "^/api/posts$") [] ].

Definition api_table
    : @CompiledRoutesData jsstring AuthSpec.sample_user unit unit nat
        jsstring :=
  mkRoutes api_routes (indexByMethod api_routes).

End RoutingWords.
(** ** Further vocabulary: authentication *)

Module AuthWords.
Import HttpErrors Rbac Authenticator DefaultAuth AuthSpec.

(** The token the default handler reads from a request: the value of the
    [Authorization] header without its first [Bearer ], empty when there
    is no header *)
Definition bearerToken (req : Request) : jsstring :=
  default []
    (replaceFirst (str "Bearer ") []
       <$> headers_get (str "Authorization") (requestHeaders req)).

(** A result that lets the request through *)
Definition granted {TUser Client : Type} (result : AuthResult TUser Client)
    : Prop :=
  response result = None.

(** The same container with another client factory *)
Definition with_create {TUser Client : Type}
    (create' : jsstring -> jsstring -> completion thrown Client)
    (container : AuthContainer TUser Client) : AuthContainer TUser Client :=
  mkAuthContainer (env container) create' (createWithToken container)
    (getOrCreateAnonClient container) (getUser container).

(** The cache once the service client of the configuration is in it *)
Definition filled {Client : Type} (url serviceKey : jsstring)
    (client : Client) : Cache Client :=
  mkCache (Some client) (Some url) (Some serviceKey).

(** The environment has a non-empty value for each of the three
    settings. *)
Definition configured (env : jsstring -> option jsstring) : Prop :=
  present (env (str "SUPABASE_URL")) = true
  /\ present (env (str "SUPABASE_SERVICE_ROLE_KEY")) = true
  /\ present (env (str "SUPABASE_ANON_KEY")) = true.

(** A request with the given [Authorization] header, if any, and no
    body *)
Definition request_with (authorization : option jsstring) : Request :=
  mkRequest (str "GET") (str "/users") []
    match authorization with
    | Some value => [(str "authorization", value)]
    | None => []
    end
    (Throw (mkError (str "Unexpected end of JSON input")))
    (Return [])
    (Throw (mkError (str "Body is not form data"))).

Definition sample_env (name : jsstring) : option jsstring :=
  if bool_decide (name = str "SUPABASE_URL")
  then Some (str "https://project.supabase.co")
  else if bool_decide (name = str "SUPABASE_SERVICE_ROLE_KEY")
  then Some (str "service-key")
  else if bool_decide (name = str "SUPABASE_ANON_KEY")
  then Some (str "anon-key")
  else None.

(** A container whose clients are their names and whose identity service
    knows one token, that of the administrator [alice] *)
Definition sample_container : AuthContainer sample_user jsstring :=
  mkAuthContainer sample_env
    (fun _ _ => Return (str "service-client"))
    (fun _ _ _ => Return (str "user-client"))
    (Return (str "anon-client"))
    (fun _ token =>
       if bool_decide (token = str "alice-jwt")
       then Return (Some (str "alice", Defined (str "admin")))
       else Return None).

Definition sample_handler_at (cached : Cache jsstring) (req : Request)
    (options : @AuthOptions jsstring) : Outcome sample_user jsstring :=
  handler snd (fun s => s) sample_container
    (str "https://project.supabase.co") (str "service-key") (str "anon-key")
    cached req options.

(** The options [{ requireRBAC: true, allowedRoles: ["admin"] }] *)
Definition admins_only : @AuthOptions jsstring :=
  mkAuthOptions None None None None None (Some true) (Some [str "admin"]).

(** The options [{ requireServiceRole: true }] *)
Definition service_only : @AuthOptions jsstring :=
  mkAuthOptions None (Some true) None None None None None.

End AuthWords.
(** ** Further vocabulary: middlewares *)

Module ComposerWords.
Import Composer ComposerSpec.

Section Middleware.

Variable Ctx : Type.
Variable Event : Type.

(** Two calls of composed middlewares that have left the same trace, the
    first counting its positions from [k] where the second counts from
    zero *)
Definition shifted (k : Z) (st1 st2 : state Event) : Prop :=
  trace st1 = trace st2
  /\ (index st1 = (index st2 + k)%Z
      \/ ((index st1 < k)%Z /\ (index st2 < 0)%Z)).

(** The same, the second call having no positions beyond [n] *)
Definition capped (n : Z) (st1 st2 : state Event) : Prop :=
  trace st1 = trace st2 /\ index st2 = Z.min (index st1) n.

(** A middleware that does [steps] and answers [r] without calling
    [next] *)
Definition answer (steps : list Event) (r : Response) : Middleware Ctx Event :=
  fun _ => acts steps (Resolve r).

(** What [catchErrors] makes of the way the rest of the chain settled *)
Definition caught (errorHandler : thrown -> Ctx -> completion thrown Response)
    (ctx : Ctx) (outcome : settled) : settled :=
  match outcome with
  | Fulfilled r => Fulfilled r
  | Rejected error =>
      match errorHandler error ctx with
      | Return r => Fulfilled r
      | Throw e => Rejected e
      end
  end.

End Middleware.

Arguments shifted {Event} k st1 st2.
Arguments capped {Event} n st1 st2.
Arguments answer {Ctx Event} steps r _.
Arguments caught {Ctx} errorHandler ctx outcome.

End ComposerWords.
(** ** Further vocabulary: validation *)

Module ValidatorWords.
Import Constants DtoValidator ValidatorSpec.

(** The schema [parseAndValidateBody] validates a body of the content
    type against: the single schema, or the schema of the first entry of
    the mapping whose key occurs in the content type *)
Definition chosen (bodySchema : BodySchema) (contentType : jsstring)
    (schema : ZodTypeAny) : Prop :=
  match bodySchema with
  | SingleSchema single => schema = single
  | ContentTypeSchemas entries =>
      exists before supportedType after,
        entries = before ++ (supportedType, schema) :: after
        /\ includes contentType supportedType = true
        /\ Forall (fun entry => includes contentType (fst entry) = false)
             before
  end.

(** A schema that accepts every object and answers an empty one *)
Definition strip_all : ZodTypeAny :=
  fun d =>
    match d with
    | Structure o => ParseSuccess (Structure (mkObject (proto o) ∅))
    | Primitive _ =>
        ParseFailure [mkIssue [] (str "Expected object, received string")]
    end.

(** A form with a name and an uploaded file *)
Definition upload : data :=
  Structure
    (mkObject NullPrototype
       {[ str "name" := DValue (VString (str "a"));
          str "avatar" := DFile (mkFile 10) ]}).

End ValidatorWords.
(** ** Further vocabulary: CORS *)

Module CorsWords.
Import Constants Cors.

Definition ALLOW_ORIGIN : jsstring := str "Access-Control-Allow-Origin".
Definition ALLOW_CREDENTIALS : jsstring :=
  str "Access-Control-Allow-Credentials".

(** A configuration that allows every origin and credentials at once *)
Definition wildcard_with_credentials (setting : option CorsSetting) : Prop :=
  exists config,
    setting = Some (Configured config)
    /\ allowedOrigins config = AnyOrigin
    /\ flag (credentials config) = true.

(** The value of a header in the first of the configurations that sets
    it, a configuration being read without a request origin *)
Fixpoint first_setting (key : jsstring) (configs : list (option CorsSetting))
    : option jsstring :=
  match configs with
  | [] => None
  | None :: rest => first_setting key rest
  | Some setting :: rest =>
      match buildCorsHeaders None setting with
      | Return headers =>
          match record_get key (rev headers) with
          | Some value => Some value
          | None => first_setting key rest
          end
      | Throw _ => first_setting key rest
      end
  end.

(** An allow list with credentials *)
Definition trusted_origins : CorsConfig :=
  mkCorsConfig (Origins [str "https://app.example.com"])
    (Some [str "GET"; str "POST"]) None None (Some true) (Some 600%N).

End CorsWords.
(** ** Further vocabulary: the request handler *)

Module RouterWords.
Import Constants Cors Authenticator Composer Router RouterSpec CorsWords.

Definition ERR_WILDCARD_CREDENTIALS : Error :=
  mkError (str "Cannot use wildcard origin with credentials").

(** Why the promise of the handler rejects with [e] on a request that
    matched [route]: the CORS configuration of the route cannot be built;
    the identifier generator of the container throws; the logger throws
    while a failure of the database client is reported; or the route
    handler throws a response whose headers cannot be changed, and the
    promise rejects with the [TypeError] of the host. *)
Inductive rejection_cause {TRole TUser Client Db Event RegExp : Type}
    (headersImmutable : Error)
    (config : @RouterConfig TRole TUser Client Db Event)
    (route : @CompiledRoute TRole TUser Client Db Event RegExp)
    (req : Request) (e : thrown) : Prop :=
  | cors_unbuildable :
      wildcard_with_credentials (corsHeaders route) ->
      e = ThrownError ERR_WILDCARD_CREDENTIALS ->
      rejection_cause headersImmutable config route req e
  | id_generator_failed :
      Http.method req <> OPTIONS ->
      generateId (container config) = Throw e ->
      rejection_cause headersImmutable config route req e
  | logger_failed error :
      Http.method req <> OPTIONS ->
      Cors.flag (useDatabase route) = true ->
      getOrCreateDbClient (container config) = Some (Throw error) ->
      logError (container config) = Throw e ->
      rejection_cause headersImmutable config route req e
  | response_immutable context thrownResponse :
      Http.method req <> OPTIONS ->
      handler route context = Throw (ThrownResponse thrownResponse) ->
      immutableHeaders thrownResponse = true ->
      e = ThrownError headersImmutable ->
      rejection_cause headersImmutable config route req e.

(** The router of [sample_config] with an identifier generator that
    throws *)
Definition ERR_NO_ENTROPY : Error := mkError (str "No entropy available").

Definition failing_id_config
    : @RouterConfig jsstring AuthSpec.sample_user unit unit nat :=
  mkConfig None
    (Throw (ThrownError (mkError (str "SUPABASE_URL is not set"))))
    (mkContainer (Throw (ThrownError ERR_NO_ENTROPY)) (Return tt) (Return tt)
       None).

(** The router with the one route GET /users, under a configuration *)
Definition sample_handler_of
    (config : @RouterConfig jsstring AuthSpec.sample_user unit unit nat)
    (req : Request) : settled * list nat :=
  requestHandler snd (fun s => s) Some (fun _ => []) (fun _ => str "value")
    (fun _ => None) sample_responseError ERR_HEADERS_IMMUTABLE
    (fun re pathname => re pathname) config sample_routes req.

Definition options_request : Request :=
  mkRequest (str "OPTIONS") (str "/missing") [] []
    (Throw (mkError (str "Unexpected end of JSON input")))
    (Return [])
    (Throw (mkError (str "Body is not form data"))).

Definition users_request : Request :=
  mkRequest (str "GET") (str "/users") [] []
    (Throw (mkError (str "Unexpected end of JSON input")))
    (Return [])
    (Throw (mkError (str "Body is not form data"))).

(** A route that declares the status 204 and whose handler returns
    [null], and a context for it *)
Definition no_content_route
    : @CompiledRoute jsstring AuthSpec.sample_user unit unit nat
        (jsstring -> option (list jsstring)) :=
  mkRoute (str "GET") users_regex [] None None None None None (Some false)
    None None None (Some 204%N) (fun _ => Return (ResultValue VNull)).

Definition users_context : Context AuthSpec.sample_user unit unit :=
  mkContext users_request (str "req-1") []
    (mkObject ObjectPrototype ∅) None None None None None.

End RouterWords.

(** * Properties *)

(** ** Strings *)

Module JsStringFacts.

Lemma startsWith_spec (p s : jsstring) :
  startsWith s p = true <-> exists b, s = p ++ b.
Proof.
  revert s. induction p as [|c p IH]; intros s; simpl.
  - split; [intros _; by exists s | done].
  - destruct s as [|d s].
    + split; [done | intros [b Hb]; discriminate Hb].
    + rewrite andb_true_iff, N.eqb_eq, IH. split.
      * intros [-> [b ->]]. by exists b.
      * intros [b Hb]. injection Hb as -> ->. split; [done | by exists b].
Qed.

Lemma includes_spec (s n : jsstring) :
  includes s n = true <-> contains s n.
Proof.
  unfold contains. induction s as [|c t IH]; simpl.
  - rewrite orb_false_r, startsWith_spec. split.
    + intros [b Hb]. by exists [], b.
    + intros [a [b Hab]]. destruct a as [|x a]; [by exists b | discriminate Hab].
  - rewrite orb_true_iff, startsWith_spec, IH. split.
    + intros [[b Hb] | [a [b Hab]]].
      * by exists [], b.
      * exists (c :: a), b. by rewrite Hab.
    + intros [a [b Hab]]. destruct a as [|x a].
      * left. by exists b.
      * right. injection Hab as _ Hab. by exists a, b.
Qed.

Lemma includes_false_spec (s n : jsstring) :
  includes s n = false <-> ~ contains s n.
Proof.
  rewrite <- includes_spec. by destruct (includes s n).
Qed.

Lemma toLowerCase_app (a b : jsstring) :
  toLowerCase (a ++ b) = toLowerCase a ++ toLowerCase b.
Proof. apply map_app. Qed.

(** The test the sanitizers write, [s.toLowerCase().includes(n)] with a
    lower-case literal [n], is containment up to case. *)
Lemma includes_toLowerCase_spec (s n : jsstring) :
  toLowerCase n = n ->
  includes (toLowerCase s) n = true <-> contains_ci s n.
Proof.
  intros Hn. rewrite includes_spec. unfold contains, contains_ci. split.
  - intros [a [b Hab]]. unfold toLowerCase in Hab.
    apply map_eq_app in Hab as [a' [r [-> [Ha Hr]]]].
    apply map_eq_app in Hr as [w [b' [-> [Hw Hb]]]].
    exists a', w, b'. split; [done|]. rewrite Hn. exact Hw.
  - intros [a [w [b [-> Hw]]]]. exists (toLowerCase a), (toLowerCase b).
    by rewrite !toLowerCase_app, Hw, Hn.
Qed.

End JsStringFacts.

Export JsStringFacts.

(** ** security/sanitizer.ts *)

Module SanitizerFacts.
Import Constants Sanitizer SanitizerSpec.

Lemma includes_toLowerCase_false (s n : jsstring) :
  toLowerCase n = n ->
  includes (toLowerCase s) n = false <-> ~ contains_ci s n.
Proof.
  intros Hn. rewrite <- (includes_toLowerCase_spec s n Hn).
  by destruct (includes (toLowerCase s) n).
Qed.

Section PathParam.

Variable decodeURIComponent : jsstring -> option jsstring.

Lemma sanitizePathParam_too_long (value : jsstring) :
  (MAX_PATH_PARAM_LENGTH < length value)%nat ->
  sanitizePathParam decodeURIComponent value = Throw (mkError ERR_TOO_LONG).
Proof.
  intros Hlen. unfold sanitizePathParam.
  by destruct (Nat.ltb_spec MAX_PATH_PARAM_LENGTH (length value)); [|lia].
Qed.

Lemma sanitizePathParam_throws_iff (value : jsstring) :
  throws (sanitizePathParam decodeURIComponent value)
  <-> unsafe_path_param decodeURIComponent value.
Proof.
  unfold sanitizePathParam, unsafe_path_param, throws.
  destruct (Nat.ltb_spec MAX_PATH_PARAM_LENGTH (length value)) as [Hlen|Hlen].
  { split; [by left | eauto]. }
  destruct (includes (toLowerCase value) (str "%2e%2e")) eqn:E1; simpl.
  { apply includes_toLowerCase_spec in E1; [|done]. split; [tauto | eauto]. }
  destruct (includes (toLowerCase value) (str "%2f")) eqn:E2; simpl.
  { apply includes_toLowerCase_spec in E2; [|done]. split; [tauto | eauto]. }
  destruct (includes (toLowerCase value) (str "%5c")) eqn:E3; simpl.
  { apply includes_toLowerCase_spec in E3; [|done]. split; [tauto | eauto]. }
  apply includes_toLowerCase_false in E1; [|done].
  apply includes_toLowerCase_false in E2; [|done].
  apply includes_toLowerCase_false in E3; [|done].
  destruct (decodeURIComponent value) as [decoded|] eqn:Edec.
  2:{ split; [tauto | eauto]. }
  assert (Hrhs : unsafe_decoded decoded <->
    ((MAX_PATH_PARAM_LENGTH < length value)%nat
     \/ contains_ci value (str "%2e%2e") \/ contains_ci value (str "%2f")
     \/ contains_ci value (str "%5c") \/ Some decoded = None
     \/ exists decoded0, Some decoded = Some decoded0 /\ unsafe_decoded decoded0)).
  { split.
    - intros H. do 5 right. by exists decoded.
    - intros [H|[H|[H|[H|[H|[d [Hd H]]]]]]]; try done; try lia.
      by injection Hd as ->. }
  rewrite <- Hrhs. clear Hrhs. unfold unsafe_decoded.
  destruct (Nat.ltb_spec MAX_PATH_PARAM_LENGTH (length decoded)) as [Hd|Hd].
  { split; [by left | eauto]. }
  destruct (includes decoded (str "..")) eqn:D1; simpl.
  { apply includes_spec in D1. split; [tauto | eauto]. }
  destruct (includes decoded (str "/")) eqn:D2; simpl.
  { apply includes_spec in D2. split; [tauto | eauto]. }
  destruct (includes decoded BACKSLASH) eqn:D3; simpl.
  { apply includes_spec in D3. split; [tauto | eauto]. }
  destruct (includes decoded NUL) eqn:D4; simpl.
  { apply includes_spec in D4. split; [tauto | eauto]. }
  apply includes_false_spec in D1, D2, D3, D4.
  split.
  - intros [e He]. discriminate He.
  - intros [H|[H|[H|[H|H]]]]; try done; lia.
Qed.

(** The examples of the documentation: a decoder leaves a text without
    percent sign as it is. *)
Example sanitizePathParam_123 :
  decodeURIComponent (str "123") = Some (str "123") ->
  sanitizePathParam decodeURIComponent (str "123") = Return (str "123").
Proof. intros Hdec. unfold sanitizePathParam. simpl. by rewrite Hdec. Qed.

Example sanitizePathParam_etc_passwd :
  decodeURIComponent (str "../etc/passwd") = Some (str "../etc/passwd") ->
  sanitizePathParam decodeURIComponent (str "../etc/passwd")
  = Throw (mkError ERR_TRAVERSAL).
Proof. intros Hdec. unfold sanitizePathParam. simpl. by rewrite Hdec. Qed.

(** C6.  [sanitizePathParam] throws exactly when the raw value is longer
    than 200 code units, or holds [%2e%2e], [%2f] or [%5c] in any letter
    case, or cannot be percent-decoded, or its decoded value is longer
    than 200 code units or holds [..], a slash, a backslash or NUL; and a
    value longer than the bound fails with the length error whatever the
    decoder would have answered, so also when the value is no valid
    percent-encoding. *)
Theorem sanitizePathParam_fails_exactly_when (value : jsstring) :
  (throws (sanitizePathParam decodeURIComponent value)
   <-> unsafe_path_param decodeURIComponent value)
  /\ ((MAX_PATH_PARAM_LENGTH < length value)%nat ->
      sanitizePathParam decodeURIComponent value
      = Throw (mkError ERR_TOO_LONG)).
Proof.
  split; [apply sanitizePathParam_throws_iff | apply sanitizePathParam_too_long].
Qed.

End PathParam.

(** 201 percent signs: too long and not a valid percent-encoding *)
Lemma sanitizePathParam_fails_exactly_when_witness :
  (MAX_PATH_PARAM_LENGTH < length (repeat 37%N 201))%nat
  /\ sanitizePathParam (fun _ => None) (repeat 37%N 201)
     = Throw (mkError ERR_TOO_LONG).
Proof.
  split.
  - vm_compute. lia.
  - apply (proj2 (sanitizePathParam_fails_exactly_when
                    (fun _ => None) (repeat 37%N 201))).
    vm_compute. lia.
Defined.


(** *** parseQuerySafely *)

Lemma blocked_spec (key : jsstring) :
  blocked key = true <-> excluded_key key.
Proof.
  unfold blocked, excluded_key, DANGEROUS_QUERY_KEYS_SET.
  rewrite !orb_true_iff, bool_decide_eq_true, elem_of_list_to_set,
    !includes_spec, startsWith_spec.
  tauto.
Qed.

Lemma parseQuerySafely_step_unfold (query : object jsstring) key value :
  proto query = NullPrototype ->
  parseQuerySafely_step query (key, value) =
    if bool_decide (is_Some (own query !! key)) then query
    else if blocked key then query
    else set_property key value query.
Proof.
  intros Hproto. unfold parseQuerySafely_step, has_property, inherited, blocked.
  rewrite Hproto, orb_false_r.
  destruct (bool_decide (is_Some (own query !! key))); [done|].
  destruct (bool_decide (key ∈ DANGEROUS_QUERY_KEYS_SET)); [done|]. simpl.
  destruct (includes key (str "[") || includes key (str "]")); [done|].
  by destruct (startsWith key (str "_")).
Qed.

Lemma parseQuerySafely_step_proto (query : object jsstring) entry :
  proto (parseQuerySafely_step query entry) = proto query.
Proof.
  destruct entry as [key value]. unfold parseQuerySafely_step.
  repeat match goal with |- context [if ?b then _ else _] => destruct b end;
    done.
Qed.

Lemma parseQuerySafely_fold (searchParams : URLSearchParams) :
  forall (acc : object jsstring) (k : jsstring),
  proto acc = NullPrototype ->
  proto (fold_left parseQuerySafely_step searchParams acc) = NullPrototype
  /\ own (fold_left parseQuerySafely_step searchParams acc) !! k =
     match own acc !! k with
     | Some v => Some v
     | None => if blocked k then None else first_value searchParams k
     end.
Proof.
  induction searchParams as [|[key value] rest IH]; intros acc k Hproto.
  - simpl. split; [done|]. destruct (own acc !! k); [done|].
    by destruct (blocked k).
  - cbn [fold_left].
    destruct (IH (parseQuerySafely_step acc (key, value)) k) as [IHp IHl].
    { by rewrite parseQuerySafely_step_proto. }
    split; [done|]. rewrite IHl. clear IHp IHl.
    rewrite parseQuerySafely_step_unfold by done.
    unfold first_value. cbn [List.find fst].
    destruct (decide (key = k)) as [->|Hne].
    + rewrite (bool_decide_eq_true_2 (k = k)) by done.
      destruct (own acc !! k) as [v|] eqn:Hk.
      * rewrite (bool_decide_eq_true_2 (is_Some (Some v))) by eauto.
        by rewrite Hk.
      * rewrite (bool_decide_eq_false_2 (is_Some None)) by (intros [? ?]; done).
        destruct (blocked k) eqn:Hb.
        -- by rewrite Hk.
        -- unfold set_property; cbn [own]. by rewrite lookup_insert_eq.
    + rewrite (bool_decide_eq_false_2 (key = k)) by done.
      assert (own (if bool_decide (is_Some (own acc !! key)) then acc
                   else if blocked key then acc
                   else set_property key value acc) !! k = own acc !! k) as ->.
      { destruct (bool_decide (is_Some (own acc !! key))); [done|].
        destruct (blocked key); [done|].
        unfold set_property; cbn [own]. by rewrite lookup_insert_ne. }
      done.
Qed.

(** C7.  The mapping [parseQuerySafely] builds has the null prototype and
    so inherits no property; a key of the dangerous set, a key holding a
    bracket and a key starting with an underscore are absent from it; any
    other key is bound to the value of its first occurrence among the
    entries; and for the entries of [__proto__=x&a=1&a=2] the mapping
    binds [a] to [1] and nothing else. *)
Theorem parseQuerySafely_first_wins_and_excludes
    (searchParams : URLSearchParams) :
  let query := parseQuerySafely searchParams in
  proto query = NullPrototype
  /\ (forall key, inherited query key = false)
  /\ (forall key, excluded_key key -> own query !! key = None)
  /\ (forall key, ~ excluded_key key ->
        own query !! key = first_value searchParams key)
  /\ (searchParams = example_query ->
        forall key, own query !! key =
          if bool_decide (key = str "a") then Some (str "1") else None).
Proof.
  cbv zeta. generalize (eq_refl (parseQuerySafely searchParams)).
  generalize (parseQuerySafely searchParams) at 2 3 4 5 6 7.
  intros query Hquery.
  assert (Hfold : forall k, proto query = NullPrototype /\
            own query !! k = if blocked k then None
                             else first_value searchParams k).
  { intros k. subst query. unfold parseQuerySafely.
    destruct (parseQuerySafely_fold searchParams Object_create_null k)
      as [Hp Hl]; [done|]. split; [done|]. rewrite Hl.
    unfold Object_create_null; cbn [own]. by rewrite lookup_empty. }
  assert (Hp : proto query = NullPrototype) by apply (Hfold []).
  split; [done|]. split.
  { intros key. unfold inherited. by rewrite Hp. }
  split.
  { intros key Hex. destruct (Hfold key) as [_ ->].
    apply blocked_spec in Hex. by rewrite Hex. }
  split.
  { intros key Hex. destruct (Hfold key) as [_ ->].
    destruct (blocked key) eqn:Hb; [|done].
    apply blocked_spec in Hb. done. }
  intros -> key. destruct (Hfold key) as [_ ->].
  unfold first_value, example_query. cbn [List.find fst].
  destruct (decide (key = str "a")) as [->|Hne].
  - rewrite (bool_decide_eq_true_2 (str "a" = str "a")) by done.
    rewrite bool_decide_eq_false_2 by done.
    by vm_compute.
  - rewrite (bool_decide_eq_false_2 (key = str "a")) by done.
    rewrite !(bool_decide_eq_false_2 (str "a" = key)) by done.
    destruct (blocked key) eqn:Hb; [done|].
    rewrite bool_decide_eq_false_2; [done|].
    intros <-. by vm_compute in Hb.
Qed.

Lemma parseQuerySafely_first_wins_and_excludes_witness :
  let query := parseQuerySafely example_query in
  own query !! str "__proto__" = None
  /\ own query !! str "a" = Some (str "1")
  /\ own query !! str "b" = None.
Proof.
  intros query.
  destruct (parseQuerySafely_first_wins_and_excludes example_query)
    as (_ & _ & Hexcl & Hfirst & Hex).
  split; [|split].
  - apply Hexcl. left. vm_compute. apply list_elem_of_here.
  - apply (Hex eq_refl (str "a")).
  - apply (Hex eq_refl (str "b")).
Defined.


(** *** sanitizeErrorMessage *)

Lemma replaceChar_Forall (P : N -> Prop) c replacement s :
  Forall P replacement -> Forall P s ->
  Forall P (replaceChar c replacement s).
Proof.
  intros Hr Hs. unfold replaceChar. induction Hs as [|d s Hd Hs IH]; simpl.
  - constructor.
  - apply Forall_app. split; [|done].
    destruct (d =? c)%N; [done | by constructor].
Qed.

Lemma replaceChar_removes c replacement s :
  Forall (fun d => d <> c) replacement ->
  Forall (fun d => d <> c) (replaceChar c replacement s).
Proof.
  intros Hr. unfold replaceChar. induction s as [|d s IH]; simpl.
  - constructor.
  - apply Forall_app. split; [|done].
    destruct (N.eqb_spec d c); [done | by constructor].
Qed.

Ltac literal_Forall := repeat (constructor; [done|]); constructor.

Lemma escapeHtml_inert (s : jsstring) : Forall html_inert (escapeHtml s).
Proof.
  unfold escapeHtml.
  set (s1 := replaceChar AMP _ s).
  assert (H2 : Forall (fun d => d <> LT) (replaceChar LT (str "&lt;") s1)).
  { apply replaceChar_removes. literal_Forall. }
  set (s2 := replaceChar LT _ s1) in *.
  assert (H3 : Forall (fun d => d <> LT /\ d <> GT)
                 (replaceChar GT (str "&gt;") s2)).
  { apply Forall_and. split.
    - apply replaceChar_Forall; [literal_Forall | done].
    - apply replaceChar_removes. literal_Forall. }
  set (s3 := replaceChar GT _ s2) in *.
  assert (H4 : Forall (fun d => (d <> LT /\ d <> GT) /\ d <> DQUOTE)
                 (replaceChar DQUOTE (str "&quot;") s3)).
  { apply Forall_and. split.
    - apply replaceChar_Forall; [literal_Forall | done].
    - apply replaceChar_removes. literal_Forall. }
  set (s4 := replaceChar DQUOTE _ s3) in *.
  assert (H5 : Forall (fun d => ((d <> LT /\ d <> GT) /\ d <> DQUOTE)
                                /\ d <> SQUOTE)
                 (replaceChar SQUOTE (str "&#x27;") s4)).
  { apply Forall_and. split.
    - apply replaceChar_Forall; [literal_Forall | done].
    - apply replaceChar_removes. literal_Forall. }
  set (s5 := replaceChar SQUOTE _ s4) in *.
  eapply Forall_impl.
  - apply replaceChar_Forall; [|exact H5]. literal_Forall.
  - unfold html_inert. tauto.
Qed.

Section ErrorMessage.

Variable normalizeNFKC : jsstring -> jsstring.

(** C8.  [sanitizeErrorMessage] answers the fixed text
    [Internal server error] for an input that is no string; for a string
    its answer holds no [<], no [>] and no quote character (every quote of
    the input has become an entity) and is at most 500 code units long. *)
Theorem sanitizeErrorMessage_inert_and_bounded (message : value) :
  (is_string message = false ->
   sanitizeErrorMessage normalizeNFKC message = str "Internal server error")
  /\ (is_string message = true ->
      Forall html_inert (sanitizeErrorMessage normalizeNFKC message)
      /\ (length (sanitizeErrorMessage normalizeNFKC message)
          <= MAX_ERROR_MESSAGE_LENGTH)%nat).
Proof.
  split.
  - by destruct message.
  - destruct message; try done. intros _.
    unfold sanitizeErrorMessage, slice0. split.
    + apply Forall_take, escapeHtml_inert.
    + apply firstn_le_length.
Qed.

(** The example of the documentation, for a host whose NFKC form of this
    ASCII text is the text itself *)
Lemma sanitizeErrorMessage_script :
  let message := str "<script>alert(1)</script>" in
  normalizeNFKC message = message ->
  sanitizeErrorMessage normalizeNFKC (VString message)
  = str "&lt;script&gt;alert(1)&lt;&#x2F;script&gt;".
Proof.
  intros message Hn. unfold sanitizeErrorMessage. rewrite Hn. by vm_compute.
Qed.

End ErrorMessage.

Lemma sanitizeErrorMessage_inert_and_bounded_witness :
  sanitizeErrorMessage (fun s => s) (VNumber 42) = str "Internal server error"
  /\ Forall html_inert
       (sanitizeErrorMessage (fun s => s)
          (VString (str "<script>alert(1)</script>")))
  /\ (length (sanitizeErrorMessage (fun s => s)
                (VString (str "<script>alert(1)</script>")))
      <= MAX_ERROR_MESSAGE_LENGTH)%nat.
Proof.
  split.
  - apply (proj1 (sanitizeErrorMessage_inert_and_bounded
                    (fun s => s) (VNumber 42))).
    reflexivity.
  - apply (proj2 (sanitizeErrorMessage_inert_and_bounded (fun s => s)
                    (VString (str "<script>alert(1)</script>")))).
    reflexivity.
Defined.

End SanitizerFacts.

(** ** routing/params-validator.ts and routing/compiler.ts *)

Module RoutingFacts.
Import Constants ParamsValidator Compiler RoutingSpec.

Example paramMatches_two :
  paramMatches (str "/users/:userId/posts/:postId")
  = [str "userId"; str "postId"].
Proof. reflexivity. Qed.

Example safePattern_one :
  safePattern (str "/users/:id/x")
  = str "/users/([a-zA-Z0-9_%.='\-]{1,200})/x".
Proof. reflexivity. Qed.

Example validatePathSafety_ok :
  validatePathSafety (str "/users/:id") = Return tt.
Proof. reflexivity. Qed.

Example validatePathSafety_traversal :
  validatePathSafety (str "/users/../admin")
  = Throw (mkError ERR_PATH_TRAVERSAL).
Proof. reflexivity. Qed.

Example extractParamNames_duplicate :
  extractParamNames (str "/a/:id/b/:id")
  = Throw (mkError (str "Duplicate parameter name: id")).
Proof. reflexivity. Qed.

Lemma validatePathSafety_throws (path : jsstring) :
  unsafe_pattern path -> throws (validatePathSafety path).
Proof.
  unfold unsafe_pattern, validatePathSafety, throws. intros H.
  destruct (includes path (str "..")) eqn:E1; [eauto|].
  destruct (includes (toLowerCase path) (str "%2e%2e")) eqn:E2; [eauto|].
  destruct (includes path [0%N]) eqn:E3; [eauto|].
  apply includes_false_spec in E1, E3.
  apply SanitizerFacts.includes_toLowerCase_false in E2; [|done].
  tauto.
Qed.

Section Compile.

Variable RegExp : Type.
Variable newRegExp : jsstring -> option RegExp.

(** C5.  A path pattern that holds [..], or [%2e%2e] in any letter case,
    or a NUL makes [compileRoute] throw the error of [validatePathSafety],
    whatever the regular-expression constructor would answer: no matcher
    is built. *)
Theorem compileRoute_rejects_unsafe_pattern (path : jsstring) :
  unsafe_pattern path ->
  exists e, validatePathSafety path = Throw e
            /\ compileRoute RegExp newRegExp path = Throw (PathError e).
Proof.
  intros H. destruct (validatePathSafety_throws path H) as [e He].
  exists e. split; [done|]. unfold compileRoute. by rewrite He.
Qed.

End Compile.

Lemma compileRoute_rejects_unsafe_pattern_witness :
  unsafe_pattern (str "/files/%2E%2e/:name")
  /\ exists e, validatePathSafety (str "/files/%2E%2e/:name") = Throw e
       /\ compileRoute jsstring Some (str "/files/%2E%2e/:name")
          = Throw (PathError e).
Proof.
  assert (H : unsafe_pattern (str "/files/%2E%2e/:name")).
  { right; left. exists (str "/files/"), (str "%2E%2e"), (str "/:name").
    split; reflexivity. }
  split; [exact H|].
  exact (compileRoute_rejects_unsafe_pattern jsstring Some
           (str "/files/%2E%2e/:name") H).
Defined.


(** *** extractParamNames *)

Lemma first_is_rest (c : N) :
  PATH_PARAM_NAME_FIRST c = true -> PATH_PARAM_NAME_REST c = true.
Proof. unfold PATH_PARAM_NAME_REST. by intros ->. Qed.

Lemma isValidParamName_snoc (name : jsstring) (c : N) :
  isValidParamName name = true -> PATH_PARAM_NAME_REST c = true ->
  isValidParamName (name ++ [c]) = true.
Proof.
  unfold isValidParamName, PATH_PARAM_NAME_REGEX_test.
  destruct name as [|a r]; [done|]. simpl.
  rewrite !andb_true_iff, forallb_app. simpl. intros [Ha Hr] Hc.
  by rewrite Ha, Hr, Hc.
Qed.

Lemma opensParam_state (c : N) (t : jsstring) :
  opensParam c t = true -> scan_state_ok (Some []) t.
Proof.
  unfold opensParam. rewrite andb_true_iff. intros [_ Ht].
  destruct t as [|d t]; [done|]. left. split; [done|]. by exists d, t.
Qed.

Lemma scanParams_names_valid (path : jsstring) :
  forall current, scan_state_ok current path ->
  Forall (fun name => isValidParamName name = true)
         (names (scanParams current path)).
Proof.
  induction path as [|c t IH]; intros current Hok.
  - destruct current as [name|]; simpl; [|constructor].
    destruct Hok as [[_ (d & t & Hpath & _)] | Hvalid]; [done|].
    by repeat constructor.
  - assert (Hrest : Forall (fun name => isValidParamName name = true)
              (names (if opensParam c t then scanParams (Some []) t
                      else Text c :: scanParams None t))).
    { destruct (opensParam c t) eqn:Hopen.
      - apply IH. by apply (opensParam_state c).
      - simpl. by apply IH. }
    destruct current as [name|]; simpl; [|exact Hrest].
    destruct (PATH_PARAM_NAME_REST c) eqn:Hc.
    + apply IH. right.
      destruct Hok as [[-> (d & t' & Hpath & Hd)] | Hvalid].
      * injection Hpath as <- <-. simpl.
        unfold isValidParamName, PATH_PARAM_NAME_REGEX_test. simpl.
        by rewrite Hd.
      * by apply isValidParamName_snoc.
    + unfold names in *. simpl. constructor; [|exact Hrest].
      destruct Hok as [[-> (d & t' & Hpath & Hd)] | Hvalid]; [|done].
      injection Hpath as <- <-. apply first_is_rest in Hd. congruence.
Qed.

Lemma paramMatches_valid (path : jsstring) :
  Forall (fun name => isValidParamName name = true) (paramMatches path).
Proof. by apply (scanParams_names_valid path None). Qed.

(** Over well-formed names the loop returns exactly when no name is
    repeated, and otherwise throws the duplicate-name error. *)
Lemma extractParamNames_loop_spec (matches : list jsstring) :
  forall params,
  Forall (fun name => isValidParamName name = true) matches ->
  NoDup params ->
  (NoDup (params ++ matches)
   /\ extractParamNames_loop matches params = Return (params ++ matches))
  \/ (~ NoDup (params ++ matches)
      /\ exists name, extractParamNames_loop matches params
                      = Throw (mkError (ERR_DUPLICATE_PARAM name))).
Proof.
  induction matches as [|m rest IH]; intros params Hvalid Hnodup.
  - left. rewrite app_nil_r. by split.
  - inversion Hvalid as [|? ? Hm Hrest]; subst. simpl. rewrite Hm. simpl.
    case_bool_decide as Hin.
    + right. split; [|by exists m].
      intros Hnd. apply NoDup_app in Hnd as (_ & Hdisj & _).
      apply (Hdisj m Hin). apply list_elem_of_here.
    + replace (params ++ m :: rest) with ((params ++ [m]) ++ rest)
        by (by rewrite <- app_assoc).
      apply IH; [done|].
      apply NoDup_app. split; [done|]. split.
      * intros x Hx Hx'. apply list_elem_of_singleton in Hx'. by subst.
      * apply NoDup_singleton.
Qed.

Lemma ERR_DUPLICATE_not_INVALID (a b : jsstring) :
  ERR_DUPLICATE_PARAM a <> ERR_INVALID_PARAM b.
Proof.
  intros H. apply (f_equal (hd 0%N)) in H. vm_compute in H. discriminate H.
Qed.

(** The invalid-name error of [extractParamNames] is never thrown: the
    regular expression that finds the names only ever captures names that
    [isValidParamName] accepts. *)
Lemma extractParamNames_never_invalid (path name : jsstring) :
  extractParamNames path <> Throw (mkError (ERR_INVALID_PARAM name)).
Proof.
  unfold extractParamNames.
  destruct (extractParamNames_loop_spec (paramMatches path) []
              (paramMatches_valid path) (NoDup_nil_2 (A:=jsstring)))
    as [[_ ->] | [_ [dup ->]]]; [done|].
  intros H.
  apply (f_equal (fun c => match c with
                           | Throw e => message e
                           | Return _ => []
                           end)) in H.
  cbn [message] in H. by apply ERR_DUPLICATE_not_INVALID in H.
Qed.

(** The part of the contract on repeated names holds. *)
Lemma extractParamNames_duplicate_throws (path : jsstring) :
  ~ NoDup (paramMatches path) ->
  exists name, extractParamNames path
               = Throw (mkError (ERR_DUPLICATE_PARAM name)).
Proof.
  intros Hdup. unfold extractParamNames.
  destruct (extractParamNames_loop_spec (paramMatches path) []
              (paramMatches_valid path) (NoDup_nil_2 (A:=jsstring)))
    as [[Hnd _] | [_ H]]; [done | exact H].
Qed.

Section CompileNames.

Variable RegExp : Type.
Variable newRegExp : jsstring -> option RegExp.

(** The half of the contract on repeated names holds for [compileRoute]:
    a safe pattern in which a parameter name occurs twice is refused with
    the duplicate-name error. *)
Lemma compileRoute_duplicate_throws (path : jsstring) :
  validatePathSafety path = Return tt ->
  ~ NoDup (paramMatches path) ->
  exists name,
    compileRoute RegExp newRegExp path
    = Throw (PathError (mkError (ERR_DUPLICATE_PARAM name))).
Proof.
  intros Hsafe Hdup. unfold compileRoute. rewrite Hsafe.
  destruct (extractParamNames_duplicate_throws path Hdup) as [name ->].
  by exists name.
Qed.

(** C3, at the patterns [/users/:123invalid] and [/users/:user-id], whose
    parameter names the documentation of [isValidParamName] gives as
    invalid: [compileRoute] raises no path error.  The first pattern gets
    no parameter at all and the second the parameter [user]; the outcome
    is whatever the regular-expression constructor makes of the pattern. *)
Theorem compileRoute_accepts_malformed_param_name :
  isValidParamName (str "123invalid") = false
  /\ isValidParamName (str "user-id") = false
  /\ compileRoute RegExp newRegExp (str "/users/:123invalid")
     = match newRegExp (str "^/users/:123invalid$") with
       | Some regex => Return (regex, [])
       | None => Throw RegExpSyntaxError
       end
  /\ compileRoute RegExp newRegExp (str "/users/:user-id")
     = match newRegExp (str "^/users/([a-zA-Z0-9_%.='\-]{1,200})-id$") with
       | Some regex => Return (regex, [str "user"])
       | None => Throw RegExpSyntaxError
       end.
Proof. repeat split. Qed.

End CompileNames.

End RoutingFacts.

(** ** errors/http-errors.ts and authentication/authenticator.ts *)

Module AuthFacts.
Import Constants HttpErrors Rbac Authenticator AuthSpec.

Section Auth.

Context {TRole : Type} `{EqDecision TRole}.
Variable TUser : Type.
Variable Client : Type.
Variable roleOf : TUser -> slot TRole.
Variable normalizeNFKC : jsstring -> jsstring.

Lemma createErrorResponse_status message code cause :
  status (createErrorResponse normalizeNFKC message code cause) = code.
Proof. reflexivity. Qed.

(** The body of an error response holds the sanitised message under
    [error]. *)
Lemma createErrorResponse_error message code :
  body (createErrorResponse normalizeNFKC message code VUndefined)
  = Some (JsonObject
            [(str "error",
              FString (Sanitizer.sanitizeErrorMessage normalizeNFKC
                         (VString message)))]).
Proof. reflexivity. Qed.

(** C1.  A result without error response and without service bypass that
    carries a user, validated under [requireRBAC: true] and
    [allowedRoles: []], becomes an error result whose response has status
    403, whatever the role of the user: the 403 of [User role not found]
    when the role is missing, and otherwise the 403 of
    [No roles configured for this route]. *)
Theorem validateAuthResult_empty_roles_403
    (result : AuthResult TUser Client) (options : @AuthOptions TRole)
    (u : TUser) :
  response result = None ->
  truthy (serviceBypassed result) = false ->
  user result = Some u ->
  requireRBAC options = Some true ->
  allowedRoles options = Some [] ->
  exists r,
    validateAuthResult roleOf normalizeNFKC result options = errorResult r
    /\ status r = 403%N
    /\ r = forbidden normalizeNFKC
             (Some (if role_missing roleOf u then str "User role not found"
                    else str "No roles configured for this route"))
             VUndefined.
Proof.
  intros Hresp Hbypass Huser Hrbac Hroles.
  unfold Authenticator.validateAuthResult, role_missing.
  rewrite Hresp, Hbypass, Huser, Hrbac, Hroles.
  rewrite bool_decide_eq_false_2 by (intros [? ?]; done).
  rewrite (bool_decide_eq_true_2 (is_Some (Some u))) by eauto.
  rewrite andb_false_r. cbn [truthy negb].
  destruct (roleOf u); eexists; (split; [reflexivity|]); by split.
Qed.

(** C10.  A result without error response, without service bypass and
    without user is returned as it is whenever [requireUserAuth] is absent
    or false, also under [requireRBAC: true]: role-based access control
    alone rejects no request that resolved without an identity. *)
Theorem validateAuthResult_rbac_without_user_passes
    (result : AuthResult TUser Client) (options : @AuthOptions TRole) :
  response result = None ->
  truthy (serviceBypassed result) = false ->
  user result = None ->
  truthy (requireUserAuth options) = false ->
  validateAuthResult roleOf normalizeNFKC result options = result.
Proof.
  intros Hresp Hbypass Huser Hauth.
  unfold Authenticator.validateAuthResult.
  rewrite Hresp, Hbypass, Huser, Hauth.
  rewrite bool_decide_eq_false_2 by (intros [? ?]; done).
  cbn [andb]. by destruct (truthy (requireRBAC options)).
Qed.

End Auth.

Lemma validateAuthResult_empty_roles_403_witness :
  exists r,
    validateAuthResult (TUser := sample_user) (Client := unit) snd (fun s => s)
      (mkAuthResult None None None
         (Some (str "ada", Defined (str "admin"))) None)
      rbac_only
    = errorResult r
    /\ status r = 403%N
    /\ r = forbidden (fun s => s)
             (Some (str "No roles configured for this route")) VUndefined.
Proof.
  apply (validateAuthResult_empty_roles_403 sample_user unit snd (fun s => s)
           (mkAuthResult None None None
              (Some (str "ada", Defined (str "admin"))) None)
           rbac_only (str "ada", Defined (str "admin")));
    reflexivity.
Defined.

Lemma validateAuthResult_rbac_without_user_passes_witness :
  validateAuthResult (TUser := sample_user) (Client := unit) snd (fun s => s)
    (mkAuthResult None None None None None) rbac_only
  = mkAuthResult None None None None None.
Proof.
  apply (validateAuthResult_rbac_without_user_passes sample_user unit snd
           (fun s => s)
           (mkAuthResult None None None None None)
           rbac_only);
    reflexivity.
Defined.

End AuthFacts.

(** ** middleware/composer.ts *)

Module ComposerFacts.
Import Composer ComposerSpec.

Section Middleware.

Variable Ctx : Type.
Variable Event : Type.

Lemma exec_acts next_ (evs : list Event) (k : program Event) (st : state Event) :
  exec next_ (acts evs k) st
  = exec next_ k (mkState (index st) (trace st ++ evs)).
Proof.
  revert st. induction evs as [|ev evs IH]; intros st; simpl.
  - rewrite app_nil_r. by destruct st.
  - rewrite IH. simpl. by rewrite <- app_assoc.
Qed.

(** The variable [index] never decreases. *)
Lemma exec_index_mono next_ (p : program Event) :
  (forall st, (index st <= index (snd (next_ st)))%Z) ->
  forall st, (index st <= index (snd (exec next_ p st)))%Z.
Proof.
  intros Hnext. induction p as [r|e|ev k IH|k IH]; intros st; simpl.
  - lia.
  - lia.
  - specialize (IH (mkState (index st) (trace st ++ [ev]))). simpl in IH. lia.
  - specialize (Hnext st). destruct (next_ st) as [outcome st'].
    specialize (IH outcome st'). simpl in Hnext. lia.
Qed.

Lemma dispatch_index (ctx : Ctx) (last : continuation Event)
    (rest : list (Middleware Ctx Event)) :
  forall i st,
    (index st <= index (snd (dispatch ctx last rest i st)))%Z
    /\ (i <= index (snd (dispatch ctx last rest i st)))%Z.
Proof.
  induction rest as [|m rest IH]; intros i st; simpl.
  - destruct (Z.leb_spec i (index st)); simpl; [lia|].
    destruct (last (trace st)). simpl. lia.
  - destruct (Z.leb_spec i (index st)); simpl; [lia|].
    pose proof (exec_index_mono (dispatch ctx last rest (i + 1)) (m ctx)
                  (fun st => proj1 (IH (i + 1)%Z st))
                  (mkState i (trace st))) as Hm.
    simpl in Hm. lia.
Qed.

(** Once [dispatch(i)] has been called, a further call from any state
    that the first call or later steps led to is rejected; the state, and
    with it the trace, stays as it is. *)
Lemma dispatch_again (ctx : Ctx) (last : continuation Event)
    (rest : list (Middleware Ctx Event)) (i : Z) (st st2 : state Event) :
  (index (snd (dispatch ctx last rest i st)) <= index st2)%Z ->
  dispatch ctx last rest i st2 = (Rejected NEXT_CALLED_TWICE, st2).
Proof.
  intros Hlater. pose proof (dispatch_index ctx last rest i st) as [_ Hi].
  destruct rest; simpl; by destruct (Z.leb_spec i (index st2)); [|lia].
Qed.

Lemma around_body (ctx : Ctx) (before after : list Event) :
  around before after ctx
  = acts before
      (AwaitNext (fun outcome =>
         match outcome with
         | Fulfilled r => acts after (Resolve r)
         | Rejected e => Reject e
         end)).
Proof. reflexivity. Qed.

(** A chain of middlewares of the shape before / await / after runs the
    parts before in the order of the list, then the handler, then the
    parts after in the reverse order. *)
Lemma dispatch_arounds (ctx : Ctx) (hs : list Event) r
    (parts : list (list Event * list Event)) :
  forall (i current : Z) (tr : list Event),
    (current < i)%Z ->
    dispatch ctx (terminal hs r)
      (map (fun part => around (fst part) (snd part)) parts) i
      (mkState current tr)
    = (Fulfilled r,
       mkState (i + Z.of_nat (length parts))
         (tr ++ concat (map fst parts) ++ hs
             ++ concat (rev (map snd parts)))).
Proof.
  induction parts as [|[before after] parts IH]; intros i current tr Hlt.
  - simpl. destruct (Z.leb_spec i current); [lia|]. unfold terminal. simpl.
    by rewrite Z.add_0_r, app_nil_r.
  - cbn [map dispatch index fst snd].
    destruct (Z.leb_spec i current); [lia|].
    rewrite around_body, exec_acts. cbn [exec index trace].
    rewrite IH by lia. rewrite exec_acts. cbn [exec index trace].
    f_equal. f_equal; [rewrite length_cons; lia|].
    cbn [concat rev map fst snd].
    rewrite concat_app. cbn [concat]. rewrite app_nil_r.
    by rewrite <- !app_assoc.
Qed.

Lemma composeMiddlewares_around_around (ctx : Ctx)
    (a1 a2 b1 b2 hs tr : list Event) r :
  composeMiddlewares [around a1 a2; around b1 b2] ctx (terminal hs r) tr
  = (Fulfilled r, tr ++ a1 ++ b1 ++ hs ++ b2 ++ a2).
Proof.
  unfold composeMiddlewares, around, terminal. simpl.
  repeat (progress (rewrite ?exec_acts; simpl)). by rewrite <- !app_assoc.
Qed.

Lemma composeMiddlewares_twice (ctx : Ctx)
    (between b1 b2 hs tr : list Event) r :
  composeMiddlewares [twice between; around b1 b2] ctx (terminal hs r) tr
  = (Rejected NEXT_CALLED_TWICE, tr ++ b1 ++ hs ++ b2 ++ between).
Proof.
  unfold composeMiddlewares, twice, around, terminal. simpl.
  repeat (progress (rewrite ?exec_acts; simpl)). by rewrite <- !app_assoc.
Qed.

(** C2.  Composed around a terminal handler, two middlewares that each do
    something, await [next()] and do something more run in the order
    A-before, B-before, H, B-after, A-after.  In one call of a composed
    middleware a second call of [next] for a position is rejected with the
    error [next() called multiple times] and leaves the trace as it was:
    nothing downstream runs again; so a first middleware that awaits
    [next()] twice sees B and H run once and ends rejected with that
    error. *)
Theorem composeMiddlewares_order_and_single_next :
  (forall (ctx : Ctx) (a_before a_after b_before b_after h tr : list Event) r,
     composeMiddlewares [around a_before a_after; around b_before b_after]
       ctx (terminal h r) tr
     = (Fulfilled r, tr ++ a_before ++ b_before ++ h ++ b_after ++ a_after))
  /\ (forall (ctx : Ctx) (last : continuation Event)
             (rest : list (Middleware Ctx Event)) i st st2,
       (index (snd (dispatch ctx last rest i st)) <= index st2)%Z ->
       dispatch ctx last rest i st2 = (Rejected NEXT_CALLED_TWICE, st2))
  /\ (forall (ctx : Ctx) (between b_before b_after h tr : list Event) r,
       composeMiddlewares [twice between; around b_before b_after]
         ctx (terminal h r) tr
       = (Rejected NEXT_CALLED_TWICE,
          tr ++ b_before ++ h ++ b_after ++ between)).
Proof.
  split; [|split].
  - apply composeMiddlewares_around_around.
  - apply dispatch_again.
  - apply composeMiddlewares_twice.
Qed.

End Middleware.

(** After a first [dispatch(0)] over one middleware and a handler, a
    second [dispatch(0)] is rejected and adds nothing to the trace. *)
Lemma composeMiddlewares_order_and_single_next_witness :
  let first :=
    dispatch tt (terminal [2] no_content) [around (Ctx := unit) [1] [3]] 0
      (mkState (-1) []) in
  trace (snd first) = [1; 2; 3]
  /\ dispatch tt (terminal [2] no_content) [around (Ctx := unit) [1] [3]] 0
       (snd first)
     = (Rejected NEXT_CALLED_TWICE, snd first).
Proof.
  split.
  - reflexivity.
  - apply (proj1 (proj2 (composeMiddlewares_order_and_single_next unit nat))
             tt (terminal [2] no_content) [around (Ctx := unit) [1] [3]] 0%Z
             (mkState (-1) [])).
    simpl. lia.
Defined.

End ComposerFacts.

(** ** validation/dto-validator.ts *)

Module DtoValidatorFacts.
Import Constants DtoValidator ValidatorSpec.

Section Host.

Variable parseUrlEncoded : jsstring -> list (jsstring * jsstring).

Lemma unsupportedMediaType_415 : throws_415 (Throw (ThrownResponse unsupportedMediaType)).
Proof. by exists unsupportedMediaType. Qed.

Lemma parseThenValidate_not_415 req contentType schema :
  ~ throws_415 (parseThenValidate parseUrlEncoded req contentType schema).
Proof.
  unfold parseThenValidate, throws_415. intros [r [Hr Hstatus]].
  destruct (parseBodyByContentType parseUrlEncoded req contentType);
    [|discriminate Hr].
  destruct (success (validateDTO a schema)); simpl in Hr.
  - by destruct (data_ (validateDTO a schema)).
  - injection Hr as <-. discriminate Hstatus.
Qed.

Lemma parseAndValidateBody_find_415 req contentType entries :
  throws_415 (parseAndValidateBody_find parseUrlEncoded req contentType entries)
  <-> none_contained contentType (map fst entries).
Proof.
  unfold none_contained.
  induction entries as [|[supportedType typeSchema] rest IH]; simpl.
  - split; [constructor | intros _; apply unsupportedMediaType_415].
  - destruct (includes contentType supportedType) eqn:Hinc.
    + apply includes_spec in Hinc. split.
      * intros H. by apply parseThenValidate_not_415 in H.
      * intros H. inversion H; subst. done.
    + apply includes_false_spec in Hinc. rewrite IH. split.
      * intros H. by constructor.
      * intros H. by inversion H.
Qed.

Lemma existsb_includes_false contentType types :
  existsb (fun supportedType => includes contentType supportedType) types = false
  <-> none_contained contentType types.
Proof.
  unfold none_contained. induction types as [|t types IH]; simpl.
  - split; [constructor | done].
  - rewrite orb_false_iff, IH, includes_false_spec. split.
    + intros [H1 H2]. by constructor.
    + intros H. by inversion H.
Qed.

(** C9.  [parseAndValidateBody] ends with a response of status 415
    exactly when the body schema is a mapping from content types to
    schemas none of whose keys occurs in the Content-Type of the request,
    or the body schema is one schema and a list of supported content types
    is given, is not empty, and has no entry that occurs in the
    Content-Type; containment is literal, code unit by code unit. *)
Theorem parseAndValidateBody_415_exactly_when
    (req : Request) (bodySchema : BodySchema) (contentType : jsstring)
    (supportedContentTypes : option (list jsstring)) :
  throws_415 (parseAndValidateBody parseUrlEncoded req bodySchema contentType
                supportedContentTypes)
  <-> unsupported bodySchema contentType supportedContentTypes.
Proof.
  destruct bodySchema as [schema|contentTypeSchemas]; simpl.
  - destruct supportedContentTypes as [types|]; simpl.
    + destruct types as [|t types]; simpl.
      * split.
        -- intros H. by apply parseThenValidate_not_415 in H.
        -- intros (types & Hsome & Hne & _). by injection Hsome as <-.
      * destruct (includes contentType t
                  || existsb (fun supportedType =>
                                includes contentType supportedType) types)
          eqn:Hex; simpl.
        -- split.
           ++ intros H. by apply parseThenValidate_not_415 in H.
           ++ intros (types' & Hsome & _ & Hnone). injection Hsome as <-.
              apply (existsb_includes_false contentType (t :: types)) in Hnone.
              simpl in Hnone. congruence.
        -- split.
           ++ intros _. exists (t :: types). split; [done|]. split; [done|].
              by apply (existsb_includes_false contentType (t :: types)).
           ++ intros _. apply unsupportedMediaType_415.
    + split.
      * intros H. by apply parseThenValidate_not_415 in H.
      * by intros (types & Hsome & _).
  - apply parseAndValidateBody_find_415.
Qed.

End Host.

(** Containment minds the case of letters: the key [application/json]
    does not occur in [Application/JSON]. *)
Example parseAndValidateBody_case_sensitive :
  parseAndValidateBody (fun _ => []) plain_request
    (ContentTypeSchemas [(str "application/json", accept_all)])
    (str "Application/JSON") None
  = Throw (ThrownResponse unsupportedMediaType).
Proof. reflexivity. Qed.

(** A route with a JSON body schema, asked with [text/plain] *)
Lemma parseAndValidateBody_415_exactly_when_witness :
  throws_415
    (parseAndValidateBody (fun _ => []) plain_request
       (ContentTypeSchemas [(str "application/json", accept_all)])
       (str "text/plain") (Some [str "application/json"]))
  /\ ~ throws_415
       (parseAndValidateBody (fun _ => []) plain_request
          (SingleSchema accept_all) (str "text/plain") None).
Proof.
  split.
  - apply (proj2 (parseAndValidateBody_415_exactly_when (fun _ => [])
                    plain_request
                    (ContentTypeSchemas [(str "application/json", accept_all)])
                    (str "text/plain") (Some [str "application/json"]))).
    simpl. unfold none_contained. constructor; [|constructor].
    apply includes_false_spec. reflexivity.
  - intros H.
    apply (proj1 (parseAndValidateBody_415_exactly_when (fun _ => [])
                    plain_request (SingleSchema accept_all)
                    (str "text/plain") None)) in H.
    destruct H as (types & Hsome & _). discriminate Hsome.
Defined.

End DtoValidatorFacts.

(** ** The request handler of router.ts *)

Module RouterFacts.
Import Constants Cors HttpErrors Authenticator DtoValidator Composer Router.
Import RouterSpec.

(** *** Records and headers *)

Lemma record_get_set (k k' v : jsstring) (o : record) :
  record_get k' (record_set k v o)
  = if bool_decide (k = k') then Some v else record_get k' o.
Proof.
  induction o as [|[a b] o IH]; simpl.
  - done.
  - destruct (decide (a = k)) as [->|Hak].
    + rewrite (bool_decide_eq_true_2 (k = k)) by done. simpl.
      by destruct (bool_decide (k = k')).
    + rewrite (bool_decide_eq_false_2 (a = k)) by done. simpl. rewrite IH.
      destruct (decide (a = k')) as [->|Hak'].
      * rewrite (bool_decide_eq_true_2 (k' = k')) by done.
        by rewrite (bool_decide_eq_false_2 (k = k')) by congruence.
      * by rewrite (bool_decide_eq_false_2 (a = k')) by done.
Qed.

Lemma record_set_fresh (k v : jsstring) (o : record) :
  Forall (fun p => fst p <> k) o -> record_set k v o = o ++ [(k, v)].
Proof.
  induction 1 as [|[a b] o Ha Ho IH]; simpl; [done|].
  rewrite bool_decide_eq_false_2 by done. by rewrite IH.
Qed.

Lemma headers_get_set (n k v : jsstring) (h : Headers) :
  headers_get n (headers_set k v h)
  = if bool_decide (toLowerCase k = toLowerCase n)
    then Some (normalizeHeaderValue v)
    else headers_get n h.
Proof. unfold headers_get, headers_set. apply record_get_set. Qed.

Lemma headers_get_append_other (n k v : jsstring) (h : Headers) :
  toLowerCase k <> toLowerCase n ->
  headers_get n (headers_append k v h) = headers_get n h.
Proof.
  intros Hne. unfold headers_append.
  destruct (headers_get k h); unfold headers_get; rewrite record_get_set;
    by rewrite bool_decide_eq_false_2.
Qed.

Lemma headers_get_append_new (k v : jsstring) (h : Headers) :
  headers_get k h = None ->
  headers_get k (headers_append k v h) = Some (normalizeHeaderValue v).
Proof.
  intros Hnone. unfold headers_append. rewrite Hnone.
  unfold headers_get. rewrite record_get_set.
  by rewrite bool_decide_eq_true_2.
Qed.

(** Entries under other names leave the header [n] as it was, in
    [new Headers(init)] and in a loop of [set]. *)
Lemma appended_untouched (n : jsstring) (init : record) :
  Forall (fun p => toLowerCase (fst p) <> toLowerCase n) init ->
  forall h,
    headers_get n (fold_left (fun h '(k, v) => headers_append k v h) init h)
    = headers_get n h.
Proof.
  induction 1 as [|[k v] init Hk Hinit IH]; intros h; simpl; [done|].
  rewrite IH. by apply headers_get_append_other.
Qed.

Lemma set_untouched (n : jsstring) (corsHeaders : record) :
  Forall (fun p => toLowerCase (fst p) <> toLowerCase n) corsHeaders ->
  forall h,
    headers_get n (fold_left (fun h '(k, v) => headers_set k v h) corsHeaders h)
    = headers_get n h.
Proof.
  induction 1 as [|[k v] init Hk Hinit IH]; intros h; simpl; [done|].
  rewrite IH, headers_get_set. by rewrite bool_decide_eq_false_2.
Qed.

Lemma neutral_content_type (corsHeaders : record) :
  neutral corsHeaders ->
  Forall (fun p => toLowerCase (fst p) <> toLowerCase (str "Content-Type"))
         corsHeaders.
Proof.
  intros Hneutral. eapply Forall_impl; [exact Hneutral|].
  intros p [H1 H2]. first [exact H1 | exact H2].
Qed.

Lemma neutral_sniff (corsHeaders : record) :
  neutral corsHeaders ->
  Forall (fun p => toLowerCase (fst p)
                   <> toLowerCase (str "X-Content-Type-Options"))
         corsHeaders.
Proof.
  intros Hneutral. eapply Forall_impl; [exact Hneutral|].
  intros p [H1 H2]. first [exact H1 | exact H2].
Qed.

Lemma neutral_record_set (k v : jsstring) (corsHeaders : record) :
  toLowerCase k <> CONTENT_TYPE ->
  toLowerCase k <> X_CONTENT_TYPE_OPTIONS ->
  neutral corsHeaders -> neutral (record_set k v corsHeaders).
Proof.
  intros Hk1 Hk2. unfold neutral.
  induction 1 as [|[a b] o Ha Ho IH]; simpl.
  - by repeat constructor.
  - case_bool_decide; subst; constructor; simpl; try done.
Qed.

Lemma neutral_spread (a b : record) :
  neutral a -> neutral b -> neutral (spread a b).
Proof.
  intros Ha Hb. unfold spread. revert a Ha.
  induction Hb as [|[k v] b [Hk1 Hk2] Hb IH]; intros a Ha; simpl; [done|].
  apply IH. by apply neutral_record_set.
Qed.

Lemma defaultCorsOf_neutral allowedMethods :
  neutral (defaultCorsOf allowedMethods).
Proof. unfold neutral, defaultCorsOf. repeat constructor; by vm_compute. Qed.

Ltac neutral_set :=
  apply neutral_record_set; [by vm_compute | by vm_compute | ].

Lemma buildCorsHeaders_neutral origin setting corsHeaders :
  buildCorsHeaders origin setting = Return corsHeaders ->
  (forall plain, setting = PlainHeaders plain -> neutral plain) ->
  neutral corsHeaders.
Proof.
  destruct setting as [plain|config]; simpl.
  - intros [= <-] Hplain. by apply Hplain.
  - intros Hbuilt _.
    assert (Hstart : forall start,
      match allowedOrigins config with
      | AnyOrigin =>
          if Cors.flag (credentials config)
          then Throw (mkError (str "Cannot use wildcard origin with credentials"))
          else Return [(str "Access-Control-Allow-Origin", str "*")]
      | Origins origins =>
          match origin with
          | Some o =>
              if negb (bool_decide (o = [])) && bool_decide (o ∈ origins)
              then Return
                     ((str "Access-Control-Allow-Origin", o) ::
                      (if Cors.flag (credentials config)
                       then [(str "Access-Control-Allow-Credentials", str "true")]
                       else []))
              else Return []
          | None => Return []
          end
      end = Return start -> neutral start).
    { intros start. unfold neutral.
      repeat case_match; intros [= <-]; repeat constructor; by vm_compute. }
    destruct (match allowedOrigins config with
              | AnyOrigin => _
              | Origins _ => _
              end) as [start|e]; [|discriminate Hbuilt].
    specialize (Hstart start eq_refl). injection Hbuilt as <-.
    unfold setWhen. repeat case_match; repeat neutral_set; done.
Qed.

(** *** The responses of the stages *)

Lemma createErrorResponse_plain normalizeNFKC message code :
  helper_response code [sanitized normalizeNFKC (str "error") message]
    (createErrorResponse normalizeNFKC message code VUndefined).
Proof. by repeat split. Qed.

Lemma createErrorResponse_cause normalizeNFKC message code cause :
  cause <> VUndefined ->
  helper_response code
    [sanitized normalizeNFKC (str "error") message;
     (str "cause", FValue cause)]
    (createErrorResponse normalizeNFKC message code cause).
Proof. intros Hcause. by destruct cause; repeat split. Qed.

Lemma jsonHeaders_headers (corsHeaders : record) :
  neutral corsHeaders ->
  headers_get (str "Content-Type") (newHeaders (jsonHeaders corsHeaders))
  = Some (str "application/json")
  /\ headers_get (str "X-Content-Type-Options")
       (newHeaders (jsonHeaders corsHeaders)) = None.
Proof.
  intros Hneutral. unfold jsonHeaders, newHeaders.
  rewrite record_set_fresh.
  2:{ eapply Forall_impl; [exact Hneutral|]. intros p [H1 _] Heq.
      apply H1. rewrite Heq. by vm_compute. }
  rewrite fold_left_app. simpl. split.
  - rewrite headers_get_append_new; [done|].
    by rewrite appended_untouched by by apply neutral_content_type.
  - rewrite headers_get_append_other by by vm_compute.
    by rewrite appended_untouched by by apply neutral_sniff.
Qed.

Lemma errorResponse_inline fields code (corsHeaders : record) :
  neutral corsHeaders ->
  inline_response code fields (errorResponse fields code corsHeaders).
Proof.
  intros Hneutral.
  destruct (jsonHeaders_headers corsHeaders Hneutral) as [Hct Hsniff].
  unfold inline_response, json_typed, no_sniff_header, errorResponse,
    newResponse. cbn [headers body status].
  unfold headers_has. rewrite Hct.
  by rewrite bool_decide_eq_true_2 by eauto.
Qed.

Lemma methodNotAllowedResponse_inline (corsHeaders : record) methods :
  neutral corsHeaders ->
  inline_response 405 [(str "error", FString (str "Method Not Allowed"))]
    (methodNotAllowedResponse corsHeaders methods).
Proof.
  intros Hneutral.
  apply (errorResponse_inline
           [(str "error", FString (str "Method Not Allowed"))]
           HTTP_STATUS.METHOD_NOT_ALLOWED).
  apply neutral_record_set; [by vm_compute | by vm_compute | done].
Qed.

Lemma notFoundResponse_headers allowedMethods :
  let r := notFoundResponse (defaultCorsOf allowedMethods) in
  status r = 404%N
  /\ body r = Some (JsonObject [(str "error", FString (str "Not Found"))])
  /\ headers_get (str "Content-Type") (headers r)
     = Some (str "text/plain;charset=UTF-8")
  /\ no_sniff_header r.
Proof. repeat split. Qed.

(** *** Setting the CORS headers on a response *)

Section SetHeaders.

Variable headersImmutable : Error.

Lemma setHeaders_returns (corsHeaders : record) x r :
  setHeaders headersImmutable corsHeaders x = Return r ->
  body r = body x /\ status r = status x.
Proof.
  unfold setHeaders. destruct corsHeaders; [by intros [= <-]|].
  destruct (immutableHeaders x); [done|]. by intros [= <-].
Qed.

Lemma setHeaders_keeps (corsHeaders : record) x r :
  neutral corsHeaders ->
  setHeaders headersImmutable corsHeaders x = Return r ->
  headers_get (str "Content-Type") (headers r)
  = headers_get (str "Content-Type") (headers x)
  /\ headers_get (str "X-Content-Type-Options") (headers r)
     = headers_get (str "X-Content-Type-Options") (headers x).
Proof.
  intros Hneutral Hset.
  assert (Hr : headers r = headers x
               \/ headers r
                  = fold_left (fun h '(k, v) => headers_set k v h) corsHeaders
                      (headers x)).
  { unfold setHeaders in Hset.
    destruct corsHeaders; [left; by injection Hset as <-|].
    destruct (immutableHeaders x); [done|]. right. by injection Hset as <-. }
  destruct Hr as [-> | ->]; [done|]. split.
  - by apply set_untouched, neutral_content_type.
  - by apply set_untouched, neutral_sniff.
Qed.

Lemma setHeaders_mutable (corsHeaders : record) x :
  immutableHeaders x = false ->
  exists r, setHeaders headersImmutable corsHeaders x = Return r.
Proof.
  intros Hmutable. unfold setHeaders. rewrite Hmutable.
  destruct corsHeaders; eauto.
Qed.

Lemma setHeaders_empty x : setHeaders headersImmutable [] x = Return x.
Proof. done. Qed.

Lemma setHeaders_immutable (corsHeaders : record) x :
  immutableHeaders x = true -> corsHeaders <> [] ->
  setHeaders headersImmutable corsHeaders x = Throw headersImmutable.
Proof.
  intros Himmutable Hcors. unfold setHeaders. rewrite Himmutable.
  by destruct corsHeaders.
Qed.

Lemma setHeaders_throws (corsHeaders : record) x e :
  setHeaders headersImmutable corsHeaders x = Throw e ->
  e = headersImmutable /\ immutableHeaders x = true /\ corsHeaders <> [].
Proof.
  unfold setHeaders. destruct corsHeaders; [done|].
  destruct (immutableHeaders x); [|done]. by intros [= <-].
Qed.

Lemma setHeaders_inline (corsHeaders : record) code fields x r :
  neutral corsHeaders ->
  inline_response code fields x ->
  setHeaders headersImmutable corsHeaders x = Return r ->
  inline_response code fields r.
Proof.
  intros Hneutral (Hstatus & Hbody & Hct & Hsniff) Hset.
  destruct (setHeaders_returns _ _ _ Hset) as [Hb Hs].
  destruct (setHeaders_keeps _ _ _ Hneutral Hset) as [Hc Hn].
  unfold inline_response, json_typed, no_sniff_header in *.
  by rewrite Hb, Hs, Hc, Hn.
Qed.

Lemma setHeaders_helper (corsHeaders : record) code fields x r :
  neutral corsHeaders ->
  helper_response code fields x ->
  setHeaders headersImmutable corsHeaders x = Return r ->
  helper_response code fields r.
Proof.
  intros Hneutral (Hstatus & Hbody & Hct & Hsniff) Hset.
  destruct (setHeaders_returns _ _ _ Hset) as [Hb Hs].
  destruct (setHeaders_keeps _ _ _ Hneutral Hset) as [Hc Hn].
  unfold helper_response, json_typed, nosniff in *.
  by rewrite Hb, Hs, Hc, Hn.
Qed.

End SetHeaders.

(** The responses [parseAndValidateBody] throws *)
Section Body.

Variable parseUrlEncoded : jsstring -> list (jsstring * jsstring).

Lemma parseThenValidate_thrown req contentType schema r :
  parseThenValidate parseUrlEncoded req contentType schema
  = Throw (ThrownResponse r) ->
  exists details, r = validationFailed details.
Proof.
  unfold parseThenValidate.
  destruct (parseBodyByContentType parseUrlEncoded req contentType);
    [|discriminate].
  destruct (success (validateDTO a schema)); simpl.
  - by destruct (data_ (validateDTO a schema)).
  - intros [= <-]. eauto.
Qed.

Lemma parseAndValidateBody_thrown req bodySchema contentType supported r :
  parseAndValidateBody parseUrlEncoded req bodySchema contentType supported
  = Throw (ThrownResponse r) ->
  r = unsupportedMediaType \/ exists details, r = validationFailed details.
Proof.
  destruct bodySchema as [schema|entries]; simpl.
  - match goal with |- context [if ?b then _ else _] => destruct b end.
    + intros [= <-]. by left.
    + intros H. right. by apply parseThenValidate_thrown in H.
  - induction entries as [|[supportedType typeSchema] rest IH]; simpl.
    + intros [= <-]. by left.
    + destruct (includes contentType supportedType); [|done].
      intros H. right. by apply parseThenValidate_thrown in H.
Qed.

End Body.

Lemma unsupportedMediaType_inline :
  inline_response 415 [(str "error", FString (str "Unsupported Media Type"))]
    unsupportedMediaType.
Proof. by repeat split. Qed.

Lemma validationFailed_inline :
  inline_response 400 [(str "error", FString (str "Validation failed"))]
    (validationFailed None).
Proof. by repeat split. Qed.

Lemma validationFailed_details_inline issues :
  inline_response 400
    [ (str "error", FString (str "Validation failed"));
      (str "details", FIssues issues) ]
    (validationFailed (Some issues)).
Proof. by repeat split. Qed.

(** What [validateAuthResult] adds to a result that carried no response
    is one of the denials, built by [createErrorResponse]. *)
Lemma validateAuthResult_builds {TRole : Type} `{EqDecision TRole}
    (TUser Client : Type) (roleOf : TUser -> slot TRole)
    (normalizeNFKC : jsstring -> jsstring)
    (result : AuthResult TUser Client) (options : @AuthOptions TRole) r :
  response result = None ->
  response (validateAuthResult roleOf normalizeNFKC result options) = Some r ->
  exists code message,
    r = createErrorResponse normalizeNFKC message code VUndefined
    /\ (code, message) ∈ denials.
Proof.
  intros Hnone. unfold validateAuthResult. rewrite Hnone.
  rewrite bool_decide_eq_false_2 by (intros [? ?]; done).
  repeat match goal with
         | |- context [if ?b then _ else _] => destruct b
         | |- context [match ?x with _ => _ end] => destruct x
         end;
    simpl; intros Hr; try congruence;
    injection Hr as <-; eexists _, _; (split; [reflexivity|]);
    unfold denials; set_solver.
Qed.

Lemma validateAuthResult_supplied {TRole : Type} `{EqDecision TRole}
    (TUser Client : Type) (roleOf : TUser -> slot TRole)
    (normalizeNFKC : jsstring -> jsstring)
    (result : AuthResult TUser Client) (options : @AuthOptions TRole) supplied :
  response result = Some supplied ->
  validateAuthResult roleOf normalizeNFKC result options = result.
Proof.
  intros Hsupplied. unfold validateAuthResult. rewrite Hsupplied.
  by rewrite bool_decide_eq_true_2 by eauto.
Qed.

Lemma method_allowed_decide {TRole TUser Client Db Event RegExp : Type}
    (route : @CompiledRoute TRole TUser Client Db Event RegExp)
    (req : Request) :
  let allowed :=
    map toUpperCase
      (default [] (Authenticator.allowedMethods (authOptionsOf route))) in
  negb (bool_decide (Http.method req = OPTIONS))
  && (0 <? length allowed)%nat
  && negb (bool_decide (toUpperCase (Http.method req) ∈ allowed)) = false
  <-> method_allowed route req.
Proof.
  intros allowed. unfold method_allowed. fold allowed.
  destruct (decide (Http.method req = OPTIONS)) as [Hoptions|Hoptions].
  { rewrite (bool_decide_eq_true_2 _ Hoptions). simpl. tauto. }
  rewrite (bool_decide_eq_false_2 _ Hoptions). simpl.
  destruct allowed as [|m rest] eqn:Hallowed.
  { simpl. tauto. }
  cbn [length Nat.ltb Nat.leb].
  destruct (decide (toUpperCase (Http.method req) ∈ m :: rest)) as [Hin|Hin].
  - rewrite (bool_decide_eq_true_2 _ Hin). simpl. tauto.
  - rewrite (bool_decide_eq_false_2 _ Hin). simpl.
    split; [done|]. intros [?|[?|?]]; done.
Qed.

Section Stages.

Context {TRole : Type} `{EqDecision TRole}.
Variable TUser : Type.
Variable Client : Type.
Variable Db : Type.
Variable Event : Type.
Variable roleOf : TUser -> slot TRole.
Variable normalizeNFKC : jsstring -> jsstring.
Variable decodeURIComponent : jsstring -> option jsstring.
Variable parseUrlEncoded : jsstring -> list (jsstring * jsstring).
Variable valueToString : value -> jsstring.
Variable stringifyError : value -> option Error.
Variable responseError : option payload -> N -> option Error.
Variable headersImmutable : Error.
Variable RegExp : Type.
Variable regexExec : RegExp -> jsstring -> option (list jsstring).
Variable config : @RouterConfig TRole TUser Client Db Event.
Variable compiledRoutes : @CompiledRoutesData TRole TUser Client Db Event RegExp.

Implicit Types (route : @CompiledRoute TRole TUser Client Db Event RegExp).
Implicit Types (req : Request) (r : Response) (corsHeaders : record).

Lemma sanitizeParams_exit route corsHeaders (params : record) req r :
  neutral corsHeaders ->
  sanitizeParams normalizeNFKC decodeURIComponent corsHeaders params = Throw r ->
  early_exit normalizeNFKC decodeURIComponent parseUrlEncoded valueToString
    headersImmutable config route params corsHeaders req r.
Proof.
  intros Hneutral. unfold sanitizeParams.
  destruct (sanitizeParams_loop _ _ _) as [sanitizedParams|e] eqn:Hloop;
    [done|].
  intros [= <-]. eapply sanitization_failed; [exact Hloop|].
  by apply errorResponse_inline.
Qed.

Lemma sanitizeParams_returns corsHeaders (params sanitizedParams : record) :
  sanitizeParams normalizeNFKC decodeURIComponent corsHeaders params
  = Return sanitizedParams ->
  sanitizeParams_loop decodeURIComponent params [] = Return sanitizedParams.
Proof.
  unfold sanitizeParams. destruct (sanitizeParams_loop _ _ _); [|done].
  by intros [= <-].
Qed.

Lemma validateQuery_exit route corsHeaders (params : record) req r :
  neutral corsHeaders ->
  validateQuery route corsHeaders req = Throw r ->
  early_exit normalizeNFKC decodeURIComponent parseUrlEncoded valueToString
    headersImmutable config route params corsHeaders req r.
Proof.
  intros Hneutral. unfold validateQuery.
  destruct (validationOn route) eqn:Hon; [|done].
  destruct (_ ≫= _) as [schema|] eqn:Hschema;
    [|done].
  destruct (schema _) as [parsed|] eqn:Hparse; [done|].
  intros [= <-]. eapply query_rejected; [done | exact Hschema | exact Hparse |].
  by apply errorResponse_inline.
Qed.

Lemma validateParams_exit route corsHeaders (params sanitizedParams : record)
    req r :
  neutral corsHeaders ->
  sanitizeParams_loop decodeURIComponent params [] = Return sanitizedParams ->
  validateParams route corsHeaders sanitizedParams = Throw r ->
  early_exit normalizeNFKC decodeURIComponent parseUrlEncoded valueToString
    headersImmutable config route params corsHeaders req r.
Proof.
  intros Hneutral Hloop. unfold validateParams.
  destruct (validationOn route) eqn:Hon; [|done].
  destruct (_ ≫= _) as [schema|] eqn:Hschema;
    [|done].
  destruct (schema _) as [parsed|] eqn:Hparse; [done|].
  intros [= <-].
  eapply params_rejected; [done | exact Hloop | exact Hschema | exact Hparse |].
  by apply errorResponse_inline.
Qed.

(** The body stage answers or goes on: the responses
    [parseAndValidateBody] throws are new, and their headers can be
    changed. *)
Lemma parseBody_exit route corsHeaders (params : record) req :
  neutral corsHeaders ->
  (forall e, parseBody parseUrlEncoded headersImmutable route corsHeaders
               req <> Fail e)
  /\ (forall r,
        parseBody parseUrlEncoded headersImmutable route
          corsHeaders req = Answer r ->
        early_exit normalizeNFKC decodeURIComponent parseUrlEncoded
          valueToString headersImmutable config route params
          corsHeaders req r).
Proof.
  intros Hneutral.
  assert (Hout := eq_refl (bodyOutcome parseUrlEncoded route req)).
  unfold bodyOutcome at 2 in Hout. unfold parseBody.
  destruct (_ ≫= _) as [bodySchema|]; [|done].
  destruct (validationOn route); [|done].
  destruct (parseAndValidateBody _ _ _ _ _) as [d|[e|x|v]] eqn:Hbody; [done| | |].
  - split; [done|]. intros r [= <-].
    eapply body_unreadable; [exact Hout | done |].
    by apply errorResponse_inline.
  - assert (Hx := Hbody). apply parseAndValidateBody_thrown in Hx.
    assert (Hmutable : immutableHeaders x = false).
    { by destruct Hx as [-> | [details ->]]. }
    destruct (setHeaders_mutable headersImmutable corsHeaders x Hmutable)
      as [r' Hset].
    rewrite Hset. split; [done|]. intros r [= <-].
    destruct Hx as [-> | [[issues|] ->]].
    + eapply media_type_unsupported; [exact Hout|].
      eapply setHeaders_inline;
        [done | apply unsupportedMediaType_inline | exact Hset].
    + eapply body_invalid_with_details; [exact Hout|].
      eapply setHeaders_inline;
        [done | apply validationFailed_details_inline | exact Hset].
    + eapply body_invalid; [exact Hout|].
      eapply setHeaders_inline;
        [done | apply validationFailed_inline | exact Hset].
  - split; [done|]. intros r [= <-].
    eapply body_unreadable; [exact Hout | done |].
    by apply errorResponse_inline.
Qed.

Lemma acquireDb_exit route corsHeaders (params : record) req r :
  neutral corsHeaders ->
  acquireDb normalizeNFKC valueToString config route corsHeaders = Answer r ->
  early_exit normalizeNFKC decodeURIComponent parseUrlEncoded valueToString
    headersImmutable config route params corsHeaders req r.
Proof.
  intros Hneutral. unfold acquireDb.
  destruct (Cors.flag (useDatabase route)) eqn:Huse; [|done].
  destruct (getOrCreateDbClient (container config)) as [[db|error]|] eqn:Hdb;
    [done| |].
  - destruct (logError (container config)); [|done]. intros [= <-].
    eapply database_failed; [done | exact Hdb |].
    by apply errorResponse_inline.
  - intros [= <-]. eapply database_missing; [done | exact Hdb |].
    by apply errorResponse_inline.
Qed.

Lemma authenticate_exit route corsHeaders (params : record) req r :
  neutral corsHeaders ->
  authenticate roleOf normalizeNFKC valueToString headersImmutable config route
    corsHeaders req
  = Throw r ->
  early_exit normalizeNFKC decodeURIComponent parseUrlEncoded valueToString
    headersImmutable config route params corsHeaders req r.
Proof.
  intros Hneutral. unfold authenticate.
  destruct (Cors.flag (authRequired route)) eqn:Hrequired; cbn [negb].
  2:{ by destruct (getOrCreateAnonClient (container config)). }
  destruct (getAuthHandler config) as [authHandler|error] eqn:Hget.
  2:{ intros [= <-]. eapply auth_handler_missing; [done | exact Hget |].
      by apply errorResponse_inline. }
  pose proof (method_allowed_decide route req) as Hallowed.
  cbn zeta in Hallowed.
  match goal with |- context [if ?b then _ else _] => destruct b end.
  { intros [= <-]. eapply method_refused; [done | exact Hget | |].
    - intros Hyes. apply Hallowed in Hyes. done.
    - by apply methodNotAllowedResponse_inline. }
  assert (Hmethod : method_allowed route req) by by apply Hallowed.
  destruct (authHandler req (authOptionsOf route)) as [authResult|error]
    eqn:Hauth.
  2:{ intros [= <-].
      eapply auth_handler_failed; [done | exact Hget | done | exact Hauth |].
      by apply errorResponse_inline. }
  destruct (response authResult) as [supplied|] eqn:Hsupplied.
  - rewrite (validateAuthResult_supplied _ _ _ _ _ _ supplied Hsupplied).
    rewrite Hsupplied.
    destruct (setHeaders headersImmutable corsHeaders
                supplied) as [r'|e] eqn:Hset;
      intros [= <-].
    + destruct (setHeaders_returns _ _ _ _ Hset) as [Hb Hs].
      by eapply auth_response_supplied.
    + destruct (setHeaders_throws _ _ _ _ Hset) as (-> & Himmutable & Hcors).
      eapply auth_response_immutable; try done.
      by apply errorResponse_inline.
  - destruct (response (validateAuthResult roleOf normalizeNFKC authResult
                          (authOptionsOf route))) as [built|] eqn:Hval;
      [|done].
    apply validateAuthResult_builds in Hval as (code & msg & -> & Hdenial);
      [|done].
    destruct (setHeaders_mutable headersImmutable corsHeaders
                (createErrorResponse normalizeNFKC msg code VUndefined)
                eq_refl) as [r' Hset].
    rewrite Hset. intros [= <-].
    eapply auth_denied; try done.
    eapply setHeaders_helper;
      [done | apply createErrorResponse_plain | exact Hset].
Qed.

(** A response supplied by the authentication handler: returned with the
    CORS headers set when they can be set, and otherwise replaced by the
    500 of the [catch] block. *)
Lemma authenticate_supplied route corsHeaders req authHandler authResult
    supplied :
  Cors.flag (authRequired route) = true ->
  getAuthHandler config = Return authHandler ->
  method_allowed route req ->
  authHandler req (authOptionsOf route) = Return authResult ->
  response authResult = Some supplied ->
  authenticate roleOf normalizeNFKC valueToString headersImmutable config route
    corsHeaders req
  = Throw (match setHeaders headersImmutable corsHeaders supplied with
           | Return r => r
           | Throw e => authConfigurationError valueToString corsHeaders
                          (ThrownError e)
           end).
Proof.
  intros Hrequired Hget Hmethod Hauth Hsupplied. unfold authenticate.
  rewrite Hrequired, Hget. cbn [negb].
  apply method_allowed_decide in Hmethod. cbn zeta in Hmethod.
  rewrite Hmethod, Hauth.
  rewrite (validateAuthResult_supplied _ _ _ _ _ _ supplied Hsupplied).
  rewrite Hsupplied. by destruct (setHeaders headersImmutable corsHeaders
                                    supplied).
Qed.

Lemma buildContext_answer route (params : record) corsHeaders req r :
  neutral corsHeaders ->
  buildContext roleOf normalizeNFKC decodeURIComponent parseUrlEncoded
    valueToString headersImmutable config route params
    corsHeaders req = Answer r ->
  early_exit normalizeNFKC decodeURIComponent parseUrlEncoded valueToString
    headersImmutable config route params corsHeaders req r.
Proof.
  intros Hneutral. unfold buildContext.
  destruct (generateId (container config)); [|done].
  destruct (sanitizeParams _ _ _ _) as [sanitizedParams|r1] eqn:H1.
  2:{ intros [= <-]. by eapply sanitizeParams_exit. }
  apply sanitizeParams_returns in H1.
  destruct (validateQuery _ _ _) as [query|r2] eqn:H2.
  2:{ intros [= <-]. by eapply validateQuery_exit. }
  destruct (validateParams _ _ _) as [u|r3] eqn:H3.
  2:{ intros [= <-]. by eapply validateParams_exit. }
  destruct (parseBody_exit route corsHeaders params req Hneutral)
    as [_ Hbody].
  destruct (parseBody _ _ _ _) as [body|r4|e4] eqn:H4; [| |done].
  2:{ intros [= <-]. by apply Hbody. }
  destruct (acquireDb _ _ _ _ _) as [db|r5|e5] eqn:H5; [| |done].
  2:{ intros [= <-]. by eapply acquireDb_exit. }
  destruct (authenticate _ _ _ _ _ _ _) as [auth|r6] eqn:H6; [done|].
  intros [= <-]. by eapply authenticate_exit.
Qed.

Lemma executeHandler_thrown route corsHeaders
    (context : Context TUser Client Db) error :
  neutral corsHeaders ->
  handler route context = Throw error ->
  (forall thrownResponse, error <> ThrownResponse thrownResponse) ->
  exists r,
    executeHandler normalizeNFKC stringifyError responseError headersImmutable
      route corsHeaders context
    = Return r
    /\ inline_response 500
         [sanitized normalizeNFKC (str "error")
            (messageOr (fun _ => str "Internal server error") error)] r.
Proof.
  intros Hneutral Hthrow Hnot. unfold executeHandler. rewrite Hthrow.
  destruct error as [e|thrownResponse|v];
    [| by destruct (Hnot thrownResponse) |];
    (eexists; split; [reflexivity | by apply errorResponse_inline]).
Qed.

Lemma executeHandler_immutable route corsHeaders
    (context : Context TUser Client Db) result :
  neutral corsHeaders ->
  handler route context = Return (ResultResponse result) ->
  immutableHeaders result = true ->
  corsHeaders <> [] ->
  exists r,
    executeHandler normalizeNFKC stringifyError responseError headersImmutable
      route corsHeaders context
    = Return r
    /\ inline_response 500
         [sanitized normalizeNFKC (str "error") (message headersImmutable)]
         r.
Proof.
  intros Hneutral Hreturn Himmutable Hcors. unfold executeHandler.
  rewrite Hreturn, (setHeaders_immutable _ _ _ Himmutable Hcors).
  eexists; split; [reflexivity | by apply errorResponse_inline].
Qed.

(** The CORS headers of a route are neutral when the plain headers it
    declares, if any, are: the default headers and the headers built from
    a configuration are all [Access-Control] headers. *)
Lemma corsHeadersOf_neutral route req allowedMethods corsHeaders :
  corsHeadersOf route req (defaultCorsOf allowedMethods) = Return corsHeaders ->
  (forall plain, Router.corsHeaders route = Some (PlainHeaders plain) ->
                 neutral plain) ->
  neutral corsHeaders.
Proof.
  unfold corsHeadersOf. destruct (Router.corsHeaders route) as [setting|].
  - intros Hbuilt Hplain. eapply buildCorsHeaders_neutral; [exact Hbuilt|].
    intros plain ->. by apply Hplain.
  - intros [= <-] _. apply defaultCorsOf_neutral.
Qed.

(** A request of the method OPTIONS that matches no route has no allowed
    method either. *)
Lemma matchRoute_loop_options_none pathname
    (routesToSearch : list (@CompiledRoute TRole TUser Client Db Event RegExp)) :
  matchRoute_loop decodeURIComponent regexExec OPTIONS pathname routesToSearch
  = None ->
  findMatchingRoutes regexExec pathname (LegacyArray routesToSearch) = [].
Proof.
  unfold findMatchingRoutes.
  induction routesToSearch as [|route rest IH];
    cbn [matchRoute_loop List.filter]; [done|].
  rewrite (bool_decide_eq_true_2 (OPTIONS = OPTIONS)) by done.
  cbn [negb]. rewrite andb_false_r.
  destruct (regexExec (regex route) pathname) as [captures|] eqn:Hexec;
    [done|].
  intros Hrest. rewrite bool_decide_eq_false_2 by (intros [? ?]; done).
  by apply IH.
Qed.

Lemma getAllowedMethods_options_none req :
  Http.method req = OPTIONS ->
  matchRoute decodeURIComponent regexExec (Http.method req) (pathname req)
    (Indexed compiledRoutes) = None ->
  getAllowedMethods regexExec (pathname req) (Indexed compiledRoutes) = [].
Proof.
  intros -> Hmatch. unfold matchRoute in Hmatch.
  rewrite bool_decide_eq_true_2 in Hmatch by done.
  apply matchRoute_loop_options_none in Hmatch.
  unfold getAllowedMethods, findMatchingRoutes in *. by rewrite Hmatch.
Qed.

Lemma requestHandler_not_found req :
  matchRoute decodeURIComponent regexExec (Http.method req) (pathname req)
    (Indexed compiledRoutes) = None ->
  requestHandler roleOf normalizeNFKC decodeURIComponent parseUrlEncoded
    valueToString stringifyError responseError headersImmutable regexExec
    config compiledRoutes req
  = (Fulfilled
       (notFoundResponse
          (defaultCorsOf
             (getAllowedMethods regexExec (pathname req)
                (Indexed compiledRoutes)))), []).
Proof.
  intros Hmatch. unfold requestHandler.
  case_bool_decide as Hmethod.
  - by rewrite (getAllowedMethods_options_none req Hmethod Hmatch).
  - by rewrite Hmatch.
Qed.

Lemma requestHandler_early_exit req route (params : record) corsHeaders r :
  Http.method req <> OPTIONS ->
  matchRoute decodeURIComponent regexExec (Http.method req) (pathname req)
    (Indexed compiledRoutes) = Some (route, params) ->
  corsHeadersOf route req
    (defaultCorsOf
       (getAllowedMethods regexExec (pathname req) (Indexed compiledRoutes)))
  = Return corsHeaders ->
  buildContext roleOf normalizeNFKC decodeURIComponent parseUrlEncoded
    valueToString headersImmutable config route params
    corsHeaders req = Answer r ->
  requestHandler roleOf normalizeNFKC decodeURIComponent parseUrlEncoded
    valueToString stringifyError responseError headersImmutable regexExec
    config compiledRoutes req
  = (Fulfilled r, []).
Proof.
  intros Hmethod Hmatch Hcors Hexit. unfold requestHandler.
  rewrite bool_decide_eq_false_2 by done. rewrite Hmatch, Hcors.
  by rewrite Hexit.
Qed.


End Stages.



End RouterFacts.

(** * Further properties *)

(** ** security/sanitizer.ts: control characters, headers, forms *)

Module SanitizerMore.
Import Constants Sanitizer SanitizerSpec SanitizerWords SanitizerFacts.

Lemma surrogates_not_control (c : N) :
  isHighSurrogate c || isLowSurrogate c = true -> isControlCharacter c = false.
Proof.
  unfold isHighSurrogate, isLowSurrogate, isControlCharacter.
  rewrite orb_true_iff, !andb_true_iff, !N.leb_le.
  intros H. apply orb_false_iff. split; apply andb_false_iff.
  - right. apply N.leb_gt. lia.
  - right. apply N.leb_gt. lia.
Qed.

Lemma characters_cons2 (c d : N) (rest : jsstring) :
  characters (c :: d :: rest)
  = if isHighSurrogate c && isLowSurrogate d
    then [c; d] :: characters rest
    else [c] :: characters (d :: rest).
Proof. reflexivity. Qed.

Lemma stripControlCharacters_fold (n : nat) :
  forall (value acc : jsstring),
    (length value <= n)%nat ->
    fold_left
      (fun result char =>
         if isControlCharacter (charCodeAt0 char) then result
         else result ++ char)
      (characters value) acc
    = acc ++ List.filter (fun c => negb (isControlCharacter c)) value.
Proof.
  induction n as [|n IH]; intros value acc Hlen.
  - destruct value; [|simpl in Hlen; lia]. simpl. by rewrite app_nil_r.
  - destruct value as [|c t]; [simpl; by rewrite app_nil_r|].
    destruct t as [|d rest].
    + simpl. destruct (isControlCharacter c); simpl; [by rewrite app_nil_r|done].
    + rewrite characters_cons2.
      destruct (isHighSurrogate c && isLowSurrogate d) eqn:Hpair.
      * apply andb_true_iff in Hpair as [Hc Hd].
        cbn [fold_left]. change (charCodeAt0 [c; d]) with c.
        rewrite (surrogates_not_control c) by (by rewrite Hc).
        rewrite IH by (simpl in Hlen; lia).
        cbn [List.filter].
        rewrite (surrogates_not_control c) by (by rewrite Hc).
        rewrite (surrogates_not_control d) by (rewrite Hd; apply orb_true_r).
        simpl. by rewrite <- app_assoc.
      * cbn [fold_left]. change (charCodeAt0 [c]) with c.
        rewrite IH by (simpl in Hlen; simpl; lia).
        cbn [List.filter].
        destruct (isControlCharacter c); simpl; [done|].
        by rewrite <- app_assoc.
Qed.

Lemma stripControlCharacters_filter (value : jsstring) :
  stripControlCharacters value
  = List.filter (fun c => negb (isControlCharacter c)) value.
Proof.
  unfold stripControlCharacters.
  by rewrite (stripControlCharacters_fold (length value) value []).
Qed.

(** X1.  [stripControlCharacters] drops exactly the code units that are
    control characters and keeps the others in order: that the loop runs
    over characters, surrogate pairs as one, and only looks at the first
    code unit of each makes no difference.  So its result holds no
    control character. *)
Theorem stripControlCharacters_filters (value : jsstring) :
  stripControlCharacters value
  = List.filter (fun c => negb (isControlCharacter c)) value
  /\ Forall (fun c => isControlCharacter c = false)
       (stripControlCharacters value).
Proof.
  split; [apply stripControlCharacters_filter|].
  rewrite stripControlCharacters_filter. apply Forall_forall. intros c Hc.
  apply list_elem_of_In, filter_In in Hc as [_ Hc]. by apply negb_true_iff.
Qed.


(** *** sanitizeErrorMessage, further *)

Lemma removeAll_ci_from_Forall (P : N -> Prop) (pattern : jsstring) :
  forall (s : jsstring) (skip : nat),
    Forall P s -> Forall P (removeAll_ci_from pattern skip s).
Proof.
  induction s as [|c t IH]; intros skip Hs; simpl; [constructor|].
  inversion Hs as [|? ? Hc Ht]; subst.
  destruct skip as [|k]; [|by apply IH].
  destruct (matchesAt_ci pattern (c :: t)); [by apply IH|].
  constructor; [done | by apply IH].
Qed.

Lemma filter_Forall_keep (P : N -> Prop) (f : N -> bool) (s : jsstring) :
  Forall P s -> Forall P (List.filter f s).
Proof.
  induction 1 as [|c t Hc Ht IH]; simpl; [constructor|].
  destruct (f c); [by constructor | done].
Qed.

Lemma filter_Forall_true (f : N -> bool) (s : jsstring) :
  Forall (fun c => f c = true) (List.filter f s).
Proof.
  apply Forall_forall. intros c Hc.
  by apply list_elem_of_In, filter_In in Hc as [_ Hc].
Qed.

Lemma escapeHtml_Forall (P : N -> Prop) (s : jsstring) :
  Forall (Forall P)
    [str "&amp;"; str "&lt;"; str "&gt;"; str "&quot;"; str "&#x27;";
     str "&#x2F;"] ->
  Forall P s -> Forall P (escapeHtml s).
Proof.
  intros Hlit Hs. unfold escapeHtml.
  repeat (apply replaceChar_Forall;
          [apply (proj1 (Forall_forall _ _) Hlit);
           repeat first [apply list_elem_of_here | apply list_elem_of_further] |]).
  done.
Qed.

(** X2.  Whatever its input and whatever the normalisation of the host
    does, the text [sanitizeErrorMessage] returns holds no control
    character and no zero-width character. *)
Theorem sanitizeErrorMessage_visible
    (normalizeNFKC : jsstring -> jsstring) (message : value) :
  Forall visible (sanitizeErrorMessage normalizeNFKC message).
Proof.
  assert (Hgeneric : Forall visible GENERIC_ERROR).
  { unfold GENERIC_ERROR. repeat (constructor; [by split|]). constructor. }
  destruct message; try exact Hgeneric.
  unfold sanitizeErrorMessage, slice0. apply Forall_take.
  apply escapeHtml_Forall.
  { repeat (constructor; [repeat (constructor; [by split|]); constructor|]).
    constructor. }
  do 4 apply removeAll_ci_from_Forall.
  unfold visible. apply Forall_and. split.
  - unfold stripZeroWidth. apply filter_Forall_keep.
    rewrite stripControlCharacters_filter.
    eapply Forall_impl; [apply filter_Forall_true|].
    intros c Hc. by apply negb_true_iff.
  - unfold stripZeroWidth.
    eapply Forall_impl; [apply filter_Forall_true|].
    intros c Hc. by apply negb_true_iff.
Qed.

Lemma filter_all (f : N -> bool) (s : jsstring) :
  Forall (fun c => f c = true) s -> List.filter f s = s.
Proof.
  induction 1 as [|c t Hc Ht IH]; simpl; [done|]. by rewrite Hc, IH.
Qed.

Lemma lower_unit_colon (c : N) : lower_unit c = 58%N -> c = 58%N.
Proof.
  unfold lower_unit.
  destruct ((65 <=? c)%N && (c <=? 90)%N) eqn:Hupper; [|done].
  apply andb_true_iff in Hupper as [H1 H2].
  apply N.leb_le in H1, H2. lia.
Qed.

(** A pattern that holds a colon matches nowhere in a text without one. *)
Lemma matchesAt_ci_no_colon (pattern : jsstring) :
  58%N ∈ pattern ->
  forall s, Forall (fun c => c <> 58%N) s -> matchesAt_ci pattern s = false.
Proof.
  induction pattern as [|p pattern IH]; intros Hin s Hs.
  - by apply not_elem_of_nil in Hin.
  - destruct s as [|c s]; [done|]. simpl.
    inversion Hs as [|? ? Hc Hs']; subst.
    apply elem_of_cons in Hin as [<-|Hin].
    + apply andb_false_iff. left. apply N.eqb_neq. intros Heq.
      change (lower_unit 58) with 58%N in Heq. symmetry in Heq.
      by apply lower_unit_colon in Heq.
    + apply andb_false_iff. right. by apply IH.
Qed.

Lemma removeAll_ci_no_colon (pattern s : jsstring) :
  58%N ∈ pattern -> Forall (fun c => c <> 58%N) s ->
  removeAll_ci pattern s = s.
Proof.
  intros Hin. unfold removeAll_ci.
  induction 1 as [|c t Hc Ht IH]; simpl; [done|].
  destruct pattern as [|p pattern]; [by apply not_elem_of_nil in Hin|].
  rewrite (matchesAt_ci_no_colon (p :: pattern) Hin (c :: t))
    by by constructor.
  by rewrite IH.
Qed.

Lemma replaceChar_absent (c : N) (replacement s : jsstring) :
  Forall (fun d => d <> c) s -> replaceChar c replacement s = s.
Proof.
  unfold replaceChar. induction 1 as [|d t Hd Ht IH]; simpl; [done|].
  destruct (N.eqb_spec d c); [done|]. simpl. by rewrite IH.
Qed.

Lemma isPlainChar_spec (c : N) :
  isPlainChar c = true ->
  isControlCharacter c = false /\ isZeroWidth c = false
  /\ c <> AMP /\ c <> LT /\ c <> GT /\ c <> DQUOTE /\ c <> SQUOTE
  /\ c <> SLASH /\ c <> 58%N.
Proof.
  unfold isPlainChar. rewrite !andb_true_iff, !negb_true_iff.
  rewrite bool_decide_eq_false. intros [[H1 H2] H3].
  split; [done|]. split; [done|].
  repeat split; intros ->; apply H3; set_solver.
Qed.

(** X3.  A message of at most 500 code units that the normalisation of
    the host leaves alone and that holds only plain characters (no
    control or zero-width character, none of the six escaped characters,
    no colon) is returned by [sanitizeErrorMessage] as it is. *)
Theorem sanitizeErrorMessage_plain
    (normalizeNFKC : jsstring -> jsstring) (message : jsstring) :
  normalizeNFKC message = message ->
  Forall (fun c => isPlainChar c = true) message ->
  (length message <= MAX_ERROR_MESSAGE_LENGTH)%nat ->
  sanitizeErrorMessage normalizeNFKC (VString message) = message.
Proof.
  intros Hnorm Hplain Hlen. unfold sanitizeErrorMessage. rewrite Hnorm.
  assert (Hall : forall (P : N -> Prop),
            (forall c, isPlainChar c = true -> P c) -> Forall P message).
  { intros P HP. eapply Forall_impl; [exact Hplain|]. exact HP. }
  rewrite stripControlCharacters_filter.
  rewrite filter_all.
  2:{ apply Hall. intros c Hc. apply isPlainChar_spec in Hc as (-> & _). done. }
  unfold stripZeroWidth. rewrite filter_all.
  2:{ apply Hall. intros c Hc. apply isPlainChar_spec in Hc as (_ & -> & _). done. }
  assert (Hcolon : Forall (fun c => c <> 58%N) message).
  { apply Hall. intros c Hc. apply isPlainChar_spec in Hc. tauto. }
  assert (Hremove : forall pattern, 58%N ∈ pattern ->
            removeAll_ci pattern message = message).
  { intros pattern Hin. by apply removeAll_ci_no_colon. }
  rewrite (Hremove (str "javascript:")), (Hremove (str "data:")),
    (Hremove (str "vbscript:")), (Hremove (str "file:"))
    by (repeat first [apply list_elem_of_here | apply list_elem_of_further]).
  assert (Hreplace : forall c replacement,
            c ∈ [AMP; LT; GT; DQUOTE; SQUOTE; SLASH] ->
            replaceChar c replacement message = message).
  { intros c replacement Hc. apply replaceChar_absent, Hall.
    intros d Hd ->. apply isPlainChar_spec in Hd.
    set_unfold. intuition congruence. }
  unfold escapeHtml.
  rewrite (Hreplace AMP), (Hreplace LT), (Hreplace GT), (Hreplace DQUOTE),
    (Hreplace SQUOTE), (Hreplace SLASH)
    by (repeat first [apply list_elem_of_here | apply list_elem_of_further]).
  unfold slice0. by apply firstn_all2.
Qed.

Lemma sanitizeErrorMessage_plain_witness :
  sanitizeErrorMessage (fun s => s) (VString (str "User role not found"))
  = str "User role not found".
Proof.
  apply (sanitizeErrorMessage_plain (fun s => s) (str "User role not found")).
  - reflexivity.
  - repeat (constructor; [reflexivity|]). constructor.
  - vm_compute. lia.
Defined.

(** *** parseFormDataSafely *)

Lemma dangerous_set_spec (key : jsstring) :
  key ∈ DANGEROUS_QUERY_KEYS_SET <-> key ∈ DANGEROUS_QUERY_KEYS.
Proof. unfold DANGEROUS_QUERY_KEYS_SET. apply elem_of_list_to_set. Qed.

Lemma keys_fresh_cons (key : jsstring) (seen : gset jsstring)
    (rest : FormData) :
  Forall (fun entry => fst entry ∉ {[ key ]} ∪ seen) rest
  <-> ~ In key (map fst rest) /\ Forall (fun entry => fst entry ∉ seen) rest.
Proof.
  induction rest as [|[k v] rest IH]; simpl.
  - split; [intros _; split; [tauto | constructor] | constructor].
  - rewrite !Forall_cons, IH. simpl. set_unfold. intuition congruence.
Qed.

Lemma form_value_absent (formData : FormData) (key : jsstring) :
  ~ In key (map fst formData) -> form_value formData key = None.
Proof.
  unfold form_value. induction formData as [|[k v] rest IH]; simpl; [done|].
  intros Hnot. case_bool_decide; [tauto|]. apply IH. tauto.
Qed.

Lemma form_value_cons (k key : jsstring) (v : FormDataEntryValue)
    (rest : FormData) :
  form_value ((k, v) :: rest) key
  = if bool_decide (k = key) then Some v else form_value rest key.
Proof. unfold form_value. simpl. by case_bool_decide. Qed.

(** The loop returns exactly when no key of the remaining entries repeats
    or was seen before, and none of them is an oversized file. *)
Lemma parseFormDataSafely_loop_returns (maxFileSize : N) :
  forall (entries : FormData) (seen : gset jsstring)
         (result : object FormDataEntryValue),
    (exists o, parseFormDataSafely_loop entries maxFileSize seen result
               = Return o)
    <-> NoDup (map fst entries)
        /\ Forall (fun entry => fst entry ∉ seen) entries
        /\ Forall (fun entry => ~ oversized maxFileSize entry) entries.
Proof.
  induction entries as [|[key value] rest IH]; intros seen result.
  - simpl. split; [|by eexists].
    intros _. split; [apply NoDup_nil_2|]. split; constructor.
  - cbn [parseFormDataSafely_loop map fst].
    rewrite NoDup_cons, !Forall_cons, list_elem_of_In. cbn [fst].
    case_bool_decide as Hseen.
    { split; [by intros [o Ho] | tauto]. }
    assert (Hrest : forall result',
      (exists o, parseFormDataSafely_loop rest maxFileSize
                   ({[ key ]} ∪ seen) result' = Return o)
      <-> (~ In key (map fst rest) /\ NoDup (map fst rest))
          /\ Forall (fun entry => fst entry ∉ seen) rest
          /\ Forall (fun entry => ~ oversized maxFileSize entry) rest).
    { intros result'. rewrite IH, keys_fresh_cons. tauto. }
    case_bool_decide as Hdanger.
    { rewrite Hrest. apply dangerous_set_spec in Hdanger.
      assert (Hhead : ~ oversized maxFileSize (key, value))
        by (by intros [Hsafe _]).
      tauto. }
    assert (Hsafe : key ∉ DANGEROUS_QUERY_KEYS)
      by (by rewrite <- dangerous_set_spec).
    destruct value as [s|f].
    + rewrite Hrest.
      assert (Hhead : ~ oversized maxFileSize (key, FormString s))
        by (by intros (_ & f & Hf & _)).
      tauto.
    + destruct (N.ltb_spec maxFileSize (file_size f)) as [Hlarge|Hsmall].
      * split; [by intros [o Ho]|]. intros (_ & _ & Hhead & _).
        exfalso. apply Hhead. split; [done|]. by exists f.
      * rewrite Hrest.
        assert (Hhead : ~ oversized maxFileSize (key, FormFile f)).
        { intros (_ & f' & Hf & Hlarge). injection Hf as <-. lia. }
        tauto.
Qed.

(** What the loop returns has the prototype it started with, and under
    every key the value of the entry of that key, or, for a dropped key
    or a key without entry, what was there before. *)
Lemma parseFormDataSafely_loop_lookup (maxFileSize : N) :
  forall (entries : FormData) (seen : gset jsstring)
         (result o : object FormDataEntryValue),
    parseFormDataSafely_loop entries maxFileSize seen result = Return o ->
    proto o = proto result
    /\ forall key,
         own o !! key
         = if bool_decide (key ∈ DANGEROUS_QUERY_KEYS) then own result !! key
           else match form_value entries key with
                | Some v => Some v
                | None => own result !! key
                end.
Proof.
  induction entries as [|[k v] rest IH]; intros seen result o Hloop.
  - simpl in Hloop. injection Hloop as <-. split; [done|].
    intros key. by case_bool_decide.
  - assert (Hfresh : ~ In k (map fst rest)).
    { assert (Hreturns : exists o', parseFormDataSafely_loop ((k, v) :: rest)
                                      maxFileSize seen result = Return o')
        by by exists o.
      apply parseFormDataSafely_loop_returns in Hreturns as (Hnodup & _).
      cbn [map fst] in Hnodup. apply NoDup_cons in Hnodup as [Hk _].
      by rewrite <- list_elem_of_In. }
    cbn [parseFormDataSafely_loop] in Hloop.
    case_bool_decide as Hseen; [done|].
    case_bool_decide as Hdanger.
    { apply IH in Hloop as [Hproto Hown]. split; [done|].
      intros key. rewrite Hown, form_value_cons.
      apply dangerous_set_spec in Hdanger.
      case_bool_decide; [done|].
      case_bool_decide as Hkey; [by subst|done]. }
    assert (Hset : parseFormDataSafely_loop rest maxFileSize
                     ({[ k ]} ∪ seen) (set_property k v result) = Return o).
    { destruct v as [s|f]; [done|].
      by destruct (maxFileSize <? file_size f)%N. }
    apply IH in Hset as [Hproto Hown]. split; [done|].
    intros key. rewrite Hown, form_value_cons. cbn [set_property own].
    case_bool_decide as Hkeydanger.
    + apply lookup_insert_ne. intros ->.
      by apply Hdanger, dangerous_set_spec.
    + case_bool_decide as Hkey.
      * subst key. rewrite form_value_absent by done.
        apply lookup_insert_eq.
      * destruct (form_value rest key); [done|].
        by apply lookup_insert_ne.
Qed.

(** X4.  [parseFormDataSafely] returns exactly when no key of the form
    repeats and no file kept exceeds the bound (otherwise it throws); what
    it returns has no prototype, nothing under a dangerous key, and under
    any other key the value of the form's entry of that key. *)
Theorem parseFormDataSafely_returns_exactly_when
    (formData : FormData) (maxFileSize : N) :
  ((exists o, parseFormDataSafely formData maxFileSize = Return o)
   <-> NoDup (map fst formData)
       /\ Forall (fun entry => ~ oversized maxFileSize entry) formData)
  /\ (forall o, parseFormDataSafely formData maxFileSize = Return o ->
        proto o = NullPrototype
        /\ forall key,
             own o !! key
             = if bool_decide (key ∈ DANGEROUS_QUERY_KEYS) then None
               else form_value formData key).
Proof.
  unfold parseFormDataSafely. split.
  - rewrite parseFormDataSafely_loop_returns.
    split; [tauto|]. intros [Hnodup Hsizes]. repeat split; try done.
    apply Forall_forall. intros entry _. apply not_elem_of_empty.
  - intros o Hreturn.
    apply parseFormDataSafely_loop_lookup in Hreturn as [Hproto Hown].
    split; [done|]. intros key. rewrite Hown. cbn [Object_create_null own].
    rewrite lookup_empty. case_bool_decide; [done|].
    by destruct (form_value formData key).
Qed.

Lemma parseFormDataSafely_returns_exactly_when_witness :
  exists o, parseFormDataSafely example_form 100 = Return o
            /\ proto o = NullPrototype
            /\ own o !! str "__proto__" = None
            /\ own o !! str "avatar" = Some (FormFile (mkFile 10)).
Proof.
  eexists. split; [reflexivity|].
  destruct (proj2 (parseFormDataSafely_returns_exactly_when example_form 100)
              _ eq_refl) as [Hproto Hown].
  split; [exact Hproto|]. split.
  - apply (Hown (str "__proto__")).
  - apply (Hown (str "avatar")).
Defined.

(** *** sanitizeHeaderValue, isValidHeaderName, sanitizeHeaderList *)

(** X5.  What [sanitizeHeaderValue] returns holds no carriage return and
    no line feed, so it cannot end a header line; a value without either
    is returned as it is. *)
Theorem sanitizeHeaderValue_no_line_break (value : jsstring) :
  Forall no_line_break (sanitizeHeaderValue value)
  /\ (Forall no_line_break value -> sanitizeHeaderValue value = value).
Proof.
  unfold sanitizeHeaderValue. split.
  - eapply Forall_impl; [apply filter_Forall_true|].
    intros c Hc. apply negb_true_iff, orb_false_iff in Hc as [H13 H10].
    apply N.eqb_neq in H13, H10. by split.
  - intros Hclean. apply filter_all.
    eapply Forall_impl; [exact Hclean|].
    intros c [H13 H10]. apply negb_true_iff, orb_false_iff.
    by split; apply N.eqb_neq.
Qed.

Lemma sanitizeHeaderValue_no_line_break_witness :
  sanitizeHeaderValue (str "application/json") = str "application/json".
Proof.
  apply (proj2 (sanitizeHeaderValue_no_line_break (str "application/json"))).
  repeat (constructor; [split; (vm_compute; lia)|]). constructor.
Defined.

Lemma join_Forall (P : N -> Prop) (separator : jsstring)
    (parts : list jsstring) :
  Forall P separator -> Forall (Forall P) parts ->
  Forall P (join separator parts).
Proof.
  intros Hsep. induction 1 as [|part rest Hpart Hrest IH]; [constructor|].
  cbn [join]. destruct rest as [|next rest']; [done|].
  apply Forall_app. split; [done|]. apply Forall_app. by split.
Qed.

Lemma isValidHeaderName_spec (name : jsstring) :
  isValidHeaderName name = true
  <-> name <> [] /\ Forall (fun c => isHeaderNameChar c = true) name.
Proof.
  unfold isValidHeaderName. destruct name as [|c name].
  - split; [done | by intros [? _]].
  - rewrite forallb_forall, Forall_forall.
    setoid_rewrite list_elem_of_In. split; [by intros H; split | tauto].
Qed.

(** X6.  [isValidHeaderName] accepts exactly the non-empty names made of
    ASCII letters, digits and hyphens, and the list [sanitizeHeaderList]
    returns is made of such characters, commas and spaces only: it holds
    no line break whatever names it is given. *)
Theorem sanitizeHeaderList_safe (headers : list jsstring) :
  Forall (fun c => isHeaderListChar c = true) (sanitizeHeaderList headers)
  /\ Forall no_line_break (sanitizeHeaderList headers).
Proof.
  assert (Hchars : Forall (fun c => isHeaderListChar c = true)
                     (sanitizeHeaderList headers)).
  { unfold sanitizeHeaderList. apply join_Forall.
    - repeat (constructor; [reflexivity|]). constructor.
    - apply Forall_forall. intros name Hname.
      apply list_elem_of_In, filter_In in Hname as [_ Hvalid].
      apply isValidHeaderName_spec in Hvalid as [_ Hvalid].
      eapply Forall_impl; [exact Hvalid|].
      intros c Hc. unfold isHeaderListChar. by rewrite Hc. }
  split; [done|].
  eapply Forall_impl; [exact Hchars|].
  intros c Hc. split; intros ->; done.
Qed.

End SanitizerMore.
(** ** routing/params-validator.ts, routing/compiler.ts, routing/matcher.ts *)

Module RoutingMore.
Import Constants ParamsValidator Compiler Router RouteCompiler RoutingSpec
  RoutingWords RoutingFacts.

(** *** The scanner and compileRoute *)

Lemma validatePathSafety_returns (path : jsstring) :
  validatePathSafety path = Return tt <-> ~ unsafe_pattern path.
Proof.
  split.
  - intros Hreturn Hunsafe.
    destruct (validatePathSafety_throws path Hunsafe) as [e He].
    by rewrite He in Hreturn.
  - intros Hsafe. unfold validatePathSafety, unsafe_pattern in *.
    destruct (includes path (str "..")) eqn:E1.
    { apply includes_spec in E1. tauto. }
    destruct (includes (toLowerCase path) (str "%2e%2e")) eqn:E2.
    { apply includes_toLowerCase_spec in E2; [tauto | done]. }
    destruct (includes path [0%N]) eqn:E3; [|done].
    apply includes_spec in E3. tauto.
Qed.

Lemma extractParamNames_returns (path : jsstring) (params : list jsstring) :
  extractParamNames path = Return params
  <-> NoDup (paramMatches path) /\ params = paramMatches path.
Proof.
  unfold extractParamNames.
  destruct (extractParamNames_loop_spec (paramMatches path) []
              (paramMatches_valid path) (NoDup_nil_2 (A:=jsstring)))
    as [[Hnodup ->] | [Hdup [name ->]]]; simpl in *.
  - split; [by intros [= <-] | by intros [_ ->]].
  - split; [done | tauto].
Qed.

Section Compile.

Context {RegExp : Type}.
Variable newRegExp : jsstring -> option RegExp.

(** X7.  [compileRoute] returns exactly for the paths that are no unsafe
    pattern, name no parameter twice and whose anchored pattern the
    regular-expression constructor accepts; it then answers the
    expression of that pattern and the parameter names in the order they
    occur. *)
Theorem compileRoute_returns_exactly_when
    (path : jsstring) (regex : RegExp) (params : list jsstring) :
  compileRoute RegExp newRegExp path = Return (regex, params)
  <-> ~ unsafe_pattern path
      /\ NoDup (paramMatches path)
      /\ params = paramMatches path
      /\ newRegExp (str "^" ++ safePattern path ++ str "$") = Some regex.
Proof.
  unfold compileRoute.
  destruct (validatePathSafety path) as [[]|e] eqn:Hsafe.
  2:{ split; [done|]. intros [Hpath _].
      apply validatePathSafety_returns in Hpath. by rewrite Hpath in Hsafe. }
  apply validatePathSafety_returns in Hsafe.
  destruct (extractParamNames path) as [names|e] eqn:Hnames.
  2:{ split; [done|]. intros (_ & Hnodup & _ & _).
      assert (Hreturns : extractParamNames path
                         = Return (paramMatches path))
        by by apply extractParamNames_returns.
      by rewrite Hreturns in Hnames. }
  apply extractParamNames_returns in Hnames as [Hnodup ->].
  destruct (newRegExp _) as [re|].
  - split; [by intros [= <- <-] | by intros (_ & _ & -> & [= <-])].
  - split; [done | by intros (_ & _ & _ & ?)].
Qed.

End Compile.

Lemma compileRoute_returns_exactly_when_witness :
  compileRoute jsstring Some (str "/users/:userId/posts/:postId")
  = Return (str "^/users/([a-zA-Z0-9_%.='\-]{1,200})/posts/([a-zA-Z0-9_%.='\-]{1,200})$",
            [str "userId"; str "postId"]).
Proof.
  apply (proj2 (compileRoute_returns_exactly_when Some
                  (str "/users/:userId/posts/:postId") _ _)).
  split; [|split; [|split]].
  - apply validatePathSafety_returns. reflexivity.
  - exact (proj1 (proj1 (extractParamNames_returns
                            (str "/users/:userId/posts/:postId")
                            [str "userId"; str "postId"]) eq_refl)).
  - reflexivity.
  - reflexivity.
Defined.

Lemma scanParams_render (path : jsstring) :
  forall current,
    render (scanParams current path)
    = match current with
      | Some name => COLON :: name ++ path
      | None => path
      end.
Proof.
  assert (Hopen : forall c t,
            (forall current,
               render (scanParams current t)
               = match current with
                 | Some name => COLON :: name ++ t
                 | None => t
                 end) ->
            render (if opensParam c t then scanParams (Some []) t
                    else Text c :: scanParams None t) = c :: t).
  { intros c t IH. destruct (opensParam c t) eqn:Hopens.
    - rewrite (IH (Some [])). unfold opensParam in Hopens.
      apply andb_true_iff in Hopens as [Hc _].
      apply N.eqb_eq in Hc. by subst.
    - change (render (Text c :: scanParams None t))
        with (c :: render (scanParams None t)).
      by rewrite (IH None). }
  induction path as [|c t IH]; intros [name|].
  - simpl. by rewrite !app_nil_r.
  - done.
  - cbn [scanParams]. destruct (PATH_PARAM_NAME_REST c).
    + rewrite (IH (Some (name ++ [c]))). by rewrite <- app_assoc.
    + change (render (ParamMatch name :: ?rest))
        with (COLON :: name ++ render rest).
      by rewrite (Hopen c t IH).
  - cbn [scanParams]. by apply Hopen.
Qed.

(** X8.  The scan behind [extractParamNames] and [compileRoute] loses
    nothing of a path: writing every match back as a colon and its name
    gives the path again.  A path without a colon therefore goes into the
    pattern as it is, regular-expression characters included. *)
Theorem scanParams_round_trip (path : jsstring) :
  render (scanParams None path) = path
  /\ (COLON ∉ path -> paramMatches path = [] /\ safePattern path = path).
Proof.
  split; [apply (scanParams_render path None)|].
  intros Hcolon. unfold paramMatches, safePattern.
  assert (Hscan : scanParams None path = map Text path).
  { induction path as [|c t IH]; [done|]. cbn [scanParams].
    apply not_elem_of_cons in Hcolon as [Hc Ht].
    unfold opensParam. destruct (N.eqb_spec c COLON) as [->|_]; [done|].
    simpl. by rewrite IH. }
  rewrite Hscan. split.
  - clear. by induction path.
  - clear. induction path as [|c t IH]; [done|]. simpl. by rewrite IH.
Qed.

Lemma scanParams_round_trip_witness :
  paramMatches (str "/v1.0/users") = []
  /\ safePattern (str "/v1.0/users") = str "/v1.0/users".
Proof.
  apply (proj2 (scanParams_round_trip (str "/v1.0/users"))).
  apply (bool_decide_unpack _). vm_compute. exact I.
Defined.

(** *** matchRoute, findMatchingRoutes, getAllowedMethods *)

Lemma distinct_fold (items : list jsstring) :
  forall seen,
    NoDup seen ->
    let result :=
      fold_left (fun seen item => if bool_decide (item ∈ seen) then seen
                                  else seen ++ [item]) items seen in
    NoDup result /\ forall x, x ∈ result <-> x ∈ seen \/ x ∈ items.
Proof.
  induction items as [|item rest IH]; intros seen Hnodup; cbn zeta.
  - split; [done|]. intros x. rewrite elem_of_nil. tauto.
  - cbn [fold_left]. case_bool_decide as Hin.
    + destruct (IH seen Hnodup) as [Hnd Hmem]. split; [done|].
      intros x. rewrite Hmem, elem_of_cons.
      split; [tauto|]. intros [H|[->|H]]; tauto.
    + assert (Hnodup' : NoDup (seen ++ [item])).
      { apply NoDup_app. split; [done|]. split; [|apply NoDup_singleton].
        intros x Hx Hx'. apply list_elem_of_singleton in Hx'. by subst. }
      destruct (IH (seen ++ [item]) Hnodup') as [Hnd Hmem]. split; [done|].
      intros x. rewrite Hmem, elem_of_app, list_elem_of_singleton, elem_of_cons.
      tauto.
Qed.

Lemma distinct_spec (items : list jsstring) :
  NoDup (distinct items) /\ forall x, x ∈ distinct items <-> x ∈ items.
Proof.
  destruct (distinct_fold items [] (NoDup_nil_2 (A:=jsstring)))
    as [Hnd Hmem].
  split; [exact Hnd|]. intros x.
  unfold distinct. rewrite Hmem, elem_of_nil. tauto.
Qed.

Section Matcher.

Context {TRole TUser Client Db Event RegExp : Type}.
Variable regexExec : RegExp -> jsstring -> option (list jsstring).

Lemma findMatchingRoutes_spec (pathname : jsstring)
    (data : @RoutesInput TRole TUser Client Db Event RegExp)
    (route : @CompiledRoute TRole TUser Client Db Event RegExp) :
  route ∈ findMatchingRoutes regexExec pathname data
  <-> route ∈ routesOf data /\ matches regexExec pathname route.
Proof.
  unfold findMatchingRoutes, matches.
  rewrite !list_elem_of_In, filter_In, bool_decide_eq_true.
  by destruct data.
Qed.

(** X9.  [getAllowedMethods] lists no method twice, and lists a method
    exactly when the pattern of some route matches the pathname and the
    method is that route's or is OPTIONS: it is empty exactly when no
    pattern matches. *)
Theorem getAllowedMethods_exactly
    (pathname : jsstring)
    (data : @RoutesInput TRole TUser Client Db Event RegExp) :
  NoDup (getAllowedMethods regexExec pathname data)
  /\ forall requestMethod,
       requestMethod ∈ getAllowedMethods regexExec pathname data
       <-> exists route, route ∈ routesOf data
                         /\ answers regexExec requestMethod pathname route.
Proof.
  unfold getAllowedMethods, answers. cbv zeta.
  set (found := findMatchingRoutes regexExec pathname data).
  destruct (distinct_spec (map method found)) as [Hnd Hmem].
  assert (Hmethods : forall m,
            m ∈ distinct (map method found)
            <-> exists route, route ∈ routesOf data
                              /\ method route = m
                              /\ matches regexExec pathname route).
  { intros m. rewrite Hmem, list_elem_of_In, in_map_iff. split.
    - intros (route & <- & Hroute).
      apply list_elem_of_In, findMatchingRoutes_spec in Hroute.
      exists route. tauto.
    - intros (route & Hroute & <- & Hmatch). exists route.
      split; [done|]. apply list_elem_of_In, findMatchingRoutes_spec.
      tauto. }
  destruct (0 <? length (distinct (map method found)))%nat eqn:Hsize.
  - destruct (distinct_spec (distinct (map method found) ++ [OPTIONS]))
      as [Hnd' Hmem'].
    split; [done|]. intros m.
    rewrite Hmem', elem_of_app, list_elem_of_singleton, Hmethods. split.
    + intros [(route & Hroute & <- & Hmatch) | ->].
      * exists route. tauto.
      * apply Nat.ltb_lt in Hsize.
        destruct (distinct (map method found)) as [|m' rest];
          [simpl in Hsize; lia|].
        assert (Hm' : m' ∈ m' :: rest) by apply list_elem_of_here.
        apply Hmethods in Hm' as (route & Hroute & _ & Hmatch).
        exists route. tauto.
    + intros (route & Hroute & [<- | ->] & Hmatch).
      * left. by exists route.
      * by right.
  - split; [done|]. intros m. rewrite Hmethods. split.
    + intros (route & Hroute & <- & Hmatch). exists route. tauto.
    + intros (route & Hroute & _ & Hmatch).
      apply Nat.ltb_ge in Hsize.
      assert (Hin : method route ∈ distinct (map method found)).
      { apply Hmethods. by exists route. }
      destruct (distinct (map method found)); [|simpl in Hsize; lia].
      by apply elem_of_nil in Hin.
Qed.

Variable decodeURIComponent : jsstring -> option jsstring.

Lemma matchRoute_loop_none (requestMethod pathname : jsstring)
    (routes : list (@CompiledRoute TRole TUser Client Db Event RegExp)) :
  matchRoute_loop decodeURIComponent regexExec requestMethod pathname routes
  = None
  <-> Forall (fun route => ~ answers regexExec requestMethod pathname route)
        routes.
Proof.
  unfold answers, matches.
  induction routes as [|route rest IH]; [by split; [constructor|]|].
  cbn [matchRoute_loop]. rewrite Forall_cons.
  case_bool_decide as Hmethod; case_bool_decide as Hoptions;
    cbn [negb andb];
    try (destruct (regexExec (regex route) pathname) as [captures|] eqn:Hexec;
         [split; [done|]; intros [Hnot _]; exfalso; apply Hnot;
          split; [tauto | by eexists]
         | rewrite IH; split; [|tauto]; intros Hrest; split; [|done];
           by intros [_ [? ?]]]).
  rewrite IH. split; [|tauto]. intros Hrest. split; [|done]. tauto.
Qed.

(** X10.  [matchRoute] over an array of routes answers the first route,
    in the order of the array, whose method is the requested one (or any,
    for OPTIONS) and whose pattern matches the pathname, with the
    parameters extracted from that match; it answers [null] exactly when
    there is no such route. *)
Theorem matchRoute_first_match
    (requestMethod pathname : jsstring)
    (routes : list (@CompiledRoute TRole TUser Client Db Event RegExp)) :
  (matchRoute decodeURIComponent regexExec requestMethod pathname
     (LegacyArray routes) = None
   <-> Forall (fun route => ~ answers regexExec requestMethod pathname route)
         routes)
  /\ forall route parameters,
       matchRoute decodeURIComponent regexExec requestMethod pathname
         (LegacyArray routes) = Some (route, parameters) ->
       exists before after captures,
         routes = before ++ route :: after
         /\ Forall (fun earlier =>
                      ~ answers regexExec requestMethod pathname earlier)
              before
         /\ (method route = requestMethod \/ requestMethod = OPTIONS)
         /\ regexExec (regex route) pathname = Some captures
         /\ parameters
            = extractParams decodeURIComponent (params route) captures.
Proof.
  unfold matchRoute. split; [apply matchRoute_loop_none|].
  induction routes as [|first rest IH]; intros route parameters Hmatch;
    [done|].
  cbn [matchRoute_loop] in Hmatch.
  assert (Hskip :
    ~ answers regexExec requestMethod pathname first ->
    matchRoute_loop decodeURIComponent regexExec requestMethod pathname rest
    = Some (route, parameters) ->
    exists before after captures,
      first :: rest = before ++ route :: after
      /\ Forall (fun earlier =>
                   ~ answers regexExec requestMethod pathname earlier) before
      /\ (method route = requestMethod \/ requestMethod = OPTIONS)
      /\ regexExec (regex route) pathname = Some captures
      /\ parameters = extractParams decodeURIComponent (params route) captures).
  { intros Hfirst Hrest.
    destruct (IH route parameters Hrest)
      as (before & after & captures & -> & Hbefore & Hrest').
    exists (first :: before), after, captures.
    split; [done|]. split; [by constructor | done]. }
  destruct (negb (bool_decide (method first = requestMethod))
            && negb (bool_decide (requestMethod = OPTIONS))) eqn:Hother.
  { apply Hskip; [|done].
    apply andb_true_iff in Hother as [H1 H2].
    apply negb_true_iff, bool_decide_eq_false in H1, H2.
    intros [[?|?] _]; tauto. }
  destruct (regexExec (regex first) pathname) as [captures|] eqn:Hexec.
  - injection Hmatch as <- <-.
    exists [], rest, captures. split; [done|]. split; [constructor|].
    split; [|done].
    apply andb_false_iff in Hother as [H|H];
      apply negb_false_iff, bool_decide_eq_true in H; tauto.
  - apply Hskip; [|done]. intros [_ Hsome]. unfold matches in Hsome.
    rewrite Hexec in Hsome. by destruct Hsome.
Qed.

(** *** compileRoutes *)

Lemma indexByMethod_fold (requestMethod : jsstring)
    (routes : list (@CompiledRoute TRole TUser Client Db Event RegExp)) :
  forall routesByMethod,
    default [] (fold_left indexByMethod_step routes routesByMethod
                !! requestMethod)
    = default [] (routesByMethod !! requestMethod)
      ++ List.filter (fun route => bool_decide (method route = requestMethod))
           routes.
Proof.
  induction routes as [|route rest IH]; intros routesByMethod.
  - simpl. by rewrite app_nil_r.
  - cbn [fold_left List.filter]. rewrite IH. unfold indexByMethod_step.
    destruct (decide (method route = requestMethod)) as [Hmethod|Hmethod].
    + rewrite (bool_decide_eq_true_2 (method route = requestMethod)) by done.
      rewrite <- Hmethod, lookup_insert_eq. cbn [default from_option id].
      rewrite <- app_assoc. cbn [app]. f_equal.
      case_bool_decide as Hsome; [done|].
      rewrite lookup_insert_eq.
      apply eq_None_not_Some in Hsome. by rewrite Hsome.
    + rewrite (bool_decide_eq_false_2 (method route = requestMethod)) by done.
      rewrite lookup_insert_ne by done.
      case_bool_decide; [done|].
      by rewrite lookup_insert_ne.
Qed.

Lemma matchRoute_loop_filter (requestMethod pathname : jsstring)
    (routes : list (@CompiledRoute TRole TUser Client Db Event RegExp)) :
  requestMethod <> OPTIONS ->
  matchRoute_loop decodeURIComponent regexExec requestMethod pathname
    (List.filter (fun route => bool_decide (method route = requestMethod))
       routes)
  = matchRoute_loop decodeURIComponent regexExec requestMethod pathname
      routes.
Proof.
  intros Hoptions. induction routes as [|route rest IH]; [done|].
  cbn [List.filter matchRoute_loop].
  rewrite (bool_decide_eq_false_2 (requestMethod = OPTIONS)) by done.
  case_bool_decide as Hmethod; cbn [negb andb]; [|done].
  cbn [matchRoute_loop].
  rewrite (bool_decide_eq_true_2 (method route = requestMethod)) by done.
  cbn [negb andb]. by rewrite IH.
Qed.

Section Compiled.

Variable newRegExp : jsstring -> option RegExp.

Lemma compileRoutes_map_spec (basePath : jsstring)
    (defs : list (RouteDef TRole TUser Client Db Event)) :
  forall compiledRoutes,
    compileRoutes_map newRegExp basePath defs = Return compiledRoutes
    <-> Forall2
          (fun def route =>
             exists regex params,
               compileRoute RegExp newRegExp (fullPathOf basePath def)
               = Return (regex, params)
               /\ route = compiled def regex params)
          defs compiledRoutes.
Proof.
  induction defs as [|def rest IH]; intros compiledRoutes.
  - simpl. split; [intros [= <-]; constructor|].
    intros H. by inversion H.
  - cbn [compileRoutes_map].
    destruct (compileRoute RegExp newRegExp (fullPathOf basePath def))
      as [[regex params]|e] eqn:Hcompile.
    + destruct (compileRoutes_map newRegExp basePath rest)
        as [others|e] eqn:Hrest.
      * split.
        -- intros [= <-]. constructor; [by exists regex, params|].
           by apply IH.
        -- intros H. inversion H as [|? route ? routes' Hhead Htail]; subst.
           destruct Hhead as (regex' & params' & Hc & ->).
           rewrite Hcompile in Hc. injection Hc as <- <-.
           apply IH in Htail. by injection Htail as <-.
      * split; [done|].
        intros H. inversion H as [|? route ? routes' Hhead Htail]; subst.
        by apply IH in Htail.
    + split; [done|].
      intros H. inversion H as [|? route ? routes' Hhead Htail]; subst.
      destruct Hhead as (regex' & params' & Hc & _).
      by rewrite Hcompile in Hc.
Qed.

(** X11.  [compileRoutes] returns exactly when [compileRoute] returns for
    the full path of every definition (the base path without a trailing
    slash, then the path of the route); the table then holds one route
    per definition, in the same order, with the definition's own fields
    and the expression and parameter names of its full path.  A single
    unsafe full path therefore leaves no table at all. *)
Theorem compileRoutes_returns_exactly_when
    (basePath : jsstring)
    (defs : list (RouteDef TRole TUser Client Db Event))
    (data : @CompiledRoutesData TRole TUser Client Db Event RegExp) :
  (compileRoutes newRegExp basePath defs = Return data
   <-> Forall2
         (fun def route =>
            exists regex params,
              compileRoute RegExp newRegExp (fullPathOf basePath def)
              = Return (regex, params)
              /\ route = compiled def regex params)
         defs (routes data)
       /\ routesByMethod data = indexByMethod (routes data))
  /\ (Exists (fun def => unsafe_pattern (fullPathOf basePath def)) defs ->
      throws (compileRoutes newRegExp basePath defs)).
Proof.
  assert (Hiff :
    compileRoutes newRegExp basePath defs = Return data
    <-> Forall2
          (fun def route =>
             exists regex params,
               compileRoute RegExp newRegExp (fullPathOf basePath def)
               = Return (regex, params)
               /\ route = compiled def regex params)
          defs (routes data)
        /\ routesByMethod data = indexByMethod (routes data)).
  { rewrite <- compileRoutes_map_spec. unfold compileRoutes.
    destruct (compileRoutes_map newRegExp basePath defs) as [compiledRoutes|e].
    - split.
      + by intros [= <-].
      + intros [[= ->] Hindex]. destruct data as [rs index].
        simpl in *. by subst.
    - split; [done | by intros [? _]]. }
  split; [exact Hiff|].
  intros Hunsafe.
  destruct (compileRoutes newRegExp basePath defs) as [table|e] eqn:Hresult;
    [|by exists e].
  exfalso.
  assert (Hall : exists table',
            compileRoutes_map newRegExp basePath defs = Return table').
  { unfold compileRoutes in Hresult.
    destruct (compileRoutes_map newRegExp basePath defs); [by eexists|done]. }
  destruct Hall as [table' Hmap].
  apply compileRoutes_map_spec in Hmap.
  clear Hresult Hiff. induction Hmap as [|def route ds rs Hhead Htail IH].
  - by inversion Hunsafe.
  - inversion Hunsafe as [? ? Hdef|? ? Hrest]; subst; [|by apply IH].
    destruct Hhead as (regex & params & Hcompile & _).
    apply validatePathSafety_throws in Hdef as [e Hdef].
    unfold compileRoute in Hcompile. by rewrite Hdef in Hcompile.
Qed.

(** X12.  On a table built by [compileRoutes], and on any table whose
    index is the one [compileRoutes] builds from its routes, searching by
    the method index finds what searching the whole array finds: the
    index changes no answer of [matchRoute]. *)
Theorem matchRoute_index_agrees
    (data : @CompiledRoutesData TRole TUser Client Db Event RegExp)
    (requestMethod pathname : jsstring) :
  routesByMethod data = indexByMethod (routes data) ->
  matchRoute decodeURIComponent regexExec requestMethod pathname
    (Indexed data)
  = matchRoute decodeURIComponent regexExec requestMethod pathname
      (LegacyArray (routes data)).
Proof.
  intros Hindex. unfold matchRoute.
  case_bool_decide as Hoptions; [done|].
  rewrite Hindex. unfold indexByMethod.
  rewrite indexByMethod_fold, lookup_empty. cbn [default app].
  by apply matchRoute_loop_filter.
Qed.

End Compiled.

End Matcher.

Lemma compileRoutes_returns_exactly_when_witness :
  exists data,
    compileRoutes (RegExp:=jsstring) Some (str "/api/") [users_def; posts_def]
    = Return data
    /\ map regex (routes data) = [str "^/api/users$"; str "^/api/posts$"]
    /\ routesByMethod data = indexByMethod (routes data).
Proof.
  eexists. split; [reflexivity|].
  split; [reflexivity|].
  apply (proj1 (proj1 (compileRoutes_returns_exactly_when
                         (RegExp:=jsstring) Some (str "/api/")
                         [users_def; posts_def] _)) eq_refl).
Defined.

Lemma matchRoute_index_agrees_witness :
  matchRoute Some literal_exec (str "POST") (str "/api/posts")
    (Indexed api_table)
  = Some (compiled posts_def (str "^/api/posts$") [], []).
Proof.
  rewrite (matchRoute_index_agrees literal_exec Some api_table
             (str "POST") (str "/api/posts") eq_refl).
  reflexivity.
Defined.

Lemma matchRoute_first_match_witness :
  exists before after captures,
    api_routes = before ++ compiled posts_def (str "^/api/posts$") [] :: after
    /\ literal_exec (str "^/api/posts$") (str "/api/posts") = Some captures.
Proof.
  destruct (proj2 (matchRoute_first_match literal_exec Some
                     (str "POST") (str "/api/posts") api_routes)
              (compiled posts_def (str "^/api/posts$") []) [] eq_refl)
    as (before & after & captures & Hsplit & _ & _ & Hexec & _).
  by exists before, after, captures.
Defined.

Lemma getAllowedMethods_exactly_witness :
  str "OPTIONS"
  ∈ getAllowedMethods literal_exec (str "/api/posts") (LegacyArray api_routes).
Proof.
  apply (proj2 (getAllowedMethods_exactly literal_exec (str "/api/posts")
                  (LegacyArray api_routes))).
  exists (compiled posts_def (str "^/api/posts$") []). split.
  - apply list_elem_of_further, list_elem_of_here.
  - split; [by right | by eexists].
Defined.

(** *** The parameters of a match *)

Section Params.

Variable decodeURIComponent : jsstring -> option jsstring.

(** The loop of [extractParams], over any list of indexed names *)
Lemma bind_step_get (captures : list jsstring) (name key : jsstring)
    (index : nat) (parameters : record) :
  record_get key
    (match decodeURIComponent
             (default (str "undefined") (captures !! index)) with
     | Some decoded => setParam name decoded parameters
     | None =>
         setParam name (default (str "undefined") (captures !! index))
           parameters
     end)
  = if bool_decide (name = key) && negb (bool_decide (key = str "__proto__"))
    then Some (decodeOrRaw decodeURIComponent
                 (default (str "undefined") (captures !! index)))
    else record_get key parameters.
Proof.
  unfold decodeOrRaw.
  set (raw := default (str "undefined") (captures !! index)).
  assert (Hset : forall value,
            record_get key (setParam name value parameters)
            = if bool_decide (name = key)
                 && negb (bool_decide (key = str "__proto__"))
              then Some value else record_get key parameters).
  { intros value. unfold setParam.
    case_bool_decide as Hproto.
    - subst name. case_bool_decide as Hkey; [|done].
      subst key. by rewrite bool_decide_eq_true_2.
    - rewrite RouterFacts.record_get_set.
      case_bool_decide as Hkey; [|done].
      subst key. by rewrite (bool_decide_eq_false_2 _ Hproto). }
  destruct (decodeURIComponent raw) as [decoded|]; apply Hset.
Qed.

Lemma bind_fold_get (captures : list jsstring) (key : jsstring)
    (pairs : list (nat * jsstring)) :
  forall parameters,
    let result :=
      fold_left
        (fun params '(index, name) =>
           let raw := default (str "undefined") (captures !! index) in
           match decodeURIComponent raw with
           | Some decoded => setParam name decoded params
           | None => setParam name raw params
           end)
        pairs parameters in
    (key = str "__proto__" \/ key ∉ map snd pairs ->
     record_get key result = record_get key parameters)
    /\ (key <> str "__proto__" -> NoDup (map snd pairs) ->
        forall index, (index, key) ∈ pairs ->
        record_get key result
        = Some (decodeOrRaw decodeURIComponent
                  (default (str "undefined") (captures !! index)))).
Proof.
  induction pairs as [|[i name] rest IH]; intros parameters; cbv zeta.
  - split; [done|]. intros _ _ index Hin. by apply elem_of_nil in Hin.
  - cbn [fold_left map snd]. cbv zeta.
    destruct (IH (let raw := default (str "undefined") (captures !! i) in
                  match decodeURIComponent raw with
                  | Some decoded => setParam name decoded parameters
                  | None => setParam name raw parameters
                  end)) as [Hother Hbound].
    cbv zeta in Hother, Hbound. split.
    + intros Hkey. rewrite Hother.
      * rewrite (bind_step_get captures name key i parameters).
        destruct Hkey as [->|Hnotin].
        -- by rewrite (bool_decide_eq_true_2 (str "__proto__" = _)),
             andb_false_r by done.
        -- apply not_elem_of_cons in Hnotin as [Hne _].
           by rewrite bool_decide_eq_false_2 by done.
      * destruct Hkey as [->|Hnotin]; [by left|].
        apply not_elem_of_cons in Hnotin as [_ Hnotin]. by right.
    + intros Hproto Hnodup index Hin.
      apply NoDup_cons in Hnodup as [Hfresh Hnodup].
      apply elem_of_cons in Hin as [[= -> ->]|Hin].
      * rewrite Hother by (by right).
        rewrite (bind_step_get captures name name i parameters).
        rewrite bool_decide_eq_true_2 by done.
        by rewrite bool_decide_eq_false_2 by done.
      * by apply Hbound.
Qed.

Lemma imap_index_names (names : list jsstring) :
  forall (f : nat -> nat),
    map snd (imap (fun index name => (f index, name)) names) = names
    /\ forall index name,
         names !! index = Some name ->
         (f index, name) ∈ imap (fun index name => (f index, name)) names.
Proof.
  induction names as [|n rest IH]; intros f.
  - split; [done|]. intros index name H. by rewrite lookup_nil in H.
  - cbn [imap map snd].
    destruct (IH (fun index => f (S index))) as [Hnames Hin].
    split.
    + f_equal. exact Hnames.
    + intros [|index] name Hlookup.
      * injection Hlookup as ->. apply list_elem_of_here.
      * apply list_elem_of_further. by apply Hin.
Qed.


End Params.


End RoutingMore.
(** ** authentication/rbac.ts and authentication/default-auth.ts *)

Module AuthMore.
Import Constants HttpErrors Rbac Authenticator DefaultAuth AuthSpec AuthWords.

(** *** Roles *)

Section Roles.

Context {TRole : Type} `{EqDecision TRole}.

(** X14.  [hasAnyRole] holds exactly when the user has one of the
    required roles and [hasAllRoles] exactly when the user has each of
    them; [checkRoles] is [hasAnyRole] for a single required role, read
    with the allowed roles in the place of the user's. *)
Theorem hasAnyRole_hasAllRoles_exactly (userRoles requiredRoles : list TRole) :
  (hasAnyRole userRoles requiredRoles = true
   <-> exists role, role ∈ requiredRoles /\ role ∈ userRoles)
  /\ (hasAllRoles userRoles requiredRoles = true
      <-> forall role, role ∈ requiredRoles -> role ∈ userRoles)
  /\ (forall role, checkRoles role requiredRoles
                   = hasAnyRole requiredRoles [role]).
Proof.
  split; [|split].
  - unfold hasAnyRole. rewrite existsb_exists. split.
    + intros (role & Hin & Hrole). exists role.
      apply bool_decide_eq_true in Hrole. by rewrite list_elem_of_In.
    + intros (role & Hin & Hrole). exists role.
      rewrite <- list_elem_of_In. split; [done|].
      by apply bool_decide_eq_true.
  - unfold hasAllRoles. rewrite forallb_forall. split.
    + intros Hall role Hin. apply list_elem_of_In in Hin.
      specialize (Hall role Hin). by apply bool_decide_eq_true in Hall.
    + intros Hall role Hin. apply bool_decide_eq_true. apply Hall.
      by apply list_elem_of_In.
  - intros role. unfold checkRoles, hasAnyRole. cbn [existsb].
    rewrite orb_false_r. destruct requiredRoles as [|r rest]; [|done].
    cbn [length Nat.eqb]. symmetry.
    apply bool_decide_eq_false_2, not_elem_of_nil.
Qed.

Variable roleToString : TRole -> jsstring.

(** X15.  The checker of [createRoleHierarchy] answers [true] exactly
    when the two roles are equal or the required role is listed under the
    user's role: implied roles are followed one step, not transitively.
    It throws exactly when the roles differ and the hierarchy has the
    name of the user's role only by inheritance from [Object.prototype]. *)
Theorem createRoleHierarchy_exactly
    (hierarchy : object (list TRole)) (userRole requiredRole : TRole) :
  (createRoleHierarchy roleToString hierarchy userRole requiredRole
   = Return true
   <-> userRole = requiredRole
       \/ exists impliedRoles,
            own hierarchy !! roleToString userRole = Some impliedRoles
            /\ requiredRole ∈ impliedRoles)
  /\ (throws (createRoleHierarchy roleToString hierarchy userRole
                requiredRole)
      <-> userRole <> requiredRole
          /\ own hierarchy !! roleToString userRole = None
          /\ inherited hierarchy (roleToString userRole) = true).
Proof.
  unfold createRoleHierarchy, throws.
  case_bool_decide as Hsame.
  { split; [split; [by left | done]|].
    split; [by intros [e He] | by intros [Hne _]]. }
  destruct (own hierarchy !! roleToString userRole) as [impliedRoles|].
  - split.
    + split.
      * intros [= Hin]. apply bool_decide_eq_true in Hin.
        right. by exists impliedRoles.
      * intros [Heq | (roles & [= <-] & Hin)]; [done|].
        f_equal. by apply bool_decide_eq_true.
    + split; [by intros [e He] | by intros (_ & ? & _)].
  - destruct (inherited hierarchy (roleToString userRole)).
    + split.
      * split; [done|]. by intros [Heq | (roles & ? & _)].
      * split; [done | by eexists].
    + split.
      * split; [done|]. by intros [Heq | (roles & ? & _)].
      * split; [by intros [e He] | by intros (_ & _ & ?)].
Qed.

End Roles.

Lemma createRoleHierarchy_exactly_witness :
  createRoleHierarchy (fun role => role)
    (mkObject ObjectPrototype
       {[ str "admin" := [str "mod"]; str "mod" := [str "user"] ]})
    (str "admin") (str "mod")
  = Return true.
Proof.
  apply (proj1 (createRoleHierarchy_exactly (fun role => role)
                  (mkObject ObjectPrototype
                     {[ str "admin" := [str "mod"];
                        str "mod" := [str "user"] ]})
                  (str "admin") (str "mod"))).
  right. exists [str "mod"]. split; [reflexivity|].
  apply list_elem_of_here.
Defined.

Example createRoleHierarchy_one_step :
  createRoleHierarchy (fun role => role)
    (mkObject ObjectPrototype
       {[ str "admin" := [str "mod"]; str "mod" := [str "user"] ]})
    (str "admin") (str "user")
  = Return false.
Proof. reflexivity. Qed.

(** *** The values of a [Headers] object *)

Lemma stripLeading_head (value : jsstring) c rest :
  stripLeading value = c :: rest -> isHttpWhitespace c = false.
Proof.
  induction value as [|d value IH]; simpl; [done|].
  destruct (isHttpWhitespace d) eqn:Hd; [exact IH|].
  by intros [= <- _].
Qed.

(** A normalised value does not end with whitespace. *)
Lemma normalizeHeaderValue_last (value start : jsstring) c :
  normalizeHeaderValue value = start ++ [c] -> isHttpWhitespace c = false.
Proof.
  unfold normalizeHeaderValue. intros Hvalue.
  apply (f_equal (@rev N)) in Hvalue.
  rewrite rev_involutive, rev_app_distr in Hvalue. simpl in Hvalue.
  by apply stripLeading_head in Hvalue.
Qed.

(** No value of [new Headers(init)] is just [Bearer ]: a single value
    has lost its trailing space, and joined values hold a comma. *)
Lemma newHeaders_value (init : record) :
  forall (h : Headers),
    (forall name value, record_get name h = Some value ->
                        value <> str "Bearer ") ->
    forall name value,
      record_get name (fold_left (fun h '(k, v) => headers_append k v h) init h)
      = Some value ->
      value <> str "Bearer ".
Proof.
  induction init as [|[k v] init IH]; intros h Hh; simpl; [exact Hh|].
  apply IH. intros name value. unfold headers_append.
  assert (Hsingle : normalizeHeaderValue v <> str "Bearer ").
  { intros Heq.
    by apply (normalizeHeaderValue_last v (str "Bearer") 32%N) in Heq. }
  destruct (headers_get k h) as [old|]; rewrite RouterFacts.record_get_set;
    case_bool_decide; try apply Hh; intros [= <-]; [|done].
  intros Heq.
  assert (Hcomma : In 44%N (str "Bearer ")).
  { rewrite <- Heq. apply in_or_app. right. by left. }
  vm_compute in Hcomma.
  repeat (destruct Hcomma as [Hcomma|Hcomma]; [discriminate Hcomma|]).
  done.
Qed.

Lemma startsWith_drop_nil (s p : jsstring) :
  startsWith s p = true -> drop (length p) s = [] -> s = p.
Proof.
  revert s. induction p as [|c p IH]; intros [|d s]; simpl; try done.
  intros Hstarts Hdrop. apply andb_true_iff in Hstarts as [Hc Hrest].
  apply N.eqb_eq in Hc as ->. f_equal. by apply IH.
Qed.

Lemma replaceFirst_nil (pattern s : jsstring) :
  replaceFirst pattern [] s = [] -> s = [] \/ s = pattern.
Proof.
  destruct s as [|c s]; [by left|]. cbn [replaceFirst].
  destruct (startsWith (c :: s) pattern) eqn:Hstarts; [|done].
  intros Hdrop. right. by apply startsWith_drop_nil.
Qed.

Lemma bearerToken_empty (req : Request) :
  bearerToken req = []
  <-> headers_get (str "Authorization") (requestHeaders req) = None
      \/ headers_get (str "Authorization") (requestHeaders req) = Some [].
Proof.
  unfold bearerToken.
  destruct (headers_get (str "Authorization") (requestHeaders req))
    as [value|] eqn:Hget; [|by split; [left|]].
  cbn [fmap option_fmap option_map default from_option id]. split.
  - intros Htoken. right. f_equal.
    apply replaceFirst_nil in Htoken as [Hempty|Hbearer]; [done|].
    assert (Hnone : forall name old,
              record_get name ([] : Headers) = Some old ->
              old <> str "Bearer ") by done.
    by destruct (newHeaders_value (headerList req) [] Hnone _ _ Hget).
  - by intros [?|[= ->]].
Qed.

(** A header of just [Bearer ] loses its trailing space, and what is
    left is a token: where no user is required, the request is let
    through. *)
Example bearer_alone_is_a_token :
  bearerToken (request_with (Some (str "Bearer "))) = str "Bearer".
Proof. reflexivity. Qed.

Example bearer_alone_is_granted :
  exists result,
    settles (sample_handler_at emptyCache (request_with (Some (str "Bearer ")))
               (mkAuthOptions None None None None (Some false) None None))
    = Return result
    /\ granted result.
Proof. eexists. split; [by vm_compute | reflexivity]. Qed.

(** *** The default handler *)

Section DefaultHandler.

Context {TRole : Type} `{EqDecision TRole}.
Context {TUser Client : Type}.
Variable roleOf : TUser -> slot TRole.
Variable normalizeNFKC : jsstring -> jsstring.
Variable container : AuthContainer TUser Client.
Variable url serviceKey anonKey : jsstring.

Lemma present_token (req : Request) :
  negb (present (headers_get (str "Authorization") (requestHeaders req)))
  || negb (present (replaceFirst (str "Bearer ") []
                      <$> headers_get (str "Authorization")
                            (requestHeaders req)))
  = bool_decide (bearerToken req = []).
Proof.
  unfold bearerToken.
  destruct (headers_get (str "Authorization") (requestHeaders req))
    as [[|c header]|]; try done.
  cbn [present negb orb fmap option_fmap option_map default from_option id].
  by destruct (replaceFirst (str "Bearer ") [] (c :: header)).
Qed.

Lemma handler_without_token
    (cached : Cache Client) (req : Request) (options : @AuthOptions TRole) :
  bearerToken req = [] ->
  handler roleOf normalizeNFKC container url serviceKey anonKey cached req
    options
  = mkOutcome
      (Return (errorResult
                 (unauthorized normalizeNFKC
                    (Some (str "Authorization header required")) VUndefined)))
      cached [].
Proof.
  intros Htoken. unfold handler. cbv zeta. rewrite present_token.
  by rewrite bool_decide_eq_true_2.
Qed.

(** X16.  The token the default handler reads is the value of the
    [Authorization] header, as the [Headers] object gives it, without its
    first [Bearer ].  It is empty exactly when the request has no such
    header or the value of the header is empty; then the handler answers
    401 whatever the options are, also for [requireUserAuth: false]; it
    creates no client and logs nothing. *)
Theorem handler_requires_token
    (cached : Cache Client) (req : Request) (options : @AuthOptions TRole) :
  (bearerToken req = []
   <-> headers_get (str "Authorization") (requestHeaders req) = None
       \/ headers_get (str "Authorization") (requestHeaders req) = Some [])
  /\ (bearerToken req = [] ->
      handler roleOf normalizeNFKC container url serviceKey anonKey cached req
        options
      = mkOutcome
          (Return (errorResult
                     (unauthorized normalizeNFKC
                        (Some (str "Authorization header required"))
                        VUndefined)))
          cached []
      /\ status (unauthorized normalizeNFKC
                   (Some (str "Authorization header required")) VUndefined)
         = 401%N).
Proof.
  split.
  - apply bearerToken_empty.
  - intros Htoken. split.
    + by apply handler_without_token.
    + reflexivity.
Qed.

(** The ways a call of the handler ends, one by one *)
Lemma handler_outcome
    (cached : Cache Client) (req : Request) (options : @AuthOptions TRole) :
  let token := bearerToken req in
  let outcome :=
    handler roleOf normalizeNFKC container url serviceKey anonKey cached req
      options in
  let serviceRole :=
    truthy (requireServiceRole options)
    || truthy (bypassWithServiceRole options) in
  token = []
  \/ (token <> []
      /\ exists e, fst (getServiceClient container url serviceKey cached)
                   = Throw e
                   /\ settles outcome = Throw e)
  \/ (token <> []
      /\ exists serviceClient,
           fst (getServiceClient container url serviceKey cached)
           = Return serviceClient
           /\ ((serviceRole = true /\ token = serviceKey
                /\ settles outcome
                   = Return (mkAuthResult None (Some serviceClient)
                               (Some serviceClient) None (Some true)))
               \/ (token <> serviceKey
                   /\ truthy (requireServiceRole options) = true
                   /\ settles outcome
                      = Return (errorResult
                                  (unauthorized normalizeNFKC
                                     (Some (str "Service role key required"))
                                     VUndefined)))
               \/ (truthy (requireServiceRole options) = false
                   /\ truthy (bypassWithAnonRole options) = true
                   /\ token = anonKey
                   /\ settles outcome = withAnonClient container (Some true))
               \/ (truthy (requireServiceRole options) = false
                   /\ requireUserAuth options = Some false
                   /\ settles outcome = withAnonClient container None)
               \/ (truthy (requireServiceRole options) = false
                   /\ requireUserAuth options <> Some false
                   /\ ((exists e,
                          getUser container serviceClient token = Throw e
                          /\ settles outcome = Throw e)
                       \/ (getUser container serviceClient token = Return None
                           /\ settles outcome
                              = Return (errorResult
                                          (unauthorized normalizeNFKC
                                             (Some (str "Invalid or expired token"))
                                             VUndefined)))
                       \/ (exists user,
                             getUser container serviceClient token
                             = Return (Some user)
                             /\ match enforceRBAC roleOf normalizeNFKC
                                        options user with
                                | Some response =>
                                    settles outcome
                                    = Return (errorResult response)
                                | None =>
                                    match createWithToken container url
                                            anonKey token with
                                    | Throw e => settles outcome = Throw e
                                    | Return userClient =>
                                        settles outcome
                                        = Return (mkAuthResult None
                                                    (Some userClient) None
                                                    (Some user) (Some false))
                                    end
                                end))))).
Proof.
  cbv zeta.
  destruct (decide (bearerToken req = [])) as [Hempty|Htoken]; [by left|].
  right. unfold handler. cbv zeta. rewrite present_token.
  rewrite bool_decide_eq_false_2 by done.
  change (default [] (replaceFirst (str "Bearer ") []
                        <$> headers_get (str "Authorization")
                              (requestHeaders req)))
    with (bearerToken req).
  destruct (getServiceClient container url serviceKey cached)
    as [[serviceClient|e] cached'].
  2:{ left. split; [done|]. by exists e. }
  right. split; [done|]. exists serviceClient. split; [done|].
  cbn [fst].
  destruct (truthy (requireServiceRole options)) eqn:Hrequire;
    cbn [orb andb].
  - case_bool_decide as Hservice.
    + left. done.
    + right. left. done.
  - destruct (truthy (bypassWithServiceRole options)) eqn:Hbypass;
      cbn [orb andb].
    + case_bool_decide as Hservice; [by left|].
      do 2 right. clear Hservice.
      destruct (truthy (bypassWithAnonRole options)) eqn:Hanon; cbn [andb].
      * case_bool_decide as Hanonkey; [by left|].
        right. case_bool_decide as Huser; [by left|]. right.
        split; [done|]. split; [done|].
        destruct (getUser container serviceClient (bearerToken req))
          as [[user|]|e]; [|by right; left | by left; exists e].
        do 2 right. exists user. split; [done|].
        destruct (enforceRBAC roleOf normalizeNFKC options user); [done|].
        by destruct (createWithToken container url anonKey (bearerToken req)).
      * right. case_bool_decide as Huser; [by left|]. right.
        split; [done|]. split; [done|].
        destruct (getUser container serviceClient (bearerToken req))
          as [[user|]|e]; [|by right; left | by left; exists e].
        do 2 right. exists user. split; [done|].
        destruct (enforceRBAC roleOf normalizeNFKC options user); [done|].
        by destruct (createWithToken container url anonKey (bearerToken req)).
    + do 2 right.
      destruct (truthy (bypassWithAnonRole options)) eqn:Hanon; cbn [andb].
      * case_bool_decide as Hanonkey; [by left|].
        right. case_bool_decide as Huser; [by left|]. right.
        split; [done|]. split; [done|].
        destruct (getUser container serviceClient (bearerToken req))
          as [[user|]|e]; [|by right; left | by left; exists e].
        do 2 right. exists user. split; [done|].
        destruct (enforceRBAC roleOf normalizeNFKC options user); [done|].
        by destruct (createWithToken container url anonKey (bearerToken req)).
      * right. case_bool_decide as Huser; [by left|]. right.
        split; [done|]. split; [done|].
        destruct (getUser container serviceClient (bearerToken req))
          as [[user|]|e]; [|by right; left | by left; exists e].
        do 2 right. exists user. split; [done|].
        destruct (enforceRBAC roleOf normalizeNFKC options user); [done|].
        by destruct (createWithToken container url anonKey (bearerToken req)).
Qed.

Lemma withAnonClient_result (serviceBypassed : option bool)
    (result : AuthResult TUser Client) :
  withAnonClient container serviceBypassed = Return result ->
  response result = None /\ user result = None
  /\ Authenticator.serviceBypassed result = serviceBypassed.
Proof.
  unfold withAnonClient.
  destruct (getOrCreateAnonClient container); [|done].
  by intros [= <-].
Qed.

Lemma enforceRBAC_passes (options : @AuthOptions TRole) (user : TUser) :
  enforceRBAC roleOf normalizeNFKC options user = None ->
  truthy (requireRBAC options) = true ->
  forall roles, allowedRoles options = Some roles ->
  exists role, roleOf user = Defined role /\ role ∈ roles.
Proof.
  unfold enforceRBAC. intros Hpass Hrequired roles Hroles.
  rewrite Hrequired, Hroles in Hpass.
  destruct (roleOf user) as [| |role]; try done.
  case_bool_decide; [|done]. by exists role.
Qed.

(** X17.  Every grant of the default handler has a reason.  When it
    answers a result without error response, the request carried a token,
    and either the token is the service key on a route that asks for or
    admits the service role, or the route does not require the service
    role and one of these holds: the token is the anonymous key and the
    route admits it; the route has [requireUserAuth: false] (the result
    then names no user); or the identity service knows the token, the
    result names the user it answered, and under [requireRBAC] with a
    list of allowed roles the role of that user is in the list. *)
Theorem handler_grants_only_when
    (cached : Cache Client) (req : Request) (options : @AuthOptions TRole)
    (result : AuthResult TUser Client) :
  settles (handler roleOf normalizeNFKC container url serviceKey anonKey
             cached req options) = Return result ->
  granted result ->
  bearerToken req <> []
  /\ ((bearerToken req = serviceKey
       /\ truthy (requireServiceRole options)
          || truthy (bypassWithServiceRole options) = true
       /\ serviceBypassed result = Some true
       /\ user result = None)
      \/ (truthy (requireServiceRole options) = false
          /\ ((truthy (bypassWithAnonRole options) = true
               /\ bearerToken req = anonKey
               /\ serviceBypassed result = Some true
               /\ user result = None)
              \/ (requireUserAuth options = Some false
                  /\ serviceBypassed result = None
                  /\ user result = None)
              \/ (exists serviceClient u,
                    fst (getServiceClient container url serviceKey cached)
                    = Return serviceClient
                    /\ getUser container serviceClient (bearerToken req)
                       = Return (Some u)
                    /\ user result = Some u
                    /\ serviceBypassed result = Some false
                    /\ (truthy (requireRBAC options) = true ->
                        forall roles, allowedRoles options = Some roles ->
                        exists role, roleOf u = Defined role
                                     /\ role ∈ roles))))).
Proof.
  intros Hsettles Hgranted. unfold granted in Hgranted.
  destruct (handler_outcome cached req options)
    as [Hempty | [[Htoken (e & _ & Hthrow)]
                 | (Htoken & serviceClient & Hclient & Hcases)]];
    cbv zeta in *.
  { rewrite (handler_without_token cached req options Hempty) in Hsettles.
    cbn [settles] in Hsettles. injection Hsettles as <-. done. }
  { by rewrite Hthrow in Hsettles. }
  split; [done|].
  destruct Hcases
    as [(Hrole & Hkey & Hout)
       | [(_ & _ & Hout)
         | [(Hrequire & Hanon & Hkey & Hout)
           | [(Hrequire & Huser & Hout)
             | (Hrequire & Huser & Hlookup)]]]].
  - left. rewrite Hout in Hsettles. injection Hsettles as <-. done.
  - rewrite Hout in Hsettles. injection Hsettles as <-. done.
  - right. split; [done|]. left.
    rewrite Hout in Hsettles.
    apply withAnonClient_result in Hsettles as (_ & Hnouser & Hbypass).
    done.
  - right. split; [done|]. right. left.
    rewrite Hout in Hsettles.
    apply withAnonClient_result in Hsettles as (_ & Hnouser & Hbypass).
    done.
  - right. split; [done|]. do 2 right.
    destruct Hlookup
      as [(e & _ & Hout) | [(_ & Hout) | (u & Hget & Hout)]].
    + by rewrite Hout in Hsettles.
    + rewrite Hout in Hsettles. injection Hsettles as <-. done.
    + destruct (enforceRBAC roleOf normalizeNFKC options u) eqn:Hrbac.
      { rewrite Hout in Hsettles. injection Hsettles as <-. done. }
      destruct (createWithToken container url anonKey (bearerToken req))
        as [userClient|e].
      2:{ by rewrite Hout in Hsettles. }
      rewrite Hout in Hsettles. injection Hsettles as <-.
      exists serviceClient, u. repeat split; try done.
      by apply enforceRBAC_passes.
Qed.

(** X18.  What the default handler answers passes [validateAuthResult]
    unchanged, unless the options turn RBAC on without a list of allowed
    roles: on every other route the validation of the router adds nothing
    to the decision of the default handler. *)
Theorem handler_result_validates
    (cached : Cache Client) (req : Request) (options : @AuthOptions TRole)
    (result : AuthResult TUser Client) :
  settles (handler roleOf normalizeNFKC container url serviceKey anonKey
             cached req options) = Return result ->
  (truthy (requireRBAC options) = true -> is_Some (allowedRoles options)) ->
  validateAuthResult roleOf normalizeNFKC result options = result.
Proof.
  intros Hsettles Hroles.
  assert (Herror : forall r : Response,
            validateAuthResult roleOf normalizeNFKC
              (errorResult (Client:=Client) r) options
            = errorResult r) by done.
  assert (Hanon : forall bypass,
            bypass = Some true
            \/ (bypass = None /\ requireUserAuth options = Some false) ->
            withAnonClient container bypass = Return result ->
            validateAuthResult roleOf normalizeNFKC result options = result).
  { intros bypass Hbypass Hanon. unfold withAnonClient in Hanon.
    destruct (getOrCreateAnonClient container) as [client|]; [|done].
    injection Hanon as <-.
    destruct Hbypass as [-> | [-> Huser]]; [done|].
    unfold validateAuthResult. cbn. rewrite Huser. cbn.
    by destruct (truthy (requireRBAC options)). }
  destruct (handler_outcome cached req options)
    as [Hempty | [[Htoken (e & _ & Hthrow)]
                 | (Htoken & serviceClient & Hclient & Hcases)]];
    cbv zeta in *.
  { rewrite (handler_without_token cached req options Hempty) in Hsettles.
    cbn [settles] in Hsettles. injection Hsettles as <-. apply Herror. }
  { by rewrite Hthrow in Hsettles. }
  destruct Hcases
    as [(Hrole & Hkey & Hout)
       | [(_ & _ & Hout)
         | [(Hrequire & Hanonrole & Hkey & Hout)
           | [(Hrequire & Huser & Hout)
             | (Hrequire & Huser & Hlookup)]]]].
  - rewrite Hout in Hsettles. by injection Hsettles as <-.
  - rewrite Hout in Hsettles. injection Hsettles as <-. apply Herror.
  - rewrite Hout in Hsettles. apply (Hanon (Some true)); [by left | done].
  - rewrite Hout in Hsettles. apply (Hanon None); [by right | done].
  - destruct Hlookup
      as [(e & _ & Hout) | [(_ & Hout) | (u & Hget & Hout)]].
    + by rewrite Hout in Hsettles.
    + rewrite Hout in Hsettles. injection Hsettles as <-. apply Herror.
    + destruct (enforceRBAC roleOf normalizeNFKC options u) eqn:Hrbac.
      { rewrite Hout in Hsettles. injection Hsettles as <-. apply Herror. }
      destruct (createWithToken container url anonKey (bearerToken req))
        as [userClient|e].
      2:{ by rewrite Hout in Hsettles. }
      rewrite Hout in Hsettles. injection Hsettles as <-.
      unfold validateAuthResult. cbn. rewrite andb_false_r.
      destruct (truthy (requireRBAC options)) eqn:Hrequired; [|done].
      destruct (Hroles eq_refl) as [roles Hallowed].
      destruct (enforceRBAC_passes options u Hrbac Hrequired roles Hallowed)
        as (role & -> & Hin).
      rewrite Hallowed. unfold checkRoles.
      destruct roles as [|first rest]; [by apply elem_of_nil in Hin|].
      cbn [length Nat.eqb]. by rewrite bool_decide_eq_true_2.
Qed.

Lemma getServiceClient_filled (client : Client) :
  getServiceClient container url serviceKey (filled url serviceKey client)
  = (Return client, filled url serviceKey client).
Proof.
  unfold getServiceClient, filled. cbn.
  by rewrite !bool_decide_eq_true_2.
Qed.

Lemma getServiceClient_cache (cached : Cache Client) :
  snd (getServiceClient container url serviceKey cached) = cached
  \/ exists client,
       create container url serviceKey = Return client
       /\ getServiceClient container url serviceKey cached
          = (Return client, filled url serviceKey client).
Proof.
  unfold getServiceClient.
  destruct (cachedServiceClient cached) as [client|].
  - destruct (bool_decide (cachedServiceUrl cached = Some url)
              && bool_decide (cachedServiceKey cached = Some serviceKey));
      [by left|].
    destruct (create container url serviceKey) as [client'|e]; [|by left].
    right. by exists client'.
  - destruct (create container url serviceKey) as [client'|e]; [|by left].
    right. by exists client'.
Qed.

Lemma handler_cache (cached : Cache Client) (req : Request)
    (options : @AuthOptions TRole) :
  cache (handler roleOf normalizeNFKC container url serviceKey anonKey cached
           req options)
  = if bool_decide (bearerToken req = []) then cached
    else snd (getServiceClient container url serviceKey cached).
Proof.
  unfold handler. cbv zeta. rewrite present_token.
  case_bool_decide as Htoken; [done|].
  destruct (getServiceClient container url serviceKey cached)
    as [[serviceClient|e] cached']; [|done].
  cbn [snd]. repeat case_match; done.
Qed.

End DefaultHandler.

Section ServiceCache.

Context {TRole : Type} `{EqDecision TRole}.
Context {TUser Client : Type}.
Variable roleOf : TUser -> slot TRole.
Variable normalizeNFKC : jsstring -> jsstring.
Variable container : AuthContainer TUser Client.
Variable url serviceKey anonKey : jsstring.

(** X19.  The service client is created at most once.  A call of the
    handler leaves its cache as it was or, when the factory returned a
    client, filled with that client for the configured URL and key; and
    from a filled cache the handler does not consult the factory at all:
    its outcome is the same with any other factory, and the cache stays
    as it is. *)
Theorem handler_creates_service_client_once
    (cached : Cache Client) (req : Request) (options : @AuthOptions TRole) :
  (cache (handler roleOf normalizeNFKC container url serviceKey anonKey
            cached req options) = cached
   \/ exists client,
        create container url serviceKey = Return client
        /\ cache (handler roleOf normalizeNFKC container url serviceKey
                    anonKey cached req options)
           = filled url serviceKey client)
  /\ forall client create',
       handler roleOf normalizeNFKC (with_create create' container) url
         serviceKey anonKey (filled url serviceKey client) req options
       = handler roleOf normalizeNFKC container url serviceKey anonKey
           (filled url serviceKey client) req options
       /\ cache (handler roleOf normalizeNFKC container url serviceKey
                   anonKey (filled url serviceKey client) req options)
          = filled url serviceKey client.
Proof.
  split.
  - rewrite handler_cache. case_bool_decide; [by left|].
    destruct (getServiceClient_cache container url serviceKey cached)
      as [Hsame | (client & Hcreate & Hfill)]; [by left|].
    right. exists client. by rewrite Hfill.
  - intros client create'. split.
    + unfold handler. cbv zeta.
      by rewrite !getServiceClient_filled.
    + rewrite handler_cache, getServiceClient_filled.
      by case_bool_decide.
Qed.

(** X20.  [getOrCreateDefaultAuthHandler] returns the handler exactly when
    the environment has a non-empty value for each of [SUPABASE_URL],
    [SUPABASE_SERVICE_ROLE_KEY] and [SUPABASE_ANON_KEY], and the handler
    is the one over these three values.  Otherwise it throws an error
    whose message names, after the words
    [Authentication configuration error: ], the first of the three
    variables, in this order, that has no non-empty value. *)
Theorem getOrCreateDefaultAuthHandler_configured :
  (configured (env container) ->
   getOrCreateDefaultAuthHandler roleOf normalizeNFKC container
   = Return (handler roleOf normalizeNFKC container
               (default [] (env container (str "SUPABASE_URL")))
               (default [] (env container (str "SUPABASE_SERVICE_ROLE_KEY")))
               (default [] (env container (str "SUPABASE_ANON_KEY")))))
  /\ (~ configured (env container) ->
      exists before variable after,
        [str "SUPABASE_URL"; str "SUPABASE_SERVICE_ROLE_KEY";
         str "SUPABASE_ANON_KEY"] = before ++ variable :: after
        /\ Forall (fun name => present (env container name) = true) before
        /\ present (env container variable) = false
        /\ getOrCreateDefaultAuthHandler roleOf normalizeNFKC container
           = Throw (mkError (str "Authentication configuration error: "
                             ++ ERR_MISSING variable ++ HOW_TO_FIX))).
Proof.
  unfold configured, getOrCreateDefaultAuthHandler, createDefaultAuthHandler.
  cbv zeta.
  destruct (present (env container (str "SUPABASE_URL"))) eqn:Hurl;
    cbn [negb].
  2:{ split; [by intros [? _]|]. intros _.
      exists [], (str "SUPABASE_URL"),
        [str "SUPABASE_SERVICE_ROLE_KEY"; str "SUPABASE_ANON_KEY"].
      by repeat split. }
  destruct (present (env container (str "SUPABASE_SERVICE_ROLE_KEY")))
    eqn:Hservice; cbn [negb].
  2:{ split; [by intros (_ & ? & _)|]. intros _.
      exists [str "SUPABASE_URL"], (str "SUPABASE_SERVICE_ROLE_KEY"),
        [str "SUPABASE_ANON_KEY"].
      split; [done|]. split; [by repeat constructor|]. by split. }
  destruct (present (env container (str "SUPABASE_ANON_KEY")))
    eqn:Hanon; cbn [negb].
  2:{ split; [by intros (_ & _ & ?)|]. intros _.
      exists [str "SUPABASE_URL"; str "SUPABASE_SERVICE_ROLE_KEY"],
        (str "SUPABASE_ANON_KEY"), [].
      split; [done|]. split; [by repeat constructor|]. by split. }
  split; [done|]. intros Hnot. by destruct Hnot.
Qed.

End ServiceCache.

Lemma handler_requires_token_witness :
  settles (sample_handler_at emptyCache (request_with None)
             (mkAuthOptions None None None None (Some false) None None))
  = Return (errorResult
              (unauthorized (fun s => s)
                 (Some (str "Authorization header required")) VUndefined)).
Proof.
  unfold sample_handler_at.
  rewrite (proj1 (proj2 (handler_requires_token snd (fun s => s)
                           sample_container
                           (str "https://project.supabase.co")
                           (str "service-key") (str "anon-key") emptyCache
                           (request_with None)
                           (mkAuthOptions None None None None (Some false)
                              None None))
                    eq_refl)).
  reflexivity.
Defined.

Lemma handler_grants_only_when_witness :
  bearerToken (request_with (Some (str "Bearer alice-jwt"))) <> [].
Proof.
  refine (proj1 (handler_grants_only_when snd (fun s => s) sample_container
                   (str "https://project.supabase.co") (str "service-key")
                   (str "anon-key") emptyCache
                   (request_with (Some (str "Bearer alice-jwt"))) admins_only
                   (mkAuthResult None (Some (str "user-client")) None
                      (Some (str "alice", Defined (str "admin")))
                      (Some false))
                   _ _)).
  - vm_compute. reflexivity.
  - reflexivity.
Defined.

Lemma handler_result_validates_witness :
  validateAuthResult snd (fun s => s)
    (mkAuthResult None (Some (str "user-client")) None
       (Some (str "alice", Defined (str "admin"))) (Some false))
    admins_only
  = mkAuthResult None (Some (str "user-client")) None
      (Some (str "alice", Defined (str "admin"))) (Some false).
Proof.
  apply (handler_result_validates snd (fun s => s) sample_container
           (str "https://project.supabase.co") (str "service-key")
           (str "anon-key") emptyCache
           (request_with (Some (str "Bearer alice-jwt"))) admins_only).
  - vm_compute. reflexivity.
  - intros _. simpl. eexists. reflexivity.
Defined.

Lemma getOrCreateDefaultAuthHandler_configured_witness :
  getOrCreateDefaultAuthHandler snd (fun s => s) sample_container
  = Return (handler snd (fun s => s) sample_container
              (str "https://project.supabase.co") (str "service-key")
              (str "anon-key")).
Proof.
  apply (proj1 (getOrCreateDefaultAuthHandler_configured
                  snd (fun s => s) sample_container)).
  repeat split.
Defined.

End AuthMore.
(** ** middleware/composer.ts, further *)

Module ComposerMore.
Import Composer ComposerSpec ComposerWords ComposerFacts.

Section Middleware.

Variable Ctx : Type.
Variable Event : Type.

(** Two runs of a middleware body whose [next] functions agree on related
    states end alike, in related states. *)
Lemma exec_related (R : state Event -> state Event -> Prop)
    (next1 next2 : state Event -> settled * state Event) :
  (forall st1 st2 ev,
     R st1 st2 ->
     R (mkState (index st1) (trace st1 ++ [ev]))
       (mkState (index st2) (trace st2 ++ [ev]))) ->
  (forall st1 st2,
     R st1 st2 ->
     fst (next1 st1) = fst (next2 st2)
     /\ R (snd (next1 st1)) (snd (next2 st2))) ->
  forall (p : program Event) st1 st2,
    R st1 st2 ->
    fst (exec next1 p st1) = fst (exec next2 p st2)
    /\ R (snd (exec next1 p st1)) (snd (exec next2 p st2)).
Proof.
  intros Hact Hnext.
  induction p as [r|e|ev k IH|k IH]; intros st1 st2 HR; cbn [exec].
  - done.
  - done.
  - by apply IH, Hact.
  - destruct (Hnext st1 st2 HR) as [Hout HR'].
    destruct (next1 st1) as [o1 st1'], (next2 st2) as [o2 st2'].
    cbn [fst snd] in *. subst o2. by apply IH.
Qed.

Lemma shifted_act (k : Z) (st1 st2 : state Event) (ev : Event) :
  shifted k st1 st2 ->
  shifted k (mkState (index st1) (trace st1 ++ [ev]))
    (mkState (index st2) (trace st2 ++ [ev])).
Proof. unfold shifted. cbn. intros [-> H]. by split. Qed.

Lemma capped_act (n : Z) (st1 st2 : state Event) (ev : Event) :
  capped n st1 st2 ->
  capped n (mkState (index st1) (trace st1 ++ [ev]))
    (mkState (index st2) (trace st2 ++ [ev])).
Proof. unfold capped. cbn. intros [-> H]. by split. Qed.

(** The positions of a chain can be counted from any number. *)
Lemma dispatch_shift (ctx : Ctx) (last : continuation Event)
    (rest : list (Middleware Ctx Event)) (k : Z) :
  forall i st1 st2,
    (0 <= i)%Z -> shifted k st1 st2 ->
    fst (dispatch ctx last rest (i + k) st1)
    = fst (dispatch ctx last rest i st2)
    /\ shifted k (snd (dispatch ctx last rest (i + k) st1))
         (snd (dispatch ctx last rest i st2)).
Proof.
  induction rest as [|m rest IH]; intros i st1 st2 Hi [Htrace Hindex].
  - cbn [dispatch].
    destruct (Z.leb_spec (i + k) (index st1)), (Z.leb_spec i (index st2));
      try lia.
    + by split.
    + cbn [trace index]. rewrite Htrace.
      destruct (last (trace st2)) as [outcome tr]. cbn.
      split; [done|]. split; [done|]. by left.
  - cbn [dispatch].
    destruct (Z.leb_spec (i + k) (index st1)), (Z.leb_spec i (index st2));
      try lia.
    + by split.
    + replace (i + k + 1)%Z with (i + 1 + k)%Z by lia.
      apply (exec_related (shifted k)).
      * apply shifted_act.
      * intros s1 s2 Hs. apply IH; [lia | done].
      * split; [by cbn|]. left. cbn. lia.
Qed.

Lemma dispatch_nil (ctx : Ctx) (last : continuation Event) (i : Z)
    (st : state Event) :
  dispatch ctx last [] i st
  = if (i <=? index st)%Z then (Rejected NEXT_CALLED_TWICE, st)
    else let '(outcome, tr) := last (trace st) in (outcome, mkState i tr).
Proof. reflexivity. Qed.

Lemma composeMiddlewares_cons (ctx : Ctx) (last : continuation Event)
    (m : Middleware Ctx Event) (rest : list (Middleware Ctx Event))
    (tr : list Event) :
  composeMiddlewares (m :: rest) ctx last tr
  = let '(outcome, st) :=
      dispatch ctx last (m :: rest) 0 (mkState (-1) tr) in
    (outcome, trace st).
Proof. reflexivity. Qed.

(** A chain run flat, against its first part run with the rest of the
    chain, composed, as terminal continuation *)
Lemma dispatch_nest (ctx : Ctx) (last : continuation Event)
    (m : Middleware Ctx Event) (b : list (Middleware Ctx Event)) (n : Z) :
  forall (a : list (Middleware Ctx Event)) i st1 st2,
    (i + Z.of_nat (length a))%Z = n ->
    capped n st1 st2 ->
    fst (dispatch ctx last (a ++ m :: b) i st1)
    = fst (dispatch ctx (composeMiddlewares (m :: b) ctx last) a i st2)
    /\ capped n (snd (dispatch ctx last (a ++ m :: b) i st1))
         (snd (dispatch ctx (composeMiddlewares (m :: b) ctx last) a i st2)).
Proof.
  induction a as [|first a IH]; intros i st1 st2 Hlen [Htrace Hindex].
  - cbn [length Z.of_nat] in Hlen. assert (i = n) as -> by lia.
    change ([] ++ m :: b) with (m :: b).
    destruct (Z.leb_spec n (index st1)) as [Hlater|Hfirst].
    + cbn [dispatch].
      destruct (Z.leb_spec n (index st1)); [|lia].
      destruct (Z.leb_spec n (index st2)); [|lia]. by split.
    + pose proof (dispatch_shift ctx last (m :: b) n 0 st1
                    (mkState (-1) (trace st2)) ltac:(lia)) as Hshift.
      rewrite Z.add_0_l in Hshift.
      destruct Hshift as [Hout [Htr _]].
      { split; [done|]. right. cbn. lia. }
      pose proof (dispatch_index _ _ ctx last (m :: b) n st1) as [_ Hn].
      rewrite dispatch_nil.
      destruct (Z.leb_spec n (index st2)); [lia|].
      rewrite composeMiddlewares_cons.
      destruct (dispatch ctx last (m :: b) 0 (mkState (-1) (trace st2)))
        as [outcome inner].
      cbn [fst snd] in *. split; [done|].
      unfold capped. cbn [index trace]. split; [done | lia].
  - cbn [length] in Hlen. rewrite Nat2Z.inj_succ in Hlen.
    change ((first :: a) ++ m :: b) with (first :: (a ++ m :: b)).
    cbn [dispatch].
    destruct (Z.leb_spec i (index st1)), (Z.leb_spec i (index st2));
      try lia.
    + by split.
    + apply (exec_related (capped n)).
      * apply capped_act.
      * intros s1 s2 Hs. apply IH; [lia | done].
      * split; [by cbn|]. cbn. lia.
Qed.

Lemma composeMiddlewares_nest (ctx : Ctx) (last : continuation Event)
    (a : list (Middleware Ctx Event)) (m : Middleware Ctx Event)
    (b : list (Middleware Ctx Event)) (tr : list Event) :
  composeMiddlewares (a ++ m :: b) ctx last tr
  = composeMiddlewares a ctx (composeMiddlewares (m :: b) ctx last) tr.
Proof.
  destruct a as [|first a]; [done|].
  change ((first :: a) ++ m :: b) with (first :: (a ++ m :: b)).
  rewrite !composeMiddlewares_cons.
  change (first :: (a ++ m :: b)) with ((first :: a) ++ m :: b).
  destruct (dispatch_nest ctx last m b (Z.of_nat (length (first :: a)))
              (first :: a) 0 (mkState (-1) tr) (mkState (-1) tr))
    as [Hout [Htrace _]].
  { lia. }
  { split; [done|]. cbn. lia. }
  destruct (dispatch ctx last ((first :: a) ++ m :: b) 0 (mkState (-1) tr)),
    (dispatch ctx (composeMiddlewares (m :: b) ctx last) (first :: a) 0
       (mkState (-1) tr)).
  cbn [fst snd] in *. by rewrite Hout, Htrace.
Qed.

(** X21.  Composition is associative: a chain composed in one piece runs
    as its first part composed around its second part.  So the handler of
    the router, which composes the global middlewares around the composed
    middlewares of the route, runs them as one chain, global ones first. *)
Theorem composeMiddlewares_app (ctx : Ctx) (last : continuation Event)
    (a b : list (Middleware Ctx Event)) (tr : list Event) :
  composeMiddlewares (a ++ b) ctx last tr
  = composeMiddlewares a ctx (composeMiddlewares b ctx last) tr.
Proof.
  destruct b as [|m b].
  - rewrite app_nil_r. by destruct a.
  - apply composeMiddlewares_nest.
Qed.

Lemma composeMiddlewares_singleton (ctx : Ctx) (last : continuation Event)
    (m : Middleware Ctx Event) (tr : list Event) :
  composeMiddlewares [m] ctx last tr
  = let '(outcome, st) :=
      exec (fun st => let '(outcome, tr') := last (trace st) in
                      if (1 <=? index st)%Z
                      then (Rejected NEXT_CALLED_TWICE, st)
                      else (outcome, mkState 1 tr'))
        (m ctx) (mkState 0 tr) in
    (outcome, trace st).
Proof.
  cbn [composeMiddlewares dispatch index trace].
  destruct (Z.leb_spec 0 (-1)); [lia|].
  assert (Hnext : forall st,
            dispatch ctx last [] (0 + 1) st
            = let '(outcome, tr') := last (trace st) in
              if (1 <=? index st)%Z
              then (Rejected NEXT_CALLED_TWICE, st)
              else (outcome, mkState 1 tr')).
  { intros st. cbn [dispatch Z.add Pos.add]. change (0 + 1)%Z with 1%Z.
    destruct (1 <=? index st)%Z; [by destruct (last (trace st))|].
    cbn [trace index]. by destruct (last (trace st)). }
  assert (Hexec : forall p st,
            exec (dispatch ctx last [] (0 + 1)) p st
            = exec (fun st => let '(outcome, tr') := last (trace st) in
                              if (1 <=? index st)%Z
                              then (Rejected NEXT_CALLED_TWICE, st)
                              else (outcome, mkState 1 tr')) p st).
  { induction p as [r|e|ev k IH|k IH]; intros st; cbn [exec]; try done.
    rewrite Hnext. destruct (last (trace st)) as [outcome tr'].
    destruct (1 <=? index st)%Z; apply IH. }
  by rewrite Hexec.
Qed.

(** X22.  A middleware that answers without calling [next] ends the
    chain: whatever follows it, middlewares and terminal handler alike,
    does not run, and the chain behaves as the middlewares before it
    around a terminal handler that does its steps and gives its answer. *)
Theorem composeMiddlewares_short_circuit (ctx : Ctx)
    (last : continuation Event) (a rest : list (Middleware Ctx Event))
    (steps : list Event) (r : Response) (tr : list Event) :
  composeMiddlewares (a ++ answer steps r :: rest) ctx last tr
  = composeMiddlewares a ctx (terminal steps r) tr
  /\ composeMiddlewares (answer steps r :: rest) ctx last tr
     = (Fulfilled r, tr ++ steps).
Proof.
  assert (Hhead : forall tr',
            composeMiddlewares (answer steps r :: rest) ctx last tr'
            = terminal steps r tr').
  { intros tr'. cbn [composeMiddlewares dispatch index trace].
    destruct (Z.leb_spec 0 (-1)); [lia|].
    unfold answer. rewrite (exec_acts Event). by cbn. }
  split; [|apply Hhead].
  rewrite composeMiddlewares_nest.
  destruct a as [|first a]; [apply Hhead|].
  cbn [composeMiddlewares].
  assert (Hdispatch : forall ms i st,
            dispatch ctx (composeMiddlewares (answer steps r :: rest) ctx last)
              ms i st
            = dispatch ctx (terminal steps r) ms i st).
  { induction ms as [|m ms IH]; intros i st; cbn [dispatch].
    - by rewrite Hhead.
    - destruct (i <=? index st)%Z; [done|].
      generalize (mkState i (trace st)).
      induction (m ctx) as [r'|e|ev k IHp|k IHp]; intros st'; cbn [exec];
        try done.
      rewrite IH. destruct (dispatch ctx (terminal steps r) ms (i + 1) st').
      apply IHp. }
  by rewrite Hdispatch.
Qed.

(** X23.  [catchErrors] at the head of a chain sees how the rest of the
    chain settles: a response passes, and every rejection, the one for a
    second call of [next] included, goes to the error handler, whose
    response or error is the outcome. *)
Theorem catchErrors_catches (ctx : Ctx) (last : continuation Event)
    (errorHandler : thrown -> Ctx -> completion thrown Response)
    (rest : list (Middleware Ctx Event)) (tr : list Event) :
  composeMiddlewares (catchErrors errorHandler :: rest) ctx last tr
  = (caught errorHandler ctx (fst (composeMiddlewares rest ctx last tr)),
     snd (composeMiddlewares rest ctx last tr)).
Proof.
  change (catchErrors errorHandler :: rest)
    with ([catchErrors errorHandler] ++ rest).
  assert (Hnest : composeMiddlewares ([catchErrors errorHandler] ++ rest)
                    ctx last tr
                  = composeMiddlewares [catchErrors errorHandler] ctx
                      (composeMiddlewares rest ctx last) tr).
  { destruct rest as [|m rest]; [done | apply composeMiddlewares_nest]. }
  rewrite Hnest, composeMiddlewares_singleton.
  unfold catchErrors. cbn [exec trace index].
  destruct (composeMiddlewares rest ctx last tr) as [outcome tr'].
  destruct (Z.leb_spec 1 0); [lia|].
  cbn [fst snd caught].
  destruct outcome as [r|error]; [done|].
  cbn [caught]. by destruct (errorHandler error ctx).
Qed.

(** X24.  [conditionalMiddleware] with a condition that fails leaves the
    chain as it is without it; with a condition that holds, the chain is
    the one with the middleware itself. *)
Theorem conditionalMiddleware_chain (ctx : Ctx) (last : continuation Event)
    (condition : Ctx -> bool) (m : Middleware Ctx Event)
    (rest : list (Middleware Ctx Event)) (tr : list Event) :
  composeMiddlewares (conditionalMiddleware condition m :: rest) ctx last tr
  = if condition ctx then composeMiddlewares (m :: rest) ctx last tr
    else composeMiddlewares rest ctx last tr.
Proof.
  destruct (condition ctx) eqn:Hcondition.
  - cbn [composeMiddlewares dispatch]. unfold conditionalMiddleware.
    by rewrite Hcondition.
  - change (conditionalMiddleware condition m :: rest)
      with ([conditionalMiddleware condition m] ++ rest).
    assert (Hnest :
      composeMiddlewares ([conditionalMiddleware condition m] ++ rest)
        ctx last tr
      = composeMiddlewares [conditionalMiddleware condition m] ctx
          (composeMiddlewares rest ctx last) tr).
    { destruct rest as [|m' rest]; [done | apply composeMiddlewares_nest]. }
    rewrite Hnest, composeMiddlewares_singleton.
    unfold conditionalMiddleware. rewrite Hcondition.
    cbn [exec trace index].
    destruct (composeMiddlewares rest ctx last tr) as [outcome tr'].
    destruct (Z.leb_spec 1 0); [lia|].
    by destruct outcome.
Qed.

End Middleware.

End ComposerMore.
(** ** validation/dto-validator.ts, further *)

Module DtoValidatorMore.
Import Constants DtoValidator ValidatorSpec ValidatorWords DtoValidatorFacts.

Lemma extractFileFields_lookup (d : data) (key : jsstring) (f : File) :
  extractFileFields d !! key = Some f
  <-> exists o, d = Structure o /\ own o !! key = Some (DFile f).
Proof.
  destruct d as [v|o]; cbn [extractFileFields].
  - rewrite lookup_empty. split; [done | by intros (o & ? & _)].
  - rewrite lookup_omap. split.
    + intros Hfile. exists o. split; [done|].
      destruct (own o !! key) as [[v|f']|]; cbn in Hfile; try done.
      by injection Hfile as ->.
    + intros (o' & [= <-] & Hown). by rewrite Hown.
Qed.



Lemma validateDTO_success (raw parsed : data) (schema : ZodTypeAny) :
  schema raw = ParseSuccess parsed ->
  success (validateDTO raw schema) = true
  /\ exists d, data_ (validateDTO raw schema) = Some d.
Proof.
  intros Hschema. unfold validateDTO. rewrite Hschema.
  split; [done | by eexists].
Qed.

Lemma validateDTO_failure (raw : data) (schema : ZodTypeAny)
    (issues : list ZodIssue) :
  schema raw = ParseFailure issues ->
  validateDTO raw schema
  = mkValidationResult false None (Some (beautifyZodErrors issues)).
Proof. intros Hschema. unfold validateDTO. by rewrite Hschema. Qed.

Section Host.

Variable parseUrlEncoded : jsstring -> list (jsstring * jsstring).

Lemma parseThenValidate_cases (req : Request) (contentType : jsstring)
    (schema : ZodTypeAny) :
  (exists e,
     parseBodyByContentType parseUrlEncoded req contentType = Throw e
     /\ parseThenValidate parseUrlEncoded req contentType schema
        = Throw (ThrownError e))
  \/ (exists raw issues,
        parseBodyByContentType parseUrlEncoded req contentType = Return raw
        /\ schema raw = ParseFailure issues
        /\ parseThenValidate parseUrlEncoded req contentType schema
           = Throw (ThrownResponse
                      (validationFailed (Some (beautifyZodErrors issues)))))
  \/ (exists raw parsed d,
        parseBodyByContentType parseUrlEncoded req contentType = Return raw
        /\ schema raw = ParseSuccess parsed
        /\ data_ (validateDTO raw schema) = Some d
        /\ parseThenValidate parseUrlEncoded req contentType schema
           = Return d).
Proof.
  unfold parseThenValidate.
  destruct (parseBodyByContentType parseUrlEncoded req contentType)
    as [raw|e]; [|left; by exists e].
  right. cbv zeta.
  destruct (schema raw) as [parsed|issues] eqn:Hschema.
  - right. destruct (validateDTO_success raw parsed schema Hschema)
      as [Hsuccess [d Hdata]].
    rewrite Hsuccess, Hdata. cbn [negb]. by exists raw, parsed, d.
  - left. rewrite (validateDTO_failure raw schema issues Hschema).
    cbn [success negb errors]. by exists raw, issues.
Qed.

Lemma parseAndValidateBody_find_chosen (req : Request)
    (contentType : jsstring) (entries : list (jsstring * ZodTypeAny)) :
  parseAndValidateBody_find parseUrlEncoded req contentType entries
  = Throw (ThrownResponse unsupportedMediaType)
  \/ exists schema,
       chosen (ContentTypeSchemas entries) contentType schema
       /\ parseAndValidateBody_find parseUrlEncoded req contentType entries
          = parseThenValidate parseUrlEncoded req contentType schema.
Proof.
  induction entries as [|[supportedType typeSchema] rest IH];
    cbn [parseAndValidateBody_find]; [by left|].
  destruct (includes contentType supportedType) eqn:Hincludes.
  - right. exists typeSchema. split; [|done].
    exists [], supportedType, rest. split; [done|]. split; [done|].
    constructor.
  - destruct IH as [H415 | (schema & Hchosen & Hfind)]; [by left|].
    right. exists schema. split; [|done].
    destruct Hchosen as (before & type & after & -> & Htype & Hbefore).
    exists ((supportedType, typeSchema) :: before), type, after.
    split; [done|]. split; [done|]. by constructor.
Qed.


End Host.


End DtoValidatorMore.
(** ** security/cors.ts *)

Module CorsMore.
Import Constants Cors CorsWords RouterFacts.

Lemma record_get_set_other (k k' v : jsstring) (o : record) :
  bool_decide (k = k') = false ->
  record_get k' (record_set k v o) = record_get k' o.
Proof. intros Hne. by rewrite record_get_set, Hne. Qed.

Lemma record_get_setWhen_other {A : Type} (setting : option A)
    (k k' : jsstring) (f : A -> jsstring) (o : record) :
  bool_decide (k = k') = false ->
  record_get k' (setWhen setting k f o) = record_get k' o.
Proof.
  intros Hne. destruct setting as [a|]; [|done].
  by apply record_get_set_other.
Qed.

(** The headers set after the origin is dealt with leave the two origin
    headers alone. *)
Lemma buildCorsHeaders_origin_headers (origin : option jsstring)
    (config : CorsConfig) (headers : record) (key : jsstring) :
  key = ALLOW_ORIGIN \/ key = ALLOW_CREDENTIALS ->
  buildCorsHeaders origin (Configured config) = Return headers ->
  record_get key headers
  = match allowedOrigins config with
    | AnyOrigin =>
        if bool_decide (key = ALLOW_ORIGIN) then Some (str "*") else None
    | Origins origins =>
        match origin with
        | Some o =>
            if negb (bool_decide (o = [])) && bool_decide (o ∈ origins)
            then if bool_decide (key = ALLOW_ORIGIN) then Some o
                 else if flag (credentials config) then Some (str "true")
                      else None
            else None
        | None => None
        end
    end.
Proof.
  intros Hkey. unfold buildCorsHeaders.
  set (originHeaders := match allowedOrigins config with
                        | AnyOrigin => _
                        | Origins _ => _
                        end).
  destruct originHeaders as [base|e] eqn:Hbase; [|done].
  cbv zeta. intros [= <-].
  assert (Hrest : record_get key
                    match maxAge config with
                    | Some 0%N | None =>
                        setWhen (exposedHeaders config)
                          (str "Access-Control-Expose-Headers")
                          Sanitizer.sanitizeHeaderList
                          (setWhen (allowedHeaders config)
                             (str "Access-Control-Allow-Headers")
                             Sanitizer.sanitizeHeaderList
                             (setWhen (allowedMethods config)
                                (str "Access-Control-Allow-Methods")
                                Sanitizer.sanitizeHeaderList base))
                    | Some age =>
                        record_set (str "Access-Control-Max-Age")
                          (Sanitizer.numberToString age)
                          (setWhen (exposedHeaders config)
                             (str "Access-Control-Expose-Headers")
                             Sanitizer.sanitizeHeaderList
                             (setWhen (allowedHeaders config)
                                (str "Access-Control-Allow-Headers")
                                Sanitizer.sanitizeHeaderList
                                (setWhen (allowedMethods config)
                                   (str "Access-Control-Allow-Methods")
                                   Sanitizer.sanitizeHeaderList base)))
                    end
                  = record_get key base).
  { destruct Hkey as [-> | ->];
      destruct (maxAge config) as [[|age]|];
      rewrite ?record_get_set_other by reflexivity;
      by rewrite !record_get_setWhen_other by reflexivity. }
  rewrite Hrest. clear Hrest. subst originHeaders.
  destruct (allowedOrigins config) as [|origins].
  - destruct (flag (credentials config)); [done|].
    injection Hbase as <-. by destruct Hkey as [-> | ->].
  - destruct origin as [o|]; [|by injection Hbase as <-].
    destruct (negb (bool_decide (o = [])) && bool_decide (o ∈ origins));
      [|by injection Hbase as <-].
    injection Hbase as <-.
    destruct Hkey as [-> | ->]; [done|].
    by destruct (flag (credentials config)).
Qed.

Lemma buildCorsHeaders_throws (origin : option jsstring)
    (setting : CorsSetting) :
  throws (buildCorsHeaders origin setting)
  <-> wildcard_with_credentials (Some setting).
Proof.
  unfold wildcard_with_credentials, throws.
  destruct setting as [headers|config]; cbn [buildCorsHeaders].
  - split; [by intros [e ?] | by intros (config & ? & _)].
  - destruct (allowedOrigins config) as [|origins] eqn:Horigins.
    + destruct (flag (credentials config)) eqn:Hflag.
      * split; [|by eexists]. intros _. exists config.
        by rewrite Horigins.
      * split; [by intros [e ?]|].
        intros (config' & [= <-] & _ & Hflag'). congruence.
    + split.
      * intros [e He]. destruct origin as [o|]; [|done].
        by destruct (negb (bool_decide (o = [])) && bool_decide (o ∈ origins)).
      * intros (config' & [= <-] & Hany & _). congruence.
Qed.

(** X27.  [buildCorsHeaders] throws exactly for a configuration that
    allows every origin together with credentials.  In the headers it
    returns for a configuration that allows every origin,
    [Access-Control-Allow-Origin] is the wildcard and
    [Access-Control-Allow-Credentials] is absent.  For a list of origins
    and a request whose origin is not empty and is in the list,
    [Access-Control-Allow-Origin] is that origin, and
    [Access-Control-Allow-Credentials] is [true] when the configuration
    asks for credentials and is absent when it does not.  For a list of
    origins and any other request (no origin, an empty one, or one that
    is not in the list) both headers are absent. *)
Theorem buildCorsHeaders_origin_safe (origin : option jsstring)
    (config : CorsConfig) :
  (throws (buildCorsHeaders origin (Configured config))
   <-> allowedOrigins config = AnyOrigin
       /\ flag (credentials config) = true)
  /\ forall headers,
       buildCorsHeaders origin (Configured config) = Return headers ->
       (allowedOrigins config = AnyOrigin ->
        record_get ALLOW_ORIGIN headers = Some (str "*")
        /\ record_get ALLOW_CREDENTIALS headers = None)
       /\ (forall origins o,
             allowedOrigins config = Origins origins ->
             origin = Some o -> o <> [] -> o ∈ origins ->
             record_get ALLOW_ORIGIN headers = Some o
             /\ (flag (credentials config) = true ->
                 record_get ALLOW_CREDENTIALS headers = Some (str "true"))
             /\ (flag (credentials config) = false ->
                 record_get ALLOW_CREDENTIALS headers = None))
       /\ (forall origins,
             allowedOrigins config = Origins origins ->
             origin = None \/ origin = Some []
             \/ (exists o, origin = Some o /\ o ∉ origins) ->
             record_get ALLOW_ORIGIN headers = None
             /\ record_get ALLOW_CREDENTIALS headers = None).
Proof.
  split.
  - rewrite buildCorsHeaders_throws. unfold wildcard_with_credentials.
    split.
    + by intros (config' & [= <-] & Hany & Hflag).
    + intros [Hany Hflag]. by exists config.
  - intros headers Hbuilt.
    pose proof (buildCorsHeaders_origin_headers origin config headers
                  ALLOW_ORIGIN (or_introl eq_refl) Hbuilt) as Horigin.
    pose proof (buildCorsHeaders_origin_headers origin config headers
                  ALLOW_CREDENTIALS (or_intror eq_refl) Hbuilt)
      as Hcredentials.
    rewrite (bool_decide_eq_true_2 (ALLOW_ORIGIN = ALLOW_ORIGIN)) in Horigin
      by done.
    rewrite (bool_decide_eq_false_2 (ALLOW_CREDENTIALS = ALLOW_ORIGIN))
      in Hcredentials by done.
    split; [|split].
    + intros Hany. rewrite Hany in Horigin, Hcredentials. done.
    + intros origins o Horigins -> Hnonempty Hin.
      rewrite Horigins in Horigin, Hcredentials.
      rewrite (bool_decide_eq_false_2 _ Hnonempty) in Horigin, Hcredentials.
      rewrite (bool_decide_eq_true_2 _ Hin) in Horigin, Hcredentials.
      cbn [negb andb] in Horigin, Hcredentials.
      split; [done|].
      by split; intros Hflag; rewrite Hflag in Hcredentials.
    + intros origins Horigins Hother.
      rewrite Horigins in Horigin, Hcredentials.
      destruct Hother as [-> | [-> | (o & -> & Hout)]]; [done|done|].
      rewrite (bool_decide_eq_false_2 _ Hout), andb_false_r
        in Horigin, Hcredentials.
      done.
Qed.

Lemma buildCorsHeaders_origin_safe_witness :
  throws (buildCorsHeaders (Some (str "https://evil.example"))
            (Configured (mkCorsConfig AnyOrigin None None None (Some true)
                           None))).
Proof.
  apply (proj1 (buildCorsHeaders_origin_safe
                  (Some (str "https://evil.example"))
                  (mkCorsConfig AnyOrigin None None None (Some true) None))).
  split; reflexivity.
Defined.

Example buildCorsHeaders_unlisted_origin :
  buildCorsHeaders (Some (str "https://evil.example"))
    (Configured trusted_origins)
  = Return [ (str "Access-Control-Allow-Methods", str "GET, POST");
             (str "Access-Control-Max-Age", str "600") ].
Proof. reflexivity. Qed.

(** *** mergeCorsConfigs *)

Lemma record_get_app (key : jsstring) (a b : record) :
  record_get key (a ++ b)
  = match record_get key a with
    | Some value => Some value
    | None => record_get key b
    end.
Proof.
  induction a as [|[k v] a IH]; [done|]. cbn [app record_get].
  by case_bool_decide.
Qed.

Lemma record_get_spread (key : jsstring) (b : record) :
  forall a,
    record_get key (spread a b)
    = match record_get key (rev b) with
      | Some value => Some value
      | None => record_get key a
      end.
Proof.
  unfold spread. induction b as [|[k v] b IH]; intros a; [done|].
  cbn [fold_left rev]. rewrite IH, record_get_app, record_get_set.
  destruct (record_get key (rev b)); [done|].
  cbn [record_get]. by case_bool_decide.
Qed.

Lemma record_get_rev_Some (key : jsstring) (headers : record) :
  is_Some (record_get key (rev headers)) -> is_Some (record_get key headers).
Proof.
  induction headers as [|[k v] headers IH]; [done|].
  cbn [rev record_get]. rewrite record_get_app. intros Hsome.
  case_bool_decide as Hkey; [by eexists|]. apply IH.
  destruct (record_get key (rev headers)); [by eexists|].
  cbn [record_get] in Hsome.
  rewrite bool_decide_eq_false_2 in Hsome by done. by destruct Hsome.
Qed.

Lemma first_setting_app (key : jsstring)
    (configs : list (option CorsSetting)) (setting : option CorsSetting) :
  first_setting key (configs ++ [setting])
  = match first_setting key configs with
    | Some value => Some value
    | None => first_setting key [setting]
    end.
Proof.
  induction configs as [|[s|] configs IH]; cbn [app first_setting].
  - by destruct (first_setting key [setting]).
  - destruct (buildCorsHeaders None s) as [headers|e]; [|done].
    by destruct (record_get key (rev headers)).
  - done.
Qed.

Lemma mergeCorsConfigs_loop_spec (key : jsstring)
    (configs : list (option CorsSetting)) :
  forall result merged,
    mergeCorsConfigs_loop configs result = Return merged ->
    record_get key merged
    = match first_setting key (rev configs) with
      | Some value => Some value
      | None => record_get key result
      end.
Proof.
  induction configs as [|[[headers|config]|] configs IH];
    intros result merged Hmerged; cbn [mergeCorsConfigs_loop] in Hmerged.
  - by injection Hmerged as <-.
  - cbn [rev]. rewrite first_setting_app.
    rewrite (IH _ _ Hmerged), record_get_spread.
    destruct (first_setting key (rev configs)); [done|].
    cbn [first_setting buildCorsHeaders].
    by destruct (record_get key (rev headers)).
  - destruct (buildCorsHeaders None (Configured config)) as [headers|e]
      eqn:Hbuilt; [|done].
    cbn [rev]. rewrite first_setting_app.
    rewrite (IH _ _ Hmerged), record_get_spread.
    destruct (first_setting key (rev configs)); [done|].
    cbn [first_setting]. rewrite Hbuilt.
    by destruct (record_get key (rev headers)).
  - cbn [rev]. rewrite first_setting_app.
    rewrite (IH _ _ Hmerged).
    by destruct (first_setting key (rev configs)).
Qed.

Lemma mergeCorsConfigs_loop_throws (configs : list (option CorsSetting)) :
  forall result,
    throws (mergeCorsConfigs_loop configs result)
    <-> Exists wildcard_with_credentials configs.
Proof.
  induction configs as [|[[headers|config]|] configs IH]; intros result;
    cbn [mergeCorsConfigs_loop]; rewrite ?Exists_cons.
  - split; [by intros [e ?] | by intros H; inversion H].
  - rewrite IH. split; [tauto|].
    intros [(config & [=] & _) | H]. done.
  - pose proof (buildCorsHeaders_throws None (Configured config)) as Hthrows.
    destruct (buildCorsHeaders None (Configured config)) as [built|e].
    + rewrite IH. split; [tauto|]. intros [Hhead | H]; [|done].
      apply Hthrows in Hhead. by destruct Hhead.
    + split; [|by eexists]. intros _. left. apply Hthrows. by eexists.
  - rewrite IH. split; [tauto|].
    intros [(config & [=] & _) | H]. done.
Qed.

(** X28.  [mergeCorsConfigs] throws exactly when one of the
    configurations allows every origin together with credentials.
    Otherwise every header of the result has the value the last
    configuration that sets it gives it, later configurations overriding
    earlier ones; a configuration is read without a request origin, so an
    allow list contributes no [Access-Control-Allow-Origin]. *)
Theorem mergeCorsConfigs_later_wins (configs : list (option CorsSetting)) :
  (throws (mergeCorsConfigs configs)
   <-> Exists wildcard_with_credentials configs)
  /\ (forall merged,
        mergeCorsConfigs configs = Return merged ->
        forall key,
          record_get key merged = first_setting key (rev configs))
  /\ (forall config origins,
        allowedOrigins config = Origins origins ->
        first_setting ALLOW_ORIGIN [Some (Configured config)] = None).
Proof.
  unfold mergeCorsConfigs. split; [apply mergeCorsConfigs_loop_throws|].
  split.
  - intros merged Hmerged key.
    rewrite (mergeCorsConfigs_loop_spec key configs [] merged Hmerged).
    by destruct (first_setting key (rev configs)).
  - intros config origins Horigins. cbn [first_setting].
    destruct (buildCorsHeaders None (Configured config)) as [headers|e]
      eqn:Hbuilt; [|done].
    destruct (record_get ALLOW_ORIGIN (rev headers)) as [value|] eqn:Hvalue;
      [|done].
    exfalso.
    assert (Hsome : is_Some (record_get ALLOW_ORIGIN headers)).
    { apply record_get_rev_Some. rewrite Hvalue. by eexists. }
    destruct Hsome as [v Hv].
    rewrite (buildCorsHeaders_origin_headers None config headers
               ALLOW_ORIGIN (or_introl eq_refl) Hbuilt), Horigins in Hv.
    done.
Qed.

Lemma mergeCorsConfigs_later_wins_witness :
  record_get (str "Access-Control-Max-Age")
    [ (str "Access-Control-Max-Age", str "600");
      (str "Access-Control-Allow-Methods", str "GET, POST") ]
  = Some (str "600").
Proof.
  rewrite (proj1 (proj2 (mergeCorsConfigs_later_wins
                           [ Some (PlainHeaders
                                     [(str "Access-Control-Max-Age",
                                       str "86400")]);
                             None;
                             Some (Configured trusted_origins) ]))
             [ (str "Access-Control-Max-Age", str "600");
               (str "Access-Control-Allow-Methods", str "GET, POST") ]
             eq_refl (str "Access-Control-Max-Age")).
  reflexivity.
Defined.

End CorsMore.
(** ** The request handler of router.ts, further *)

Module RouterMore.
Import Constants Cors HttpErrors Authenticator DtoValidator Composer Router.
Import RouterSpec RoutingWords CorsWords RouterWords RouterFacts RoutingMore.
Import CorsMore.

Section Handler.

Context {TRole : Type} `{EqDecision TRole}.
Variable TUser : Type.
Variable Client : Type.
Variable Db : Type.
Variable Event : Type.
Variable roleOf : TUser -> slot TRole.
Variable normalizeNFKC : jsstring -> jsstring.
Variable decodeURIComponent : jsstring -> option jsstring.
Variable parseUrlEncoded : jsstring -> list (jsstring * jsstring).
Variable valueToString : value -> jsstring.
Variable stringifyError : value -> option Error.
Variable responseError : option payload -> N -> option Error.
Variable headersImmutable : Error.
Variable RegExp : Type.
Variable regexExec : RegExp -> jsstring -> option (list jsstring).
Variable compiledRoutes : @CompiledRoutesData TRole TUser Client Db Event RegExp.

Implicit Types (route : @CompiledRoute TRole TUser Client Db Event RegExp).
Implicit Types (config : @RouterConfig TRole TUser Client Db Event).
Implicit Types (req : Request) (r : Response) (corsHeaders : record).

(** For OPTIONS, [matchRoute] finds the first route whose pattern matches
    the pathname, whatever its method. *)
Lemma matchRoute_loop_options (pathname : jsstring)
    (routesToSearch : list (@CompiledRoute TRole TUser Client Db Event RegExp)) :
  fst <$> matchRoute_loop decodeURIComponent regexExec OPTIONS pathname
            routesToSearch
  = List.find (fun route => bool_decide (matches regexExec pathname route))
      routesToSearch.
Proof.
  unfold matches.
  induction routesToSearch as [|route rest IH];
    cbn [matchRoute_loop List.find]; [done|].
  rewrite (bool_decide_eq_true_2 (OPTIONS = OPTIONS)) by done.
  cbn [negb]. rewrite andb_false_r.
  destruct (regexExec (regex route) pathname) as [captures|] eqn:Hexec.
  - by rewrite bool_decide_eq_true_2 by by eexists.
  - by rewrite bool_decide_eq_false_2 by by intros [? ?].
Qed.

Lemma getAllowedMethods_nil (pathname : jsstring)
    (data : @RoutesInput TRole TUser Client Db Event RegExp) :
  getAllowedMethods regexExec pathname data = []
  <-> findMatchingRoutes regexExec pathname data = [].
Proof.
  unfold getAllowedMethods. cbv zeta.
  destruct (findMatchingRoutes regexExec pathname data) as [|route found].
  - done.
  - split; [|done]. intros Hnil.
    destruct (distinct_spec (map method (route :: found))) as [_ Hmem].
    assert (Hin : method route ∈ distinct (map method (route :: found))).
    { apply Hmem. apply list_elem_of_here. }
    destruct (distinct (map method (route :: found))) as [|m methods].
    { by apply elem_of_nil in Hin. }
    cbn [length Nat.ltb Nat.leb] in Hnil.
    destruct (distinct_spec ((m :: methods) ++ [OPTIONS])) as [_ Hmem'].
    assert (Hoptions : OPTIONS ∈ distinct ((m :: methods) ++ [OPTIONS])).
    { apply Hmem'. apply elem_of_app. right. apply list_elem_of_here. }
    rewrite Hnil in Hoptions. by apply elem_of_nil in Hoptions.
Qed.

Lemma find_none_filter_nil
    (test : @CompiledRoute TRole TUser Client Db Event RegExp -> bool)
    (items : list (@CompiledRoute TRole TUser Client Db Event RegExp)) :
  List.find test items = None <-> List.filter test items = [].
Proof.
  induction items as [|item rest IH]; [done|].
  cbn [List.find List.filter]. by destruct (test item).
Qed.

(** What [buildCorsHeaders] throws *)
Lemma buildCorsHeaders_throw (origin : option jsstring)
    (setting : CorsSetting) (e : Error) :
  buildCorsHeaders origin setting = Throw e ->
  e = ERR_WILDCARD_CREDENTIALS /\ wildcard_with_credentials (Some setting).
Proof.
  intros Hthrow. split.
  - destruct setting as [headers|settings]; cbn [buildCorsHeaders] in Hthrow;
      [done|].
    destruct (allowedOrigins settings) as [|origins].
    + destruct (flag (credentials settings)); [|done].
      by injection Hthrow as <-.
    + destruct origin as [o|]; [|done].
      by destruct (negb (bool_decide (o = [])) && bool_decide (o ∈ origins)).
  - apply (buildCorsHeaders_throws origin setting). by exists e.
Qed.

Lemma corsHeadersOf_throw route req (defaultCors : record) (e : Error) :
  corsHeadersOf route req defaultCors = Throw e ->
  e = ERR_WILDCARD_CREDENTIALS
  /\ wildcard_with_credentials (Router.corsHeaders route).
Proof.
  unfold corsHeadersOf.
  destruct (Router.corsHeaders route) as [setting|]; [|done].
  apply buildCorsHeaders_throw.
Qed.

(** X29.  A preflight, a request of the method OPTIONS, runs no
    middleware and no route handler and consults nothing of the router
    configuration: neither the authentication handler nor the container.
    It is answered from the first route whose pattern matches the
    pathname, whatever the method of that route.  When there is none the
    answer is the 404.  When building the CORS headers of that route
    throws, the promise rejects with what is thrown.  Otherwise the answer
    is the 204 without a body whose headers are the default CORS headers
    overridden by the CORS headers of that route. *)
Theorem preflight_answer config req :
  Http.method req = OPTIONS ->
  (forall config',
     requestHandler roleOf normalizeNFKC decodeURIComponent parseUrlEncoded
       valueToString stringifyError responseError headersImmutable regexExec
       config' compiledRoutes req
     = requestHandler roleOf normalizeNFKC decodeURIComponent parseUrlEncoded
         valueToString stringifyError responseError headersImmutable regexExec
         config compiledRoutes req)
  /\ (List.find
        (fun route => bool_decide (matches regexExec (pathname req) route))
        (routes compiledRoutes) = None ->
      requestHandler roleOf normalizeNFKC decodeURIComponent parseUrlEncoded
        valueToString stringifyError responseError headersImmutable regexExec
        config compiledRoutes req
      = (Fulfilled (notFoundResponse (defaultCorsOf [])), []))
  /\ (forall route,
        List.find
          (fun route => bool_decide (matches regexExec (pathname req) route))
          (routes compiledRoutes) = Some route ->
        let defaultCors :=
          defaultCorsOf
            (getAllowedMethods regexExec (pathname req)
               (Indexed compiledRoutes)) in
        (forall e,
           corsHeadersOf route req defaultCors = Throw e ->
           requestHandler roleOf normalizeNFKC decodeURIComponent
             parseUrlEncoded valueToString stringifyError responseError
             headersImmutable regexExec config compiledRoutes req
           = (Rejected (ThrownError e), []))
        /\ (forall corsHeaders,
              corsHeadersOf route req defaultCors = Return corsHeaders ->
              requestHandler roleOf normalizeNFKC decodeURIComponent
                parseUrlEncoded valueToString stringifyError responseError
                headersImmutable regexExec config compiledRoutes req
              = (Fulfilled
                   (newResponse None 204
                      (spread (spread [] defaultCors) corsHeaders)), []))).
Proof.
  intros Hmethod. split.
  { intros config'. unfold requestHandler. cbv zeta.
    by rewrite !(bool_decide_eq_true_2 (Http.method req = OPTIONS)) by done. }
  pose proof (matchRoute_loop_options (pathname req) (routes compiledRoutes))
    as Hfind.
  unfold requestHandler. cbv zeta.
  rewrite (bool_decide_eq_true_2 (Http.method req = OPTIONS)) by done.
  unfold matchRoute. rewrite Hmethod.
  rewrite (bool_decide_eq_true_2 (OPTIONS = OPTIONS)) by done.
  split.
  - intros Hfound. rewrite Hfound in Hfind.
    destruct (matchRoute_loop decodeURIComponent regexExec OPTIONS
                (pathname req) (routes compiledRoutes))
      as [[route' parameters]|]; [done|].
    assert (Hallowed : getAllowedMethods regexExec (pathname req)
                         (Indexed compiledRoutes) = []).
    { rewrite getAllowedMethods_nil. unfold findMatchingRoutes.
      rewrite <- find_none_filter_nil. unfold matches in *. exact Hfound. }
    by rewrite Hallowed.
  - intros route Hfound. rewrite Hfound in Hfind.
    destruct (matchRoute_loop decodeURIComponent regexExec OPTIONS
                (pathname req) (routes compiledRoutes))
      as [[route' parameters]|]; [|done].
    injection Hfind as ->.
    assert (Hallowed : getAllowedMethods regexExec (pathname req)
                         (Indexed compiledRoutes) <> []).
    { rewrite getAllowedMethods_nil. unfold findMatchingRoutes.
      rewrite <- find_none_filter_nil.
      unfold matches in *. by rewrite Hfound. }
    destruct (getAllowedMethods regexExec (pathname req)
                (Indexed compiledRoutes)) as [|m allowed]; [done|].
    cbn [length Nat.eqb].
    split.
    + intros e Hthrow. by rewrite Hthrow.
    + intros corsHeaders Hbuilt. by rewrite Hbuilt.
Qed.

(** The body stage never rejects: the responses [parseAndValidateBody]
    throws are new, and their headers can be changed. *)
Lemma parseBody_never_fails route corsHeaders req (e : thrown) :
  parseBody parseUrlEncoded headersImmutable route corsHeaders req <> Fail e.
Proof.
  unfold parseBody.
  destruct (_ ≫= _) as [bodySchema|]; [|done].
  destruct (validationOn route); [|done].
  destruct (parseAndValidateBody _ _ _ _ _) as [d|[err|x|v]] eqn:Hbody;
    [done|done| |done].
  apply parseAndValidateBody_thrown in Hbody.
  assert (Hmutable : immutableHeaders x = false).
  { by destruct Hbody as [-> | [details ->]]. }
  destruct (setHeaders_mutable headersImmutable corsHeaders x Hmutable)
    as [r' Hset].
  by rewrite Hset.
Qed.

Lemma buildContext_fails config route (parameters : record) corsHeaders req
    (e : thrown) :
  buildContext roleOf normalizeNFKC decodeURIComponent parseUrlEncoded
    valueToString headersImmutable config route parameters
    corsHeaders req = Fail e ->
  generateId (container config) = Throw e
  \/ (Cors.flag (useDatabase route) = true
      /\ (exists error,
            getOrCreateDbClient (container config) = Some (Throw error))
      /\ logError (container config) = Throw e).
Proof.
  unfold buildContext.
  destruct (generateId (container config)) as [requestId|e0];
    [|intros [= <-]; by left].
  destruct (sanitizeParams _ _ _ _); [|done].
  destruct (validateQuery _ _ _); [|done].
  destruct (validateParams _ _ _); [|done].
  pose proof (parseBody_never_fails route corsHeaders req) as Hbody.
  destruct (parseBody _ _ _ _) as [body|r4|e4]; [|done|by destruct (Hbody e4)].
  unfold acquireDb.
  destruct (Cors.flag (useDatabase route)) eqn:Huse.
  - destruct (getOrCreateDbClient (container config)) as [[db|error]|] eqn:Hdb;
      [| |done].
    + by destruct (authenticate _ _ _ _ _ _ _).
    + destruct (logError (container config)) as [u|e5] eqn:Hlog; [done|].
      intros [= <-]. right. split; [done|]. split; [by eexists|done].
  - by destruct (authenticate _ _ _ _ _ _ _).
Qed.

Lemma executeHandler_throws route corsHeaders
    (context : Context TUser Client Db) (e : thrown) :
  executeHandler normalizeNFKC stringifyError responseError headersImmutable
    route corsHeaders context
  = Throw e ->
  exists thrownResponse,
    handler route context = Throw (ThrownResponse thrownResponse)
    /\ immutableHeaders thrownResponse = true
    /\ corsHeaders <> []
    /\ e = ThrownError headersImmutable.
Proof.
  unfold executeHandler.
  destruct (handler route context) as [[result|result]|[err|x|v]];
    cbn [handlerError].
  - by destruct (setHeaders headersImmutable corsHeaders result).
  - destruct (stringifyError result); [done|]. cbv zeta.
    by destruct (responseError _ _).
  - done.
  - destruct (setHeaders headersImmutable corsHeaders
                x) as [r|err] eqn:Hset; [done|].
    intros [= <-]. exists x.
    by destruct (setHeaders_throws _ _ _ _ Hset) as (-> & ? & ?).
  - done.
Qed.


End Handler.

Lemma preflight_answer_witness :
  sample_handler_of sample_config options_request
  = (Fulfilled (notFoundResponse (defaultCorsOf [])), []).
Proof.
  unfold sample_handler_of.
  apply (proj1 (proj2 (preflight_answer AuthSpec.sample_user unit unit nat snd
                         (fun s => s) Some (fun _ => [])
                         (fun _ => str "value") (fun _ => None)
                         sample_responseError ERR_HEADERS_IMMUTABLE
                         (jsstring -> option (list jsstring))
                         (fun re pathname => re pathname) sample_routes
                         sample_config options_request eq_refl))).
  reflexivity.
Defined.


(** The two ways, on the router with the one route GET /users: the
    request is answered 500 when the default authentication handler
    cannot be built, and the promise rejects when the identifier
    generator throws. *)
Example requestHandler_fulfilled :
  exists r,
    sample_handler users_request = (Fulfilled r, [])
    /\ status r = 500%N
    /\ body r
       = Some (JsonObject
                 [ (str "error",
                    FString (str "Authentication configuration error"));
                   (str "message", FString (str "SUPABASE_URL is not set")) ]).
Proof. eexists. split; [by vm_compute|]. by split. Qed.

Example requestHandler_rejected :
  sample_handler_of failing_id_config users_request
  = (Rejected (ThrownError ERR_NO_ENTROPY), []).
Proof. by vm_compute. Qed.

(** On a host after the Fetch standard, a handler that returns a value
    under the status 204 is answered 500: the constructor refuses a body
    with that status, inside the [try] block. *)
Example executeHandler_no_content_with_body :
  executeHandler (fun s => s) (fun _ => None) sample_responseError
    ERR_HEADERS_IMMUTABLE no_content_route [] users_context
  = Return
      (errorResponse
         [(str "error",
           FString (str "Response with null body status cannot have body"))]
         500 []).
Proof. by vm_compute. Qed.

End RouterMore.
